(** * LISFLOOD-FP BMI adapter ([glofrim/lfp_bmi.py]): a shallow embedding

    The development follows the layout of the Python module:
    - [Np]: the numpy / scipy array operations the adapter calls;
    - [Par]: [ParConfigParser], the flat [KEY VALUE] parameter file parser
      built on the standard library's [ConfigParser] (modelled after
      [configparser.py] of Python 3.11);
    - [Mask] and [Lfp]: the [LFP] adapter class (masks, time control,
      variable exchange, attribute access) over an opaque engine;
    - [ParSpec] and [LfpSpec]: the notions the properties are stated with;
    - [GlibModel] and [Examples]: sample instances and inputs.
    The properties follow the definitions.

    Conventions.  Python [str] is [list ascii] (code points below 256);
    [datetime] and [timedelta] are integers counting microseconds, their
    resolution in Python, without the range limits of the Python types; a
    Python method that mutates [self] is a function from the adapter state
    to an outcome and a new state. *)

From Stdlib Require Import ZArith List Ascii String Lia Bool.
From Stdlib Require Import DecimalString DecimalPos DecimalZ.
From stdpp Require Import base option list gmap.
Import ListNotations.

Set Warnings "-via-type-remapping,-via-type-mismatch".

(** ** Python strings *)

Definition str := list ascii.

Inductive str_literal := LitNil | LitCons (a : ascii) (s : str_literal).

Fixpoint literal_of_bytes (l : list Byte.byte) : str_literal :=
  match l with
  | [] => LitNil
  | b :: l' => LitCons (ascii_of_byte b) (literal_of_bytes l')
  end.

Fixpoint bytes_of_literal (s : str_literal) : list Byte.byte :=
  match s with
  | LitNil => []
  | LitCons a s' => byte_of_ascii a :: bytes_of_literal s'
  end.

Declare Scope str_scope.
Delimit Scope str_scope with str.
String Notation str literal_of_bytes bytes_of_literal
  (via str_literal mapping [[nil] => LitNil, [cons] => LitCons]) : str_scope.
Open Scope str_scope.

Definition ascii_eqb (a b : ascii) : bool := Ascii.eqb a b.

Fixpoint str_eqb (s t : str) : bool :=
  match s, t with
  | [], [] => true
  | a :: s', b :: t' => ascii_eqb a b && str_eqb s' t'
  | _, _ => false
  end.

(** [x in [a, b, ...]] on strings. *)
Definition str_in (x : str) (l : list str) : bool := existsb (str_eqb x) l.

(** ** numpy and scipy.signal *)

Module Np.

(** A two-dimensional [numpy.ndarray]: its [shape] and its rows.  The shape
    is kept apart from the rows because an array of shape [(0, W)] has no
    row to read [W] from. *)
Record ndarray (A : Type) : Type := mk_ndarray {
  nrows : nat;
  ncols : nat;
  data : list (list A)
}.
Arguments mk_ndarray {A} _ _ _.
Arguments nrows {A} _.
Arguments ncols {A} _.
Arguments data {A} _.

Definition shape {A} (a : ndarray A) : nat * nat := (nrows a, ncols a).

(** The rows agree with the shape. *)
Definition wf {A} (a : ndarray A) : Prop :=
  length (data a) = nrows a /\ Forall (fun r => length r = ncols a) (data a).

Definition wfb {A} (a : ndarray A) : bool :=
  (length (data a) =? nrows a)%nat
  && forallb (fun r => (length r =? ncols a)%nat) (data a).

(** [a[i, j]], [None] out of range. *)
Definition item {A} (a : ndarray A) (i j : nat) : option A :=
  match data a !! i with
  | Some r => r !! j
  | None => None
  end.

Definition of_rows {A} (w : nat) (rows : list (list A)) : ndarray A :=
  mk_ndarray (length rows) w rows.

(** [np.zeros((h, w))] (float zeros, here the integer 0). *)
Definition zeros (h w : nat) : ndarray Z :=
  mk_ndarray h w (repeat (repeat 0%Z w) h).

Definition map_array {A B} (f : A -> B) (a : ndarray A) : ndarray B :=
  mk_ndarray (nrows a) (ncols a) (map (map f) (data a)).

(** Element-wise binary operation on two arrays of one shape. *)
Definition zip_array {A B C} (f : A -> B -> C) (a : ndarray A) (b : ndarray B)
  : ndarray C :=
  mk_ndarray (nrows a) (ncols a)
    (zip_with (fun ra rb => zip_with f ra rb) (data a) (data b)).

(** numpy's promotion of [bool] to [float64] when a boolean array is stacked
    with a float array: [True] is [1.0], [False] is [0.0].  The sums formed
    below are 0, 1 or 2, exact in floating point, so integers stand for the
    floats. *)
Definition float_of_bool (b : bool) : Z := if b then 1%Z else 0%Z.

(** [np.vstack([a, b])]: [b] below [a]; [None] is numpy's [ValueError] when
    the column counts differ. *)
Definition vstack {A} (a b : ndarray A) : option (ndarray A) :=
  if (ncols a =? ncols b)%nat
  then Some (mk_ndarray (nrows a + nrows b) (ncols a) (data a ++ data b))
  else None.

(** [np.hstack([a, b])]: [b] to the right of [a]. *)
Definition hstack {A} (a b : ndarray A) : option (ndarray A) :=
  if (nrows a =? nrows b)%nat
  then Some (mk_ndarray (nrows a) (ncols a + ncols b)
               (zip_with (fun ra rb => ra ++ rb) (data a) (data b)))
  else None.

(** [in1[i, j]] with [fillvalue=0] outside the array. *)
Definition getz (a : ndarray Z) (i j : nat) : Z := default 0%Z (item a i j).

Definition sum_Z (l : list Z) : Z := fold_right Z.add 0%Z l.

(** One cell of the full discrete convolution:
    [out[i, j] = sum_{p, q} in1[i - p, j - q] * in2[p, q]]. *)
Definition convolve2d_cell (in1 in2 : ndarray Z) (i j : nat) : Z :=
  sum_Z (map (fun p =>
    sum_Z (map (fun q =>
      if (p <=? i)%nat && (q <=? j)%nat
      then (getz in1 (i - p) (j - q) * getz in2 p q)%Z
      else 0%Z) (seq 0 (ncols in2)))) (seq 0 (nrows in2))).

(** [scipy.signal.convolve2d(in1, in2)] with its defaults [mode='full'],
    [boundary='fill'], [fillvalue=0]: the output has shape
    [(M + P - 1, N + Q - 1)] for inputs of shapes [(M, N)] and [(P, Q)]. *)
Definition convolve2d (in1 in2 : ndarray Z) : ndarray Z :=
  let h := (nrows in1 + nrows in2 - 1)%nat in
  let w := (ncols in1 + ncols in2 - 1)%nat in
  mk_ndarray h w
    (map (fun i => map (fun j => convolve2d_cell in1 in2 i j) (seq 0 w))
         (seq 0 h)).

(** [np.array(a, dtype='bool')]: nonzero is [True]. *)
Definition astype_bool (a : ndarray Z) : ndarray bool :=
  map_array (fun z => negb (z =? 0)%Z) a.

End Np.

(** ** Exceptions *)

(** The exceptions the modelled code raises, those of [configparser]
    included. *)
Inductive exn : Type :=
| Exception (msg : str)
| Warning (msg : str)
| ValueError (msg : str)
| TypeError
| AssertionError
| AttributeError
| IndexError
| KeyError (key : str)
| NotImplementedError
| DuplicateSectionError (section : str) (lineno : nat)
| DuplicateOptionError (section : option str) (option : str) (lineno : nat)
| MissingSectionHeaderError (lineno : nat) (line : str)
| ParsingError (lines : list (nat * str))
| GlibError (msg : str).

(** What running a piece of Python gives: a value, an exception, or, for a
    [while] loop run with bounded fuel, no answer yet. *)
Inductive outcome (A : Type) : Type :=
| Ok (a : A)
| Raise (e : exn)
| OutOfFuel.
Arguments Ok {A} _.
Arguments Raise {A} _.
Arguments OutOfFuel {A}.

(** ** The parameter file parser ([ParConfigParser]) *)

Module Par.

(** *** [str] methods *)

(** [c.isspace()] for a code point below 256: tab, line feed, vertical tab,
    form feed, carriage return, the separators 0x1c to 0x1f, space, next
    line (0x85) and no-break space (0xa0).  The regular expression class
    [\s] matches the same characters. *)
Definition isspace (c : ascii) : bool :=
  let n := nat_of_ascii c in
  ((9 <=? n) && (n <=? 13)) || ((28 <=? n) && (n <=? 32))
  || (n =? 133) || (n =? 160).

Fixpoint lstrip (s : str) : str :=
  match s with
  | [] => []
  | c :: s' => if isspace c then lstrip s' else s
  end.

Definition rstrip (s : str) : str := rev (lstrip (rev s)).

Definition strip (s : str) : str := lstrip (rstrip s).

(** [s.split()]: the maximal runs of characters that are not whitespace.
    [cur] holds the run being read, last character first. *)
Fixpoint split_from (cur : str) (s : str) : list str :=
  match s with
  | [] => match cur with [] => [] | _ => [rev cur] end
  | c :: s' =>
      if isspace c
      then match cur with
           | [] => split_from [] s'
           | _ => rev cur :: split_from [] s'
           end
      else split_from (c :: cur) s'
  end.

Definition split (s : str) : list str := split_from [] s.

(** [s.split(sep)] for a one-character separator: the segments between the
    separators, empty ones included; never an empty list. *)
Fixpoint split_on_from (sep : ascii) (cur : str) (s : str) : list str :=
  match s with
  | [] => [rev cur]
  | c :: s' =>
      if ascii_eqb c sep
      then rev cur :: split_on_from sep [] s'
      else split_on_from sep (c :: cur) s'
  end.

Definition split_on (sep : ascii) (s : str) : list str :=
  split_on_from sep [] s.

(** [sep.join(l)]. *)
Fixpoint join (sep : str) (l : list str) : str :=
  match l with
  | [] => []
  | [x] => x
  | x :: l' => x ++ sep ++ join sep l'
  end.

Fixpoint startswith (p s : str) : bool :=
  match p, s with
  | [], _ => true
  | a :: p', b :: s' => ascii_eqb a b && startswith p' s'
  | _ :: _, [] => false
  end.

(** [c in s]. *)
Definition contains (c : ascii) (s : str) : bool := existsb (ascii_eqb c) s.

(** [s.replace('\n', '\n\t')]. *)
Fixpoint replace_newline (s : str) : str :=
  match s with
  | [] => []
  | c :: s' =>
      if ascii_eqb c "010"%char
      then "010"%char :: "009"%char :: replace_newline s'
      else c :: replace_newline s'
  end.

(** Iterating over a text stream: each line runs up to and including its
    line feed; a last line without one is kept as it is. *)
Fixpoint lines_from (cur : str) (s : str) : list str :=
  match s with
  | [] => match cur with [] => [] | _ => [rev cur] end
  | c :: s' =>
      if ascii_eqb c "010"%char
      then rev (c :: cur) :: lines_from [] s'
      else lines_from (c :: cur) s'
  end.

Definition lines_of (text : str) : list str := lines_from [] text.

(** *** Python dictionaries, in insertion order *)

Definition dict (V : Type) : Type := list (str * V).

Fixpoint dict_get {V} (d : dict V) (k : str) : option V :=
  match d with
  | [] => None
  | (k', v) :: d' => if str_eqb k' k then Some v else dict_get d' k
  end.

(** [d[k] = v]: an existing key keeps its place. *)
Fixpoint dict_set {V} (d : dict V) (k : str) (v : V) : dict V :=
  match d with
  | [] => [(k, v)]
  | (k', v') :: d' =>
      if str_eqb k' k then (k', v) :: d' else (k', v') :: dict_set d' k v
  end.

Definition dict_has {V} (d : dict V) (k : str) : bool :=
  match dict_get d k with Some _ => true | None => false end.

(** *** The parser object *)

(** A [ConfigParser] between reads: the default section and the named
    sections, each option holding a string or [None]. *)
Record config : Type := mk_config {
  cfg_defaults : dict (option str);
  cfg_sections : dict (dict (option str))
}.

(** [ParConfigParser.__init__]: the keyword arguments fixed by the class are
    [comment_prefixes=('!', '/', '#')], [inline_comment_prefixes=('!')],
    [allow_no_value=True], [delimiters=('=')]; [optionxform] is the
    identity; [strict], [empty_lines_in_values] and [default_section] keep
    their defaults [True], [True] and ['DEFAULT'].  [defaults] is the only
    keyword argument the adapter passes on. *)
Definition comment_prefixes : list str := ["!"; "/"; "#"].
Definition inline_comment_prefix : ascii := "!"%char.
Definition delimiter : ascii := "="%char.
Definition default_section : str := "DEFAULT".

Definition ParConfigParser (defaults : dict (option str)) : config :=
  mk_config (fold_left (fun d kv => dict_set d (fst kv) (snd kv)) defaults [])
            [].

(** *** [ParConfigParser.read_file] *)

(** The generator [par2ini]: a section header, then of each line its first
    two whitespace-separated tokens joined by [=]. *)
Definition par2ini (f : list str) (header_name : str) : list str :=
  ("[" ++ header_name ++ "]" ++ ["010"%char])
  :: map (fun line => join "=" (take 2 (split line))) f.

(** A value while a file is being read: [None], a string set before the
    read, or the list of the lines of a value read so far. *)
Inductive pval : Type :=
| VNone
| VStr (s : str)
| VList (l : list str).

(** The dictionary [cursect] refers to. *)
Inductive cursect_ref : Type :=
| CurDefaults
| CurSection (name : str).

(** An element of the set [elements_added]. *)
Inductive element : Type :=
| ESection (name : str)
| EOption (section : option str) (option : str).

Definition element_eqb (a b : element) : bool :=
  match a, b with
  | ESection s, ESection t => str_eqb s t
  | EOption (Some s) o, EOption (Some t) p => str_eqb s t && str_eqb o p
  | EOption None o, EOption None p => str_eqb o p
  | _, _ => false
  end.

(** The parser's dictionaries and the local variables of [_read].  [e]
    collects the lines of a [ParsingError] with their numbers; it keeps the
    line itself where Python keeps [repr(line)]. *)
Record read_state : Type := mk_read_state {
  rs_defaults : dict pval;
  rs_sections : dict (dict pval);
  elements_added : list element;
  cursect : option cursect_ref;
  sectname : option str;
  optname : option str;
  indent_level : nat;
  e : list (nat * str)
}.

Definition cur_dict (st : read_state) (c : cursect_ref) : dict pval :=
  match c with
  | CurDefaults => rs_defaults st
  | CurSection s => default [] (dict_get (rs_sections st) s)
  end.

Definition set_cur_dict (st : read_state) (c : cursect_ref) (d : dict pval)
  : read_state :=
  match c with
  | CurDefaults =>
      mk_read_state d (rs_sections st) (elements_added st) (cursect st)
        (sectname st) (optname st) (indent_level st) (e st)
  | CurSection s =>
      mk_read_state (rs_defaults st) (dict_set (rs_sections st) s d)
        (elements_added st) (cursect st) (sectname st) (optname st)
        (indent_level st) (e st)
  end.

(** The search for an inline comment: the first [!] that opens the line or
    follows a whitespace character.  [prev] is the character before [s] and
    [i] the index of the head of [s]. *)
Fixpoint inline_comment_from (prev : option ascii) (i : nat) (s : str)
  : option nat :=
  match s with
  | [] => None
  | c :: s' =>
      if ascii_eqb c inline_comment_prefix
         && match prev with None => true | Some p => isspace p end
      then Some i
      else inline_comment_from (Some c) (S i) s'
  end.

(** [comment_start], [None] when the line holds no comment. *)
Definition comment_start (line : str) : option nat :=
  if existsb (fun p => startswith p (strip line)) comment_prefixes
  then Some 0%nat
  else inline_comment_from None 0 line.

(** [NONSPACECRE.search(line)]: the index of the first character that is
    not whitespace, 0 when there is none. *)
Fixpoint first_nonspace_from (i : nat) (s : str) : nat :=
  match s with
  | [] => 0%nat
  | c :: s' => if isspace c then first_nonspace_from (S i) s' else i
  end.

Fixpoint last_index_from (c : ascii) (i : nat) (s : str) : option nat :=
  match s with
  | [] => None
  | a :: s' =>
      match last_index_from c (S i) s' with
      | Some k => Some k
      | None => if ascii_eqb a c then Some i else None
      end
  end.

(** [SECTCRE.match(value)], the pattern being [\[(?P<header>.+)\]]: [value]
    opens with a bracket and holds a closing bracket at index 2 or later;
    the header runs up to the last one. *)
Definition sect_header (value : str) : option str :=
  match value with
  | c :: rest =>
      if ascii_eqb c "["%char
      then match last_index_from "]"%char 0 rest with
           | Some k => if (1 <=? k)%nat then Some (take k rest) else None
           | None => None
           end
      else None
  | [] => None
  end.

Fixpoint find_char (c : ascii) (s : str) : option nat :=
  match s with
  | [] => None
  | a :: s' =>
      if ascii_eqb a c then Some 0%nat
      else match find_char c s' with Some k => Some (S k) | None => None end
  end.

(** [self._optcre.match(value)] for the pattern with optional values and the
    delimiter [=]: the groups [option] and [value].  The option runs up to
    the whitespace before the first delimiter, the value starts after the
    whitespace that follows it; without a delimiter the whole text is the
    option and the value is [None].  ([value] is one stripped line and holds
    no line break.) *)
Definition optcre_match (value : str) : str * option str :=
  match find_char delimiter value with
  | Some k => (rstrip (take k value), Some (lstrip (drop (S k) value)))
  | None => (value, None)
  end.

Definition truthy (o : option str) : bool :=
  match o with
  | Some (_ :: _) => true
  | _ => false
  end.

(** [cursect[optname].append(x)]. *)
Definition append_to_option (st : read_state) (c : cursect_ref) (o : str)
  (x : str) : outcome read_state :=
  match dict_get (cur_dict st c) o with
  | Some (VList l) => Ok (set_cur_dict st c (dict_set (cur_dict st c) o (VList (l ++ [x]))))
  | Some _ => Raise AttributeError
  | None => Raise (KeyError o)
  end.

Definition with_locals (st : read_state) (ea : list element)
  (cs : option cursect_ref) (sn on : option str) (il : nat)
  (err : list (nat * str)) : read_state :=
  mk_read_state (rs_defaults st) (rs_sections st) ea cs sn on il err.

(** The branch of [_read] for a line that opens a section or sets an
    option. *)
Definition read_header_or_option (lineno : nat) (line value : str)
  (cur_indent_level : nat) (st : read_state) : outcome read_state :=
  match sect_header value with
  | Some name =>
      if dict_has (rs_sections st) name then
        if existsb (element_eqb (ESection name)) (elements_added st)
        then Raise (DuplicateSectionError name lineno)
        else Ok (with_locals st (ESection name :: elements_added st)
                   (Some (CurSection name)) (Some name) None
                   cur_indent_level (e st))
      else if str_eqb name default_section then
        Ok (with_locals st (elements_added st) (Some CurDefaults) (Some name)
              None cur_indent_level (e st))
      else
        Ok (mk_read_state (rs_defaults st)
              (dict_set (rs_sections st) name [])
              (ESection name :: elements_added st)
              (Some (CurSection name)) (Some name) None cur_indent_level
              (e st))
  | None =>
      match cursect st with
      | None => Raise (MissingSectionHeaderError lineno line)
      | Some c =>
          let '(option, optval) := optcre_match value in
          let err :=
            match option with
            | [] => e st ++ [(lineno, line)]
            | _ => e st
            end in
          let option := rstrip option in
          if existsb (element_eqb (EOption (sectname st) option))
               (elements_added st)
          then Raise (DuplicateOptionError (sectname st) option lineno)
          else
            let st1 :=
              with_locals st (EOption (sectname st) option :: elements_added st)
                (cursect st) (sectname st) (Some option) cur_indent_level err in
            Ok (set_cur_dict st1 c
                  (dict_set (cur_dict st1 c) option
                     match optval with
                     | Some v => VList [strip v]
                     | None => VNone
                     end))
      end
  end.

(** One turn of the loop of [RawConfigParser._read]. *)
Definition read_line (lineno : nat) (line : str) (st : read_state)
  : outcome read_state :=
  let cstart := comment_start line in
  let value :=
    strip (match cstart with Some n => take n line | None => line end) in
  match value with
  | [] =>
      (* an empty line is added to the value being read, unless the line
         held a comment *)
      match cstart, cursect st, optname st with
      | None, Some c, Some (a :: o) =>
          match dict_get (cur_dict st c) (a :: o) with
          | Some VNone => Ok st
          | _ => append_to_option st c (a :: o) []
          end
      | _, _, _ => Ok st
      end
  | _ :: _ =>
      let cur_indent_level := first_nonspace_from 0 line in
      match cursect st, optname st with
      | Some c, Some (a :: o) =>
          if (indent_level st <? cur_indent_level)%nat
          then append_to_option st c (a :: o) value
          else read_header_or_option lineno line value cur_indent_level st
      | _, _ => read_header_or_option lineno line value cur_indent_level st
      end
  end.

(** The loop [for lineno, line in enumerate(fp, start=1)]. *)
Fixpoint read_lines (lineno : nat) (fp : list str) (st : read_state)
  : outcome read_state :=
  match fp with
  | [] => Ok st
  | line :: fp' =>
      match read_line lineno line st with
      | Ok st' => read_lines (S lineno) fp' st'
      | Raise ex => Raise ex
      | OutOfFuel => OutOfFuel
      end
  end.

(** [_join_multiline_values]: the lines of a value are joined by line feeds
    and trailing whitespace is dropped. *)
Definition join_value (v : pval) : option str :=
  match v with
  | VNone => None
  | VStr s => Some s
  | VList l => Some (rstrip (join ["010"%char] l))
  end.

Definition join_dict (d : dict pval) : dict (option str) :=
  map (fun kv => (fst kv, join_value (snd kv))) d.

Definition unjoined (v : option str) : pval :=
  match v with
  | None => VNone
  | Some s => VStr s
  end.

Definition begin_read (self : config) : read_state :=
  mk_read_state
    (map (fun kv => (fst kv, unjoined (snd kv))) (cfg_defaults self))
    (map (fun sd => (fst sd, map (fun kv => (fst kv, unjoined (snd kv))) (snd sd)))
         (cfg_sections self))
    [] None None None 0 [].

(** [RawConfigParser._read]. *)
Definition _read (self : config) (fp : list str) : outcome config :=
  match read_lines 1 fp (begin_read self) with
  | Ok st =>
      match e st with
      | [] =>
          Ok (mk_config (join_dict (rs_defaults st))
                (map (fun sd => (fst sd, join_dict (snd sd))) (rs_sections st)))
      | _ :: _ => Raise (ParsingError (e st))
      end
  | Raise ex => Raise ex
  | OutOfFuel => OutOfFuel
  end.

(** [ParConfigParser.read_file]. *)
Definition read_file (self : config) (f : list str) : outcome config :=
  _read self (par2ini f "general").

(** *** [ParConfigParser._write_section] and [ConfigParser.write] *)

(** [str(value)]. *)
Definition str_of_value (v : option str) : str :=
  match v with
  | Some s => s
  | None => "None"
  end.

(** [_write_section], as the text it writes to [fp]; the section name is
    not written. *)
Definition _write_section (section_name : str)
  (section_items : dict (option str)) : str :=
  concat (map (fun kv =>
            fst kv ++ (" " ++ replace_newline (str_of_value (snd kv)))
                   ++ ["010"%char]) section_items)
  ++ ["010"%char].

(** [RawConfigParser.write]: the default section when it is not empty, then
    every section. *)
Definition write (self : config) : str :=
  (match cfg_defaults self with
   | [] => []
   | _ :: _ => _write_section default_section (cfg_defaults self)
   end)
  ++ concat (map (fun sd => _write_section (fst sd) (snd sd))
               (cfg_sections self)).

(** The steps of the round trip. *)
Definition parse (defaults : dict (option str)) (f : list str)
  : outcome config :=
  read_file (ParConfigParser defaults) f.

Definition serialize (record : config) : str := write record.

Definition LF : str := ["010"%char].

End Par.

(** ** Notions used to state the properties of the parser *)

Module ParSpec.
Import Par.

(** No whitespace character in [s]. *)
Definition nows (s : str) : Prop := Forall (fun c => isspace c = false) s.

(** [s] opens with one of the comment prefixes. *)
Definition opens_comment (s : str) : bool :=
  existsb (fun p => startswith p s) comment_prefixes.

(** The line [par2ini] makes of a key and its value, or of a key alone. *)
Definition item_line (kv : str * option str) : str :=
  match snd kv with
  | Some v => fst kv ++ "=" ++ v
  | None => fst kv
  end.

(** A key and value that the parser reads back as they are: the key is not
    empty, has no whitespace and no delimiter and does not open a comment;
    the value has no whitespace; their line does not open a section. *)
Definition item_ok (kv : str * option str) : Prop :=
  fst kv <> []
  /\ nows (fst kv)
  /\ contains delimiter (fst kv) = false
  /\ opens_comment (fst kv) = false
  /\ sect_header (item_line kv) = None
  /\ match snd kv with Some v => nows v | None => True end.

(** A line that holds one keyword and its line feed. *)
Definition keyword_line (k : str) : str := k ++ LF.

(** The value of an option while it is read. *)
Definition reading (v : option str) : pval :=
  match v with
  | Some t => VList [t]
  | None => VNone
  end.

(** The state of [_read] in the section [general] of a parser without
    defaults, with the options [acc] read so far. *)
Definition in_general (acc : dict (option str)) (ea : list element)
  (on : option str) : read_state :=
  mk_read_state [] [("general", map (fun kv => (fst kv, reading (snd kv))) acc)]
    ea (Some (CurSection "general")) (Some "general") on 0 [].

(** The options of [acc] are among the elements of [ea]. *)
Definition covers (ea : list element) (acc : dict (option str)) : Prop :=
  forall k, existsb (element_eqb (EOption (Some "general") k)) ea = true ->
            In k (map fst acc).

(** What holds of an option read from lines without whitespace: a value is
    a first line without whitespace followed by empty lines, and key and
    value make a line that reads back. *)
Definition entry_ok (k : str) (v : pval) : Prop :=
  match v with
  | VNone => True
  | VStr _ => False
  | VList l =>
      exists v0 blanks,
        l = v0 :: blanks /\ Forall (fun b => b = []) blanks
        /\ nows k /\ contains delimiter k = false
        /\ opens_comment k = false
        /\ sect_header (k ++ "=" ++ v0) = None /\ nows v0
  end.

Definition dict_ok (err : list (nat * str)) (d : dict pval) : Prop :=
  NoDup (map fst d)
  /\ forall k v, In (k, v) d -> (err = [] -> k <> []) /\ entry_ok k v.

Definition sections_ok (st : read_state) : Prop :=
  forall s d, In (s, d) (rs_sections st) -> dict_ok (e st) d.

(** [optname] after the lines of [items] are read. *)
Definition optname_after (items : dict (option str)) (on : option str)
  : option str :=
  fold_left (fun _ kv => Some (fst kv)) items on.

(** No line feed in [s]. *)
Definition nolf (s : str) : Prop :=
  Forall (fun c => ascii_eqb c "010"%char = false) s.

(** The text that [write] makes of one option, without its line feed. *)
Definition body (kv : str * option str) : str :=
  fst kv ++ " " ++ replace_newline (str_of_value (snd kv)).

(** An option with a value that is not empty. *)
Definition valued (kv : str * option str) : Prop :=
  exists v, snd kv = Some v /\ v <> [].

(** [line], which ends in a line feed, is a line of [text]: it starts the
    text or follows a line feed. *)
Definition has_line (text line : str) : Prop :=
  exists before after,
    text = before ++ line ++ after
    /\ (before = [] \/ exists b, before = b ++ LF).

End ParSpec.

(** ** Validity masks of the exchanged variables ([LFP.get_mask]) *)

Module Mask.
Import Np.

(** [np.array([[1, 1]])] and [np.array([[1], [1]])]. *)
Definition conv_filt_horizontal : ndarray Z := mk_ndarray 1 2 [[1; 1]]%Z.
Definition conv_filt_vertical : ndarray Z := mk_ndarray 2 1 [[1]; [1]]%Z.

(** [LFP.get_mask], as a function of [self.grid.mask].  [None] stands for an
    exception raised by numpy. *)
Definition get_mask (grid_mask : ndarray bool) (long_var_name : str)
  : option (ndarray bool) :=
  if str_in long_var_name ["Qx"; "QxSGold"; "Qy"; "QySGold"] then
    if str_in long_var_name ["Qx"; "QxSGold"] then
      match vstack (map_array float_of_bool grid_mask)
                   (zeros 1 (ncols grid_mask)) with
      | Some mask => Some (astype_bool (convolve2d mask conv_filt_horizontal))
      | None => None
      end
    else if str_in long_var_name ["Qy"; "QySGold"] then
      match hstack (map_array float_of_bool grid_mask)
                   (zeros (nrows grid_mask) 1) with
      | Some mask => Some (astype_bool (convolve2d mask conv_filt_vertical))
      | None => None
      end
    else None
  else Some grid_mask.

(** The value of a grid cell, [False] outside the grid. *)
Definition cell (m : ndarray bool) (i j : nat) : bool :=
  default false (item m i j).

(** A one-cell grid whose only cell is valid. *)
Definition mask_1x1 : ndarray bool := mk_ndarray 1 1 [[true]].

(** A 2 x 3 grid mask used in the examples. *)
Definition mask_2x3 : ndarray bool :=
  mk_ndarray 2 3 [[true; false; false]; [false; false; true]].

End Mask.

(** ** The adapter ([LFP]) *)

Module Lfp.
Import Np Par Mask.

(** [datetime] and [timedelta], in microseconds. *)
Definition datetime : Type := Z.
Definition timedelta : Type := Z.

(** [td.days] and [td.seconds] of a normalised [timedelta]. *)
Definition td_days (td : timedelta) : Z := td / 86400000000.
Definition td_seconds (td : timedelta) : Z := (td mod 86400000000) / 1000000.

(** The address of an array in the interpreter's memory. *)
Definition loc : Type := nat.

(** What the adapter is handed as a time: a string, a [datetime], or an
    object of another type. *)
Inductive time_arg : Type :=
| ArgStr (s : str)
| ArgDatetime (d : datetime)
| ArgOther.

(** A record handed to the logger. *)
Inductive log_record : Type :=
| LogDebug (msg : str)
| LogInfo (msg : str)
| LogUpdated (t : datetime) (iterations : nat).

(** Python floats ([num]), the elements of the exchanged arrays ([elt]) and
    the library calls on them.  Floating-point arithmetic is left to the
    instance; the adapter only converts, compares and tests. *)
Class PyLib (num elt : Type) : Type := {
  (** [x == y] on numbers *)
  num_eqb : num -> num -> bool;
  (** the literal [0.] *)
  float_zero : num;
  (** [float(s)] *)
  float_of_str : str -> option num;
  (** [timedelta(seconds=x)] *)
  timedelta_of_seconds : num -> timedelta;
  (** [td.total_seconds()] *)
  total_seconds : timedelta -> num;
  (** [datetime.strptime(s, fmt)], [None] for [ValueError] *)
  strptime : str -> str -> option datetime;
  (** [np.isnan], [np.nan], the value [0.] stored into an array *)
  isnan : elt -> bool;
  nan : elt;
  zero : elt;
  (** [x.astype(dtype)] on one element *)
  astype : str -> elt -> elt
}.

(** The engine behind [bmi.wrapper.BMIWrapper].  An engine variable is an
    array in memory that [get_var] gives access to; a native step may change
    the engine and its arrays. *)
Class BMIWrapper (engine num elt : Type) : Type := {
  bmi_update : engine -> gmap loc (ndarray elt) -> engine * gmap loc (ndarray elt);
  bmi_get_start_time : engine -> num;
  bmi_get_current_time : engine -> num;
  bmi_get_end_time : engine -> num;
  bmi_get_time_step : engine -> num;
  (** [None] when the engine does not know the variable *)
  bmi_get_var : engine -> str -> option loc
}.

(** The helpers of [glofrim.glofrim_lib] and of the base class [GBmi] the
    adapter calls; their code is not part of this module. *)
Class Glib : Type := {
  (** [glib.configcheck(self, logger)], given [self._config] if it is set *)
  configcheck : option config -> outcome unit;
  (** [glib.configget(config, 'section:option')] *)
  configget : config -> str -> outcome (option str);
  (** [glib.configset(config, 'section:option', value)] *)
  configset : config -> str -> str -> outcome config;
  (** [GBmi.get_var_type(long_var_name)] *)
  get_var_type : str -> str
}.

Section Adapter.
Context {engine num elt : Type}.
Context `{!PyLib num elt} `{!BMIWrapper engine num elt} `{!Glib}.

(** The adapter object after [initialize_config], with the interpreter's
    arrays ([arrays]) and what was logged ([logged]).  [grid] is the mask of
    [self.grid], [None] while [self.grid] is [None]; [_config] is [None]
    while the attribute is not set. *)
Record LFP : Type := mk_LFP {
  _bmi : engine;
  arrays : gmap loc (ndarray elt);
  initialized : bool;
  grid : option (ndarray bool);
  _config : option config;
  _datefmt : str;
  _dt : timedelta;
  _startTime : datetime;
  _endTime : datetime;
  _t : datetime;
  logged : list log_record
}.

Definition set_engine (b : engine) (a : gmap loc (ndarray elt)) (s : LFP) : LFP :=
  mk_LFP b a (initialized s) (grid s) (_config s) (_datefmt s) (_dt s)
    (_startTime s) (_endTime s) (_t s) (logged s).
Definition set_arrays (a : gmap loc (ndarray elt)) (s : LFP) : LFP :=
  mk_LFP (_bmi s) a (initialized s) (grid s) (_config s) (_datefmt s) (_dt s)
    (_startTime s) (_endTime s) (_t s) (logged s).
Definition set_config (c : config) (s : LFP) : LFP :=
  mk_LFP (_bmi s) (arrays s) (initialized s) (grid s) (Some c) (_datefmt s)
    (_dt s) (_startTime s) (_endTime s) (_t s) (logged s).
Definition set_dt (d : timedelta) (s : LFP) : LFP :=
  mk_LFP (_bmi s) (arrays s) (initialized s) (grid s) (_config s) (_datefmt s)
    d (_startTime s) (_endTime s) (_t s) (logged s).
Definition set_startTime (d : datetime) (s : LFP) : LFP :=
  mk_LFP (_bmi s) (arrays s) (initialized s) (grid s) (_config s) (_datefmt s)
    (_dt s) d (_endTime s) (_t s) (logged s).
Definition set_endTime (d : datetime) (s : LFP) : LFP :=
  mk_LFP (_bmi s) (arrays s) (initialized s) (grid s) (_config s) (_datefmt s)
    (_dt s) (_startTime s) d (_t s) (logged s).
Definition set_t (d : datetime) (s : LFP) : LFP :=
  mk_LFP (_bmi s) (arrays s) (initialized s) (grid s) (_config s) (_datefmt s)
    (_dt s) (_startTime s) (_endTime s) d (logged s).
Definition log (r : log_record) (s : LFP) : LFP :=
  mk_LFP (_bmi s) (arrays s) (initialized s) (grid s) (_config s) (_datefmt s)
    (_dt s) (_startTime s) (_endTime s) (_t s) (logged s ++ [r]).

(** A method: from the state before to an outcome and the state after. *)
Definition M (A : Type) : Type := LFP -> outcome A * LFP.

Definition ret {A} (a : A) : M A := fun s => (Ok a, s).
Definition raise {A} (ex : exn) : M A := fun s => (Raise ex, s).
Definition bind {A B} (m : M A) (k : A -> M B) : M B :=
  fun s =>
    match m s with
    | (Ok a, s') => k a s'
    | (Raise ex, s') => (Raise ex, s')
    | (OutOfFuel, s') => (OutOfFuel, s')
    end.
Definition lift {A} (o : outcome A) : M A := fun s => (o, s).
Definition gets {A} (f : LFP -> A) : M A := fun s => (Ok (f s), s).
Definition modify (f : LFP -> LFP) : M unit := fun s => (Ok tt, f s).

Notation "x <- m ;; k" := (bind m (fun x => k))
  (at level 100, m at level 50, right associativity).
Notation "m ;;; k" := (bind m (fun _ => k))
  (at level 100, k at level 200, right associativity).

(** *** Attributes *)

(** The name under which an attribute is looked up: the header [general]
    and the name, or, when the name holds a colon, the header and the second
    of the pieces [attribute_name.split(':')]. *)
Definition attribute_key (attribute_name : str) : str :=
  if negb (contains ":"%char attribute_name)
  then "general:" ++ attribute_name
  else "general:" ++ default [] (split_on ":"%char attribute_name !! 1%nat).

Definition the_config : M config :=
  fun s =>
    match _config s with
    | Some c => (Ok c, s)
    | None => (Raise AttributeError, s)
    end.

Definition get_attribute_value (attribute_name : str) : M (option str) :=
  c0 <- gets _config ;;
  lift (configcheck c0) ;;;
  let attribute_name := attribute_key attribute_name in
  modify (log (LogDebug ("get_attribute_value: " ++ attribute_name))) ;;;
  c <- the_config ;;
  lift (configget c attribute_name).

Definition set_attribute_value (attribute_name : str) (attribute_value : str)
  : M unit :=
  c0 <- gets _config ;;
  lift (configcheck c0) ;;;
  let attribute_name := attribute_key attribute_name in
  modify (log (LogDebug ("set_attribute_value: " ++ attribute_name
                          ++ " -> " ++ attribute_value))) ;;;
  c <- the_config ;;
  c' <- lift (configset c attribute_name attribute_value) ;;
  modify (set_config c').

(** *** Model time *)

(** [datetime.strptime(value, self._datefmt)] on an attribute value. *)
Definition parse_date (value : option str) : M datetime :=
  fmt <- gets _datefmt ;;
  match value with
  | None => raise TypeError
  | Some v =>
      match strptime v fmt with
      | Some d => ret d
      | None => raise (ValueError "time data does not match format")
      end
  end.

Definition get_start_time : M datetime :=
  refdate <- get_attribute_value "refdate" ;;
  refdate <- parse_date refdate ;;
  is_init <- gets initialized ;;
  b <- gets _bmi ;;
  let TStart := if is_init then bmi_get_start_time b else float_zero in
  let startTime := (refdate + timedelta_of_seconds TStart)%Z in
  modify (set_startTime startTime) ;;;
  gets _startTime.

Definition get_current_time : M datetime :=
  is_init <- gets initialized ;;
  if is_init then
    b <- gets _bmi ;;
    let curtime := timedelta_of_seconds (bmi_get_current_time b) in
    start <- gets _startTime ;;
    ret (start + curtime)%Z
  else get_start_time.

(** [float(value)] on an attribute value. *)
Definition to_float (value : option str) : M num :=
  match value with
  | None => raise TypeError
  | Some v =>
      match float_of_str v with
      | Some x => ret x
      | None => raise (ValueError "could not convert string to float")
      end
  end.

Definition get_end_time : M datetime :=
  is_init <- gets initialized ;;
  TStop <- (if is_init then b <- gets _bmi ;; ret (bmi_get_end_time b)
            else v <- get_attribute_value "sim_time" ;; to_float v) ;;
  start <- get_start_time ;;
  let endTime := (start + timedelta_of_seconds TStop)%Z in
  modify (set_endTime endTime) ;;;
  gets _endTime.

Definition get_time_step : M timedelta :=
  is_init <- gets initialized ;;
  dt <- (if is_init then b <- gets _bmi ;; ret (bmi_get_time_step b)
         else v <- get_attribute_value "initial_tstep" ;; to_float v) ;;
  modify (set_dt (timedelta_of_seconds dt)) ;;;
  gets _dt.

(** One turn of [self._bmi.update()]. *)
Definition native_step (s : LFP) : LFP :=
  let '(b, a) := bmi_update (_bmi s) (arrays s) in set_engine b a s.

(** The loop of [update]: [while self._t < t_next], with [i] the number of
    turns made. *)
Fixpoint update_loop (fuel : nat) (t_next : datetime) (i : nat) : M nat :=
  fun s =>
    if (_t s <? t_next)%Z then
      match fuel with
      | O => (OutOfFuel, s)
      | S fuel' =>
          (modify native_step ;;;
           now <- get_current_time ;;
           modify (set_t now) ;;;
           update_loop fuel' t_next (S i)) s
      end
    else (Ok i, s).

Definition update (fuel : nat) (dt : option num) : M unit :=
  t <- gets _t ;;
  endTime <- gets _endTime ;;
  if (endTime <=? t)%Z
  then raise (Exception "endTime already reached, model not updated")
  else
    model_dt <- gets _dt ;;
    let dt :=
      match dt with
      | Some d =>
          if negb (num_eqb d (total_seconds model_dt))
          then timedelta_of_seconds d
          else model_dt
      | None => model_dt
      end in
    now <- get_current_time ;;
    let t_next := (now + dt)%Z in
    i <- update_loop fuel t_next 0 ;;
    t <- gets _t ;;
    modify (log (LogUpdated t i)).

(** The loop of [update_until]: [while self._t < t: self.update(dt=dt)].
    [fuel] bounds the turns of this loop and of each loop inside. *)
Fixpoint update_until_loop (fuel n : nat) (t : datetime) (dt : option num)
  : M unit :=
  fun s =>
    if (_t s <? t)%Z then
      match n with
      | O => (OutOfFuel, s)
      | S n' => (update fuel dt ;;; update_until_loop fuel n' t dt) s
      end
    else (Ok tt, s).

Definition update_until (fuel : nat) (t : datetime) (dt : option num)
  : M unit :=
  now <- gets _t ;;
  endTime <- gets _endTime ;;
  if (t <? now)%Z || (endTime <? t)%Z
  then raise (Exception
    "wrong time input: smaller than model time or larger than endTime")
  else update_until_loop fuel fuel t dt.

(** ['{:.0f}'.format(n)] for an integer that a float holds exactly. *)
Definition format_0f (n : Z) : str :=
  list_ascii_of_string (NilZero.string_of_int (Z.to_int n)).

Definition dquote : str := ["034"%char].

Definition set_end_time (end_time : time_arg) : M unit :=
  fmt <- gets _datefmt ;;
  end_time <-
    match end_time with
    | ArgStr s =>
        match strptime s fmt with
        | Some d => ret (ArgDatetime d)
        | None =>
            raise (ValueError ("wrong end_date format, use " ++ dquote
                                 ++ "yyyy-mm-dd" ++ dquote))
        end
    | other => ret other
    end ;;
  match end_time with
  | ArgDatetime end_time =>
      refdate <- get_start_time ;;
      if negb (refdate <? end_time)%Z then raise AssertionError
      else
        let TStop :=
          (td_seconds (end_time - refdate)
           + td_days (end_time - refdate) * 86400)%Z in
        let TStop := format_0f TStop in
        modify (set_endTime end_time) ;;;
        set_attribute_value "sim_time" TStop
  | _ => raise (ValueError "wrong end_date datatype")
  end.

(** *** Variables *)

Definition LFP_get_mask (long_var_name : str) : M (ndarray bool) :=
  g <- gets grid ;;
  match g with
  | None => raise AttributeError
  | Some grid_mask =>
      match get_mask grid_mask long_var_name with
      | Some mask => ret mask
      | None => raise (ValueError "array dimensions do not match")
      end
  end.

Definition shape_eqb {A B} (a : ndarray A) (b : ndarray B) : bool :=
  (nrows a =? nrows b)%nat && (ncols a =? ncols b)%nat.

(** The array [self._bmi.get_var(long_var_name)] and where it lives. *)
Definition engine_var (long_var_name : str) : M (loc * ndarray elt) :=
  b <- gets _bmi ;;
  a <- gets arrays ;;
  match bmi_get_var b long_var_name with
  | None => raise (Exception "unknown variable")
  | Some l =>
      match a !! l with
      | Some v => ret (l, v)
      | None => raise (Exception "unknown variable")
      end
  end.

(** [get_value]: a copy of the engine's array with [nan] outside the mask.
    Indexing with a mask of another shape raises [IndexError]. *)
Definition get_value (long_var_name : str) : M (ndarray elt) :=
  lv <- engine_var long_var_name ;;
  let var := snd lv in
  mask <- LFP_get_mask long_var_name ;;
  if shape_eqb mask var
  then ret (zip_array (fun (m : bool) x => if m then x else nan) mask var)
  else raise IndexError.

(** [set_value].  [src] is the address of the caller's array, which the
    first assignment changes in place; [np.where(...).astype(...)] builds a
    new array, which the last assignment copies into the engine's array.
    Arrays of differing shapes raise (numpy's broadcasting of such arrays is
    left out). *)
Definition set_value (long_var_name : str) (src : loc) (fill_value : elt)
  : M unit :=
  mask <- LFP_get_mask long_var_name ;;
  a <- gets arrays ;;
  match a !! src with
  | None => raise (Exception "no such array")
  | Some src_array =>
      if negb (shape_eqb mask src_array) then raise IndexError
      else
        let src_array :=
          zip_array (fun (m : bool) x => if m && isnan x then zero else x)
            mask src_array in
        modify (set_arrays (<[src := src_array]> a)) ;;;
        let new :=
          map_array (fun x => astype (get_var_type long_var_name)
                                (if isnan x then fill_value else x))
            src_array in
        lv <- engine_var long_var_name ;;
        if negb (shape_eqb (snd lv) new)
        then raise (ValueError "could not broadcast input array")
        else
          a <- gets arrays ;;
          modify (set_arrays (<[fst lv := new]> a))
  end.

End Adapter.

Arguments LFP : clear implicits.

Notation "x <- m ;; k" := (bind m (fun x => k))
  (at level 100, m at level 50, right associativity).
Notation "m ;;; k" := (bind m (fun _ => k))
  (at level 100, k at level 200, right associativity).

End Lfp.

(** ** Notions used to state the properties of the adapter *)

Module LfpSpec.
Import Np Par Mask Lfp.

Section Notions.
Context {engine num elt : Type}.
Context `{!PyLib num elt} `{!BMIWrapper engine num elt} `{!Glib}.

(** One turn of the loop of [update] on an initialized model: a native step,
    then [self._t] refreshed from the engine. *)
Definition advance (s : LFP engine elt) : LFP engine elt :=
  let s' := native_step s in
  set_t (_startTime s' + timedelta_of_seconds (bmi_get_current_time (_bmi s')))%Z s'.

(** The state after [n] turns. *)
Definition after (n : nat) (s : LFP engine elt) : LFP engine elt :=
  Nat.iter n advance s.

(** [startTime <= currentTime <= endTime]. *)
Definition time_bounds (s : LFP engine elt) : Prop :=
  (_startTime s <= _t s /\ _t s <= _endTime s)%Z.

(** Every native step leaves the engine's clock, counted from [start],
    between [start] and [stop]. *)
Definition engine_stays_within (start stop : datetime) : Prop :=
  forall (b : engine) (a : gmap loc (ndarray elt)),
    (start <= start + timedelta_of_seconds
                        (bmi_get_current_time (fst (bmi_update b a)))
     /\ start + timedelta_of_seconds
                  (bmi_get_current_time (fst (bmi_update b a))) <= stop)%Z.

(** An initialized model with start time [t0], end time [t1] and its current
    time between them. *)
Definition running (t0 t1 : datetime) (s : LFP engine elt) : Prop :=
  initialized s = true /\ _startTime s = t0 /\ _endTime s = t1
  /\ (t0 <= _t s <= t1)%Z.

(** What [set_value] leaves in the caller's array and what it builds for the
    engine. *)
Definition sanitized_src (mask : ndarray bool) (src_array : ndarray elt)
  : ndarray elt :=
  zip_array (fun (m : bool) x => if m && isnan x then zero else x)
    mask src_array.

Definition cast_src (name : str) (fill_value : elt) (a : ndarray elt)
  : ndarray elt :=
  map_array (fun x => astype (get_var_type name)
                        (if isnan x then fill_value else x)) a.

(** The text [set_end_time] stores as [sim_time]: the decimal digits of the
    whole seconds from [start] to [end_time]. *)
Definition sim_time_text (start end_time : datetime) : str :=
  format_0f ((end_time - start) / 1000000).

End Notions.

Arguments advance : simpl never.
Arguments after : simpl never.

End LfpSpec.

(** ** Sample instances and inputs *)

(** Modelled from the spec: [glofrim_lib.configcheck], [configget] and
    [configset] are not part of this module's source.  Following the
    attribute layer of the specification, access before a configuration is
    loaded raises an error; a name [section:option] is looked up in that
    section of the parser and then in its defaults; a value is stored in
    that section as the string it is given. *)
Module GlibModel.
Import Par.

Definition model_configcheck (c : option config) : outcome unit :=
  match c with
  | Some _ => Ok tt
  | None => Raise (GlibError "config not initialized")
  end.

Definition model_configget (c : config) (name : str) : outcome (option str) :=
  match split_on ":"%char name with
  | [section; option] =>
      match dict_get (cfg_sections c) section with
      | Some d =>
          match dict_get d option with
          | Some v => Ok v
          | None =>
              match dict_get (cfg_defaults c) option with
              | Some v => Ok v
              | None => Raise (KeyError option)
              end
          end
      | None => Raise (KeyError section)
      end
  | _ => Raise (GlibError "attribute name is not section:option")
  end.

Definition model_configset (c : config) (name value : str) : outcome config :=
  match split_on ":"%char name with
  | [section; option] =>
      let d := default [] (dict_get (cfg_sections c) section) in
      Ok (mk_config (cfg_defaults c)
            (dict_set (cfg_sections c) section (dict_set d option (Some value))))
  | _ => Raise (GlibError "attribute name is not section:option")
  end.

#[export] Instance model_glib : Lfp.Glib := {|
  Lfp.configcheck := model_configcheck;
  Lfp.configget := model_configget;
  Lfp.configset := model_configset;
  Lfp.get_var_type := fun _ => "float64"
|}.

End GlibModel.

Module Examples.
Import Np Par ParSpec Mask Lfp LfpSpec GlibModel.

(** A parameter file with a comment, extra tokens and an empty line. *)
Definition par_text : list str :=
  ["DEMfile dem.asc" ++ LF; "# resolution in metres" ++ LF; LF;
   "sim_time    100 seconds" ++ LF; "initial_tstep 10" ++ LF].

Definition par_record : config :=
  mk_config []
    [("general", [("DEMfile", Some "dem.asc"); ("sim_time", Some "100");
                  ("initial_tstep", Some "10")])].

(** A parameter file with a keyword that takes no value. *)
Definition keyword_text : list str := ["SGC_enable" ++ LF].

Definition keyword_record : config :=
  mk_config [] [("general", [("SGC_enable", None)])].

Definition keyword_record_again : config :=
  mk_config [] [("general", [("SGC_enable", Some "None")])].

(** A parameter file with a key in square brackets. *)
Definition bracket_text : list str :=
  ["a 1" ++ LF; "[x] 2" ++ LF; "a 3" ++ LF].

Definition bracket_record : config :=
  mk_config [] [("general", [("a", Some "1")]); ("x", [("a", Some "3")])].

(** The defaults the adapter gives its parser, and a file read with them. *)
Definition adapter_defaults : dict (option str) :=
  [("refdate", Some "2000-01-01")].

Definition defaults_text : list str := ["a 1" ++ LF].

Definition defaults_record : config :=
  mk_config [("refdate", Some "2000-01-01")] [("general", [("a", Some "1")])].

Definition defaults_record_again : config :=
  mk_config [("refdate", Some "2000-01-01")]
    [("general", [("refdate", Some "2000-01-01"); ("a", Some "1")])].

(** Array elements for the examples: a number or not-a-number. *)
Inductive sample : Type :=
| NaN
| Val (z : Z).

Definition sample_isnan (x : sample) : bool :=
  match x with NaN => true | Val _ => false end.

(** Floats for the examples are exact rationals.  [timedelta(seconds=q)]:
    the nearest whole number of microseconds, ties to even. *)
Definition microseconds_of (q : QArith_base.Q) : Z :=
  let n := (QArith_base.Qnum q * 1000000)%Z in
  let d := Z.pos (QArith_base.Qden q) in
  let k := (n / d)%Z in
  let r := (n mod d)%Z in
  if (2 * r <? d)%Z then k
  else if (d <? 2 * r)%Z then (k + 1)%Z
  else if Z.even k then k else (k + 1)%Z.

Definition seconds_of (td : Z) : QArith_base.Q := QArith_base.Qmake td 1000000.

Definition digit_value (c : ascii) : option Z :=
  let n := nat_of_ascii c in
  if (48 <=? n)%nat && (n <=? 57)%nat then Some (Z.of_nat (n - 48)) else None.

Fixpoint number_from (acc : Z) (s : str) : option Z :=
  match s with
  | [] => Some acc
  | c :: s' =>
      match digit_value c with
      | Some d => number_from (10 * acc + d)%Z s'
      | None => None
      end
  end.

Definition number (s : str) : option Z :=
  match s with
  | [] => None
  | _ => number_from 0%Z s
  end.

Definition is_leap (y : Z) : bool :=
  (y mod 4 =? 0)%Z && (negb (y mod 100 =? 0)%Z || (y mod 400 =? 0)%Z).

Definition days_in_month (y m : Z) : Z :=
  if (m =? 2)%Z then (if is_leap y then 29 else 28)%Z
  else if (m =? 4)%Z || (m =? 6)%Z || (m =? 9)%Z || (m =? 11)%Z then 30%Z
  else 31%Z.

(** Days from 1970-01-01 to the civil date [y-m-d]. *)
Definition days_from_civil (y m d : Z) : Z :=
  let y := (if (m <=? 2)%Z then y - 1 else y)%Z in
  let era := (y / 400)%Z in
  let yoe := (y - era * 400)%Z in
  let mp := (if (2 <? m)%Z then m - 3 else m + 9)%Z in
  let doy := ((153 * mp + 2) / 5 + d - 1)%Z in
  let doe := (yoe * 365 + yoe / 4 - yoe / 100 + doy)%Z in
  (era * 146097 + doe - 719468)%Z.

(** [datetime.strptime(s, '%Y-%m-%d')], in microseconds from 1970-01-01. *)
Definition strptime_ymd (s fmt : str) : option datetime :=
  if str_eqb fmt "%Y-%m-%d" then
    match split_on "-"%char s with
    | [ys; ms; ds] =>
        match number ys, number ms, number ds with
        | Some y, Some m, Some d =>
            if (length ys =? 4)%nat && (length ms <=? 2)%nat
               && (length ds <=? 2)%nat
               && (1 <=? y)%Z && (1 <=? m)%Z && (m <=? 12)%Z
               && (1 <=? d)%Z && (d <=? days_in_month y m)%Z
            then Some (days_from_civil y m d * 86400000000)%Z
            else None
        | _, _, _ => None
        end
    | _ => None
    end
  else None.

(** A sample library: numbers are rationals, [float] reads strings of
    decimal digits only, a cast leaves an element as it is. *)
#[export] Instance sample_pylib : PyLib QArith_base.Q sample := {|
  num_eqb := QArith_base.Qeq_bool;
  float_zero := QArith_base.inject_Z 0;
  float_of_str := fun s => option_map QArith_base.inject_Z (number s);
  timedelta_of_seconds := microseconds_of;
  total_seconds := seconds_of;
  strptime := strptime_ymd;
  isnan := sample_isnan;
  nan := NaN;
  zero := Val 0;
  astype := fun _ x => x
|}.

(** An engine that is a clock, in whole seconds: a native step adds [tick]
    seconds and never leaves the range from 0 to [stop].  Its one variable,
    [H], lives at address 0. *)
#[export] Instance clamped_clock (tick stop : Z)
  : BMIWrapper Z QArith_base.Q sample := {|
  bmi_update := fun clock a => (Z.max 0 (Z.min (clock + tick) stop), a);
  bmi_get_start_time := fun _ => QArith_base.inject_Z 0;
  bmi_get_current_time := fun clock => QArith_base.inject_Z clock;
  bmi_get_end_time := fun _ => QArith_base.inject_Z stop;
  bmi_get_time_step := fun _ => QArith_base.inject_Z tick;
  bmi_get_var := fun _ name => if str_eqb name "H" then Some 0%nat else None
|}.

(** An engine that is a clock which does not stop at [stop]. *)
Definition free_clock (tick stop : Z) : BMIWrapper Z QArith_base.Q sample := {|
  bmi_update := fun clock a => ((clock + tick)%Z, a);
  bmi_get_start_time := fun _ => QArith_base.inject_Z 0;
  bmi_get_current_time := fun clock => QArith_base.inject_Z clock;
  bmi_get_end_time := fun _ => QArith_base.inject_Z stop;
  bmi_get_time_step := fun _ => QArith_base.inject_Z tick;
  bmi_get_var := fun _ name => if str_eqb name "H" then Some 0%nat else None
|}.

(** 2000-01-01, in microseconds from 1970-01-01. *)
Definition t2000 : datetime := 946684800000000%Z.

Definition seconds (n : Z) : timedelta := (n * 1000000)%Z.

Definition sample_config : config :=
  mk_config [("refdate", Some "2000-01-01")]
    [("general", [("DEMfile", Some "dem.asc"); ("sim_time", Some "100");
                  ("initial_tstep", Some "10")])].

(** The engine's array [H] over the 2 x 3 grid and a caller's array. *)
Definition H_array : ndarray sample :=
  mk_ndarray 2 3 [[Val 1; Val 2; Val 3]; [Val 4; Val 5; Val 6]].
Definition caller_array : ndarray sample :=
  mk_ndarray 2 3 [[NaN; Val 7; NaN]; [Val 8; NaN; NaN]].
Definition caller_array_numbers : ndarray sample :=
  mk_ndarray 2 3 [[Val 10; Val 20; Val 30]; [Val 40; Val 50; Val 60]].

(** An initialized adapter at [clock] seconds past 2000-01-01, with a run of
    100 seconds and a model time step of 10 seconds. *)
Definition sample_model (clock : Z) : LFP Z sample :=
  mk_LFP clock
    (<[2%nat := caller_array_numbers]>
       (<[1%nat := caller_array]> (<[0%nat := H_array]> ∅)))
    true (Some mask_2x3) (Some sample_config) "%Y-%m-%d"
    (seconds 10) t2000 (t2000 + seconds 100)%Z (t2000 + seconds clock)%Z [].

(** The model after [get_start_time] has read the reference date. *)
Definition sample_model_read : LFP Z sample :=
  log (LogDebug "get_attribute_value: general:refdate") (sample_model 0).

(** The sample configuration with a run of one day. *)
Definition sample_config_day : config :=
  mk_config [("refdate", Some "2000-01-01")]
    [("general", [("DEMfile", Some "dem.asc"); ("sim_time", Some "86400");
                  ("initial_tstep", Some "10")])].

End Examples.

(** ** Further notions on model time *)

Module TimeSpec.
Import Np Par Mask Lfp LfpSpec.

Section Notions.
Context {engine num elt : Type}.
Context `{!PyLib num elt} `{!BMIWrapper engine num elt} `{!Glib}.

(** Every native step moves the engine's clock on by at least [d]
    microseconds. *)
Definition engine_progress (d : timedelta) : Prop :=
  forall (b : engine) (a : gmap loc (ndarray elt)),
    (timedelta_of_seconds (bmi_get_current_time b) + d
     <= timedelta_of_seconds (bmi_get_current_time (fst (bmi_update b a))))%Z.

(** The cached current time is the engine's. *)
Definition synced (s : LFP engine elt) : Prop :=
  _t s = (_startTime s + timedelta_of_seconds (bmi_get_current_time (_bmi s)))%Z.

(** The step duration [update(dt)] works with. *)
Definition step_duration (dt : option num) (s : LFP engine elt) : timedelta :=
  match dt with
  | Some d => if num_eqb d (total_seconds (_dt s))
              then _dt s else timedelta_of_seconds d
  | None => _dt s
  end.

End Notions.

End TimeSpec.

(** ** Further sample instances *)

Module MoreExamples.
Import Np Par ParSpec Mask Lfp LfpSpec TimeSpec GlibModel Examples.

(** A clock engine that also hands out the array at address 0 as the flux
    [Qx]. *)
Definition flux_clock (tick stop : Z) : BMIWrapper Z QArith_base.Q sample := {|
  bmi_update := fun clock a => ((clock + tick)%Z, a);
  bmi_get_start_time := fun _ => QArith_base.inject_Z 0;
  bmi_get_current_time := fun clock => QArith_base.inject_Z clock;
  bmi_get_end_time := fun _ => QArith_base.inject_Z stop;
  bmi_get_time_step := fun _ => QArith_base.inject_Z tick;
  bmi_get_var := fun _ name =>
    if str_eqb name "H" || str_eqb name "Qx" then Some 0%nat else None
|}.

End MoreExamples.

(** ** Further notions on the parser *)

Module ParseSpec.
Import Par ParSpec.

(** What a line of a parameter file is read as. *)
Inductive line_kind : Type :=
| Blank
| Comment
| Item (kv : str * option str).

(** A first token that is taken as a key: it holds no delimiter and opens
    neither a comment nor a section header. *)
Definition plain_key (k : str) : bool :=
  negb (contains delimiter k) && negb (opens_comment k)
  && negb (startswith "[" k).

(** The kind of a line, by its tokens: no token, a first token that opens
    a comment, or a plain key with the second token, if any, as value. *)
Definition classify (line : str) : option line_kind :=
  match split line with
  | [] => Some Blank
  | t :: rest =>
      if opens_comment t then Some Comment
      else if plain_key t then Some (Item (t, head rest))
      else None
  end.

(** The keys and values of the item lines, in their order. *)
Fixpoint kind_items (kinds : list line_kind) : dict (option str) :=
  match kinds with
  | [] => []
  | Item kv :: kinds' => kv :: kind_items kinds'
  | _ :: kinds' => kind_items kinds'
  end.

(** The line [par2ini] makes of a line of the file. *)
Definition ini_line (line : str) : str := join "=" (take 2 (split line)).

(** The dictionary [d] of a section being read holds the options [acc]:
    the same keys in the same order, a key without value as [None], a value
    as its text followed by the empty lines read after it. *)
Definition holds (d : dict pval) (acc : dict (option str)) : Prop :=
  Forall2 (fun en kv =>
             fst en = fst kv
             /\ match snd kv with
                | None => snd en = VNone
                | Some v =>
                    nows v
                    /\ exists blanks, snd en = VList (v :: blanks)
                                      /\ Forall (fun b => b = []) blanks
                end) d acc.

(** The state of [_read], in a parser without defaults, after lines that
    gave the options [acc] of the section [general]. *)
Definition reads_as (st : read_state) (acc : dict (option str)) : Prop :=
  rs_defaults st = [] /\ e st = []
  /\ cursect st = Some (CurSection "general")
  /\ sectname st = Some "general"
  /\ (exists d, rs_sections st = [("general", d)] /\ holds d acc)
  /\ (forall k, existsb (element_eqb (EOption (Some "general") k))
                  (elements_added st) = true <-> In k (map fst acc))
  /\ match optname st with
     | Some k => In k (map fst acc)
     | None => True
     end.

End ParseSpec.

(** ** Further sample files *)

Module ParExamples.
Import Par ParSpec ParseSpec.

(** A parameter file with comments, empty lines, a keyword and tokens
    after the value. *)
Definition mixed_text : list str :=
  ["! model domain" ++ LF; "DEMfile dem.asc" ++ LF; LF;
   "sim_time 100 ! seconds" ++ LF; "SGC_enable" ++ LF; "   " ++ LF;
   "#fpfric 0.06" ++ LF].

Definition mixed_kinds : list line_kind :=
  [Comment; Item ("DEMfile", Some "dem.asc"); Blank;
   Item ("sim_time", Some "100"); Item ("SGC_enable", None); Blank; Comment].

(** A parameter file that sets [sim_time] on its first and third line. *)
Definition twice_head : list str := ["sim_time 100" ++ LF; "fpfric 0.06" ++ LF].
Definition twice_line : str := "sim_time 200" ++ LF.
Definition twice_tail : list str := ["initial_tstep 10" ++ LF].

End ParExamples.

(** ** [ndarray.flat] *)

Module Flat.
Import Np.

(** [a.flat] as a list: the rows of the array one after the other. *)
Definition flat {A} (a : ndarray A) : list A := concat (data a).

(** [a.size]. *)
Definition size {A} (a : ndarray A) : nat := (nrows a * ncols a)%nat.

(** numpy's check of an index into [size] elements: a negative index counts
    from the end; [None] is [IndexError]. *)
Definition adjust_index (size : nat) (i : Z) : option nat :=
  let n := Z.of_nat size in
  if ((- n <=? i) && (i <? n))%Z
  then Some (Z.to_nat (if (i <? 0)%Z then i + n else i))
  else None.

(** The element that an index within [-size, size) stands for. *)
Definition position (size : nat) (i : Z) : nat :=
  Z.to_nat (i mod Z.of_nat size).

Definition in_range (size : nat) (i : Z) : Prop :=
  (- Z.of_nat size <= i < Z.of_nat size)%Z.

(** The rows of an array of shape [(h, w)] whose elements are [l]. *)
Fixpoint rows_of {A} (h w : nat) (l : list A) : list (list A) :=
  match h with
  | O => []
  | S h' => take w l :: rows_of h' w (drop w l)
  end.

(** The array [a] with the elements [l]. *)
Definition with_flat {A} (a : ndarray A) (l : list A) : ndarray A :=
  mk_ndarray (nrows a) (ncols a) (rows_of (nrows a) (ncols a) l).

(** [a.flat[inds]] for a list (or an array) of integers [inds], on the
    elements [l] of an array of [n] elements.  Slices and boolean indices
    are left out. *)
Fixpoint flat_get {A} (l : list A) (n : nat) (inds : list Z)
  : outcome (list A) :=
  match inds with
  | [] => Ok []
  | i :: inds' =>
      match adjust_index n i with
      | Some p =>
          match l !! p with
          | Some x =>
              match flat_get l n inds' with
              | Ok r => Ok (x :: r)
              | Raise ex => Raise ex
              | OutOfFuel => OutOfFuel
              end
          | None => Raise IndexError
          end
      | None => Raise IndexError
      end
  end.

(** The loop of [a.flat[inds] = vals]: the indices are served in their
    order, each with the next of the values, which start over when they are
    used up.  [k] counts the indices served. *)
Fixpoint flat_set_loop {A} (n : nat) (inds : list Z) (vals : list A)
  (k : nat) (l : list A) : outcome (list A) :=
  match inds with
  | [] => Ok l
  | i :: inds' =>
      match adjust_index n i, vals !! (k mod length vals)%nat with
      | Some p, Some v => flat_set_loop n inds' vals (S k) (<[p := v]> l)
      | _, _ => Raise IndexError
      end
  end.

(** [a.flat[inds] = vals], [vals] the elements of the value (one element
    for a scalar).  Nothing is assigned when the value has no element. *)
Definition flat_set {A} (a : ndarray A) (inds : list Z) (vals : list A)
  : outcome (ndarray A) :=
  match vals with
  | [] => Ok a
  | _ :: _ =>
      match flat_set_loop (size a) inds vals 0 (flat a) with
      | Ok l => Ok (with_flat a l)
      | Raise ex => Raise ex
      | OutOfFuel => OutOfFuel
      end
  end.

End Flat.

(** ** Further methods of the adapter *)

Module LfpMore.
Import Np Par Mask Lfp Flat.

(** [datetime.strftime]. *)
Class DateFormat : Type := {
  (** [d.strftime(fmt)] *)
  strftime : datetime -> str -> str
}.

Section Adapter.
Context {engine num elt : Type}.
Context `{!PyLib num elt} `{!BMIWrapper engine num elt} `{!Glib}.
Context `{!DateFormat}.

Local Abbreviation M := (@M engine elt).

Definition spinup : M unit := raise NotImplementedError.

(** The array [get_value] returns: the engine's array with [nan] where the
    mask is false. *)
Definition masked (mask : ndarray bool) (buf : ndarray elt) : ndarray elt :=
  zip_array (fun (m : bool) x => if m then x else nan) mask buf.

Definition get_value_at_indices (long_var_name : str) (inds : list Z)
  : M (list elt) :=
  val <- get_value long_var_name ;;
  lift (flat_get (flat val) (size val) inds).

(** [set_value_at_indices].  The array [val] that [get_value] returned is
    new; it is kept at an address that was free, where [set_value] finds
    it. *)
Definition set_value_at_indices (long_var_name : str) (inds : list Z)
  (src : list elt) : M unit :=
  val <- get_value long_var_name ;;
  val <- lift (flat_set val inds src) ;;
  a <- gets arrays ;;
  let l := fresh (dom a) in
  modify (set_arrays (<[l := val]> a)) ;;;
  set_value long_var_name l zero.

(** The start time that [get_start_time] works out from the date [d0]. *)
Definition start_from (d0 : datetime) (s : LFP engine elt) : datetime :=
  (d0 + timedelta_of_seconds
          (if initialized s then bmi_get_start_time (_bmi s)
           else float_zero))%Z.

(** The whole seconds from [start] to [end_time], which [set_end_time]
    stores as [sim_time]. *)
Definition run_seconds (start end_time : datetime) : Z :=
  ((end_time - start) / 1000000)%Z.

Definition set_start_time (start_time : time_arg) : M unit :=
  dr <-
    match start_time with
    | ArgDatetime d =>
        fmt <- gets _datefmt ;;
        ret (d, strftime d fmt)
    | ArgStr text =>
        fmt <- gets _datefmt ;;
        match strptime text fmt with
        | Some d => ret (d, text)
        | None =>
            raise (ValueError ("wrong date format, use " ++ dquote
                                 ++ "yyyy-mm-dd" ++ dquote))
        end
    | ArgOther => raise (ValueError "wrong start_date datatype")
    end ;;
  modify (set_startTime (fst dr)) ;;;
  modify (set_t (fst dr)) ;;;
  set_attribute_value "refdate" (snd dr).

End Adapter.

End LfpMore.

(** ** A sample [strftime] *)

Module DateExamples.
Import Par Lfp LfpMore Examples.

(** The civil date of a day counted from 1970-01-01. *)
Definition civil_from_days (z : Z) : Z * Z * Z :=
  let z := (z + 719468)%Z in
  let era := (z / 146097)%Z in
  let doe := (z - era * 146097)%Z in
  let yoe := ((doe - doe / 1460 + doe / 36524 - doe / 146096) / 365)%Z in
  let y := (yoe + era * 400)%Z in
  let doy := (doe - (365 * yoe + yoe / 4 - yoe / 100))%Z in
  let mp := ((5 * doy + 2) / 153)%Z in
  let d := (doy - (153 * mp + 2) / 5 + 1)%Z in
  let m := (if (mp <? 10)%Z then mp + 3 else mp - 9)%Z in
  ((if (m <=? 2)%Z then y + 1 else y)%Z, m, d).

(** The decimal digits of [n], with zeros before them up to [width]. *)
Definition padded (width : nat) (n : Z) : str :=
  let digits := format_0f n in
  repeat "0"%char (width - length digits) ++ digits.

(** [d.strftime('%Y-%m-%d')] for the years 1000 to 9999. *)
Definition strftime_ymd (d : datetime) (fmt : str) : str :=
  if str_eqb fmt "%Y-%m-%d" then
    let '(y, m, day) := civil_from_days (d / 86400000000) in
    padded 4 y ++ "-" ++ padded 2 m ++ "-" ++ padded 2 day
  else fmt.

#[export] Instance sample_dateformat : DateFormat := {|
  strftime := strftime_ymd
|}.

(** 2000-03-01. *)
Definition march : datetime := (t2000 + seconds (60 * 86400))%Z.

(** Noon of 2000-03-01. *)
Definition noon : datetime := (t2000 + seconds (60 * 86400 + 43200))%Z.

(** The sample configuration with the reference date 2000-03-01. *)
Definition sample_config_march : config :=
  mk_config [("refdate", Some "2000-01-01")]
    [("general", [("DEMfile", Some "dem.asc"); ("sim_time", Some "100");
                  ("initial_tstep", Some "10"); ("refdate", Some "2000-03-01")])].

(** An adapter that is not initialized, with the sample configuration. *)
Definition cold_model : LFP Z sample :=
  mk_LFP 0%Z ∅ false None (Some sample_config) "%Y-%m-%d"
    (seconds 10) t2000 (t2000 + seconds 100)%Z t2000 [].

(** 90.5 seconds past 2000-01-01. *)
Definition half_past_90 : datetime := (t2000 + 90500000)%Z.

(** The sample configuration with a run of 90 seconds. *)
Definition sample_config_90 : config :=
  mk_config [("refdate", Some "2000-01-01")]
    [("general", [("DEMfile", Some "dem.asc"); ("sim_time", Some "90");
                  ("initial_tstep", Some "10")])].

End DateExamples.

(** ** [initialize_model] *)

Module Lifecycle.
Import Np Par Mask Lfp.

(** What [initialize_model] calls outside this module. *)
Class Startup (engine elt : Type) : Type := {
  (** [glib.write_config(self, config, config_fn, logger)]: the name of the
      file written *)
  glib_write_config : LFP engine elt -> config -> str -> outcome str;
  (** [self._bmi.initialize(config_fn)] *)
  bmi_initialize :
    engine -> gmap loc (ndarray elt) -> str
    -> outcome (engine * gmap loc (ndarray elt))
}.

Section Adapter.
Context {engine num elt : Type}.
Context `{!PyLib num elt} `{!BMIWrapper engine num elt} `{!Glib}.
Context `{!Startup engine elt}.

(** The adapter with the attribute [_config_fn], [None] while it is not
    set. *)
Definition LFPf : Type := LFP engine elt * option str.

Definition Mf (A : Type) : Type := LFPf -> outcome A * LFPf.

(** A method that leaves [_config_fn] alone. *)
Definition on_lfp {A} (m : @M engine elt A) : Mf A :=
  fun sf =>
    let '(o, s') := m (fst sf) in (o, (s', snd sf)).

Definition bindf {A B} (m : Mf A) (k : A -> Mf B) : Mf B :=
  fun sf =>
    match m sf with
    | (Ok a, sf') => k a sf'
    | (Raise ex, sf') => (Raise ex, sf')
    | (OutOfFuel, sf') => (OutOfFuel, sf')
    end.

Definition set_initialized (s : LFP engine elt) : LFP engine elt :=
  mk_LFP (_bmi s) (arrays s) true (grid s) (_config s) (_datefmt s) (_dt s)
    (_startTime s) (_endTime s) (_t s) (logged s).

Definition write_config : Mf unit :=
  fun sf =>
    match snd sf with
    | None => (Raise AttributeError, sf)
    | Some config_fn =>
        match _config (fst sf) with
        | None => (Raise AttributeError, sf)
        | Some c =>
            match glib_write_config (fst sf) c config_fn with
            | Ok fn' => (Ok tt, (fst sf, Some fn'))
            | Raise ex => (Raise ex, sf)
            | OutOfFuel => (OutOfFuel, sf)
            end
        end
    end.

(** [self._bmi.initialize(self._config_fn)]. *)
Definition engine_initialize : Mf unit :=
  fun sf =>
    match snd sf with
    | None => (Raise AttributeError, sf)
    | Some config_fn =>
        match bmi_initialize (_bmi (fst sf)) (arrays (fst sf)) config_fn with
        | Ok ba => (Ok tt, (set_engine (fst ba) (snd ba) (fst sf), snd sf))
        | Raise ex => (Raise ex, sf)
        | OutOfFuel => (OutOfFuel, sf)
        end
    end.

Definition initialize_model : Mf unit :=
  fun sf =>
    match snd sf with
    | None =>
        (Raise (Warning "Run initialize_config before initialize_model"), sf)
    | Some _ =>
        bindf write_config (fun _ =>
        bindf engine_initialize (fun _ =>
        bindf (on_lfp (modify set_initialized)) (fun _ =>
        bindf (on_lfp (modify (log (LogInfo "Model initialized")))) (fun _ =>
        bindf (on_lfp get_time_step) (fun dt =>
        bindf (on_lfp (modify (set_dt dt))) (fun _ =>
        bindf (on_lfp get_start_time) (fun start =>
        bindf (on_lfp (modify (set_startTime start))) (fun _ =>
        bindf (on_lfp get_end_time) (fun stop =>
        bindf (on_lfp (modify (set_endTime stop))) (fun _ =>
        bindf (on_lfp (gets _startTime)) (fun start =>
        on_lfp (modify (set_t start))))))))))))) sf
    end.

End Adapter.

End Lifecycle.

(** ** A sample start-up *)

Module LifecycleExamples.
Import Np Par Lfp Lifecycle Examples.

(** The configuration is written under the name given; the engine starts
    its clock at 0 and leaves the arrays as they are. *)
#[export] Instance sample_startup : Startup Z sample := {|
  glib_write_config := fun _ _ fn => Ok fn;
  bmi_initialize := fun _ a _ => Ok (0%Z, a)
|}.

End LifecycleExamples.

(** * Properties *)

(** Running the first step of a method: a read of the state, a change of
    the state. *)
Ltac run_gets := unfold Lfp.bind at 1; unfold Lfp.gets at 1.
Ltac run_modify := unfold Lfp.bind at 1; unfold Lfp.modify at 1.
Tactic Notation "run_gets" "in" hyp(H) :=
  unfold Lfp.bind at 1 in H; unfold Lfp.gets at 1 in H.
Tactic Notation "run_modify" "in" hyp(H) :=
  unfold Lfp.bind at 1 in H; unfold Lfp.modify at 1 in H.

(** A reversed string is empty only if the string is. *)
Ltac rev_empty E :=
  apply (f_equal (@length ascii)) in E; rewrite length_rev in E;
  try discriminate E.

(** ** Array lemmas *)

Section NpFacts.
Import Np.

Lemma str_eqb_eq (s t : str) : str_eqb s t = true <-> s = t.
Proof.
  revert t; induction s as [|a s IH]; intros [|b t]; simpl; try easy.
  unfold ascii_eqb. rewrite andb_true_iff, Ascii.eqb_eq, IH.
  split; [intros [-> ->]; reflexivity | intros [= -> ->]; auto].
Qed.

Lemma str_eqb_refl (s : str) : str_eqb s s = true.
Proof. apply str_eqb_eq; reflexivity. Qed.

Lemma str_eqb_neq (s t : str) : str_eqb s t = false <-> s <> t.
Proof.
  rewrite <- str_eqb_eq. destruct (str_eqb s t); split; congruence.
Qed.

Lemma wfb_wf {A} (a : ndarray A) : wfb a = true <-> wf a.
Proof.
  unfold wfb, wf. rewrite andb_true_iff, Nat.eqb_eq, forallb_forall.
  rewrite List.Forall_forall.
  split; intros [H1 H2]; split; auto; intros r Hr.
  - apply Nat.eqb_eq; auto.
  - apply Nat.eqb_eq; auto.
Qed.

Lemma item_map_array {A B} (f : A -> B) (a : ndarray A) i j :
  item (map_array f a) i j = f <$> item a i j.
Proof.
  unfold item, map_array; simpl.
  rewrite list_lookup_fmap.
  destruct (data a !! i) as [r|]; simpl; [|reflexivity].
  apply list_lookup_fmap.
Qed.

Lemma item_Some_lt {A} (a : ndarray A) i j x :
  wf a -> item a i j = Some x -> (i < nrows a)%nat /\ (j < ncols a)%nat.
Proof.
  intros [Hl Hr] H. unfold item in H.
  destruct (data a !! i) as [r|] eqn:E; [|discriminate].
  split.
  - rewrite <- Hl. eapply lookup_lt_Some; eauto.
  - rewrite List.Forall_forall in Hr.
    rewrite <- (Hr r); [eapply lookup_lt_Some; eauto|].
    apply list_elem_of_In. eapply list_elem_of_lookup_2; eauto.
Qed.

Lemma item_lt_Some {A} (a : ndarray A) i j :
  wf a -> (i < nrows a)%nat -> (j < ncols a)%nat -> is_Some (item a i j).
Proof.
  intros [Hl Hr] Hi Hj. unfold item.
  destruct (lookup_lt_is_Some_2 (data a) i) as [r E]; [lia|].
  rewrite E. apply lookup_lt_is_Some_2.
  rewrite List.Forall_forall in Hr. rewrite (Hr r); [lia|].
  apply list_elem_of_In. eapply list_elem_of_lookup_2; eauto.
Qed.

Lemma item_tabulate {A} (f : nat -> nat -> A) h w i j :
  (i < h)%nat -> (j < w)%nat ->
  item (mk_ndarray h w (map (fun i => map (fun j => f i j) (seq 0 w)) (seq 0 h)))
       i j = Some (f i j).
Proof.
  intros Hi Hj. unfold item; simpl.
  rewrite list_lookup_fmap, lookup_seq_lt by lia. simpl.
  rewrite list_lookup_fmap, lookup_seq_lt by lia. reflexivity.
Qed.

Lemma wf_tabulate {A} (f : nat -> nat -> A) h w :
  wf (mk_ndarray h w (map (fun i => map (fun j => f i j) (seq 0 w)) (seq 0 h))).
Proof.
  split; simpl.
  - rewrite length_map, length_seq; reflexivity.
  - rewrite List.Forall_forall. intros r Hr.
    apply in_map_iff in Hr as (i & <- & _).
    rewrite length_map, length_seq; reflexivity.
Qed.

Lemma wf_map_array {A B} (f : A -> B) (a : ndarray A) :
  wf a -> wf (map_array f a).
Proof.
  intros [Hl Hr]; split; simpl.
  - rewrite length_map; exact Hl.
  - rewrite List.Forall_forall in *. intros r Hi.
    apply in_map_iff in Hi as (r0 & <- & Hin).
    rewrite length_map; auto.
Qed.

End NpFacts.
(** ** [get_mask] *)

Section MaskFacts.
Import Np Mask.

Lemma cell_true (m : ndarray bool) i j :
  cell m i j = true <-> item m i j = Some true.
Proof.
  unfold cell. destruct (item m i j) as [[|]|]; simpl; split; congruence.
Qed.

Lemma getz_vstack_zeros (m : ndarray bool) i j :
  wf m ->
  getz (mk_ndarray (nrows m + 1) (ncols m)
          (data (map_array float_of_bool m) ++ data (zeros 1 (ncols m)))) i j
  = float_of_bool (cell m i j).
Proof.
  intros Hwf. pose proof Hwf as [Hl Hr].
  unfold getz, cell, item; simpl.
  destruct (decide (i < nrows m)%nat) as [Hi|Hi].
  - rewrite lookup_app_l by (rewrite length_map; lia).
    rewrite list_lookup_fmap.
    destruct (data m !! i) as [r|] eqn:E; simpl.
    + rewrite list_lookup_fmap. destruct (r !! j); reflexivity.
    + reflexivity.
  - rewrite lookup_app_r by (rewrite length_map; lia).
    rewrite length_map, Hl.
    rewrite (lookup_ge_None_2 (data m) i) by lia. simpl.
    destruct (i - nrows m)%nat as [|k]; simpl; [|reflexivity].
    destruct (repeat 0%Z (ncols m) !! j) as [z|] eqn:E; simpl; [|reflexivity].
    apply list_elem_of_lookup_2, list_elem_of_In, repeat_spec in E. exact E.
Qed.

Lemma lookup_zip_app_singleton {A} (l : list (list A)) (x : A) n i :
  length l = n ->
  zip_with (fun ra rb => ra ++ rb) l (repeat [x] n) !! i
  = (fun r => r ++ [x]) <$> l !! i.
Proof.
  intros <-. revert i; induction l as [|r l IH]; intros [|i]; simpl; auto.
Qed.

Lemma getz_hstack_zeros (m : ndarray bool) i j :
  wf m ->
  getz (mk_ndarray (nrows m) (ncols m + 1)
          (zip_with (fun ra rb => ra ++ rb)
             (data (map_array float_of_bool m)) (data (zeros (nrows m) 1)))) i j
  = float_of_bool (cell m i j).
Proof.
  intros Hwf. pose proof Hwf as [Hl Hr].
  unfold getz, cell, item; simpl.
  rewrite lookup_zip_app_singleton by (rewrite length_map; exact Hl).
  rewrite list_lookup_fmap.
  destruct (data m !! i) as [r|] eqn:E; simpl; [|reflexivity].
  assert (Hlen : length r = ncols m).
  { rewrite List.Forall_forall in Hr. apply Hr.
    apply list_elem_of_In. eapply list_elem_of_lookup_2; eauto. }
  destruct (decide (j < ncols m)%nat) as [Hj|Hj].
  - rewrite lookup_app_l by (rewrite length_map; lia).
    rewrite list_lookup_fmap. destruct (r !! j); reflexivity.
  - rewrite lookup_app_r by (rewrite length_map; lia).
    rewrite (lookup_ge_None_2 r j) by lia. simpl.
    destruct (j - length (map float_of_bool r))%nat; reflexivity.
Qed.

Lemma convolve2d_cell_horizontal (m : ndarray Z) i j :
  convolve2d_cell m conv_filt_horizontal i j
  = (getz m i j + (if (1 <=? j)%nat then getz m i (j - 1) else 0))%Z.
Proof.
  unfold convolve2d_cell; simpl.
  rewrite !Nat.sub_0_r.
  change (getz conv_filt_horizontal 0 0) with 1%Z.
  change (getz conv_filt_horizontal 0 1) with 1%Z.
  destruct j as [|j]; simpl; lia.
Qed.

Lemma convolve2d_cell_vertical (m : ndarray Z) i j :
  convolve2d_cell m conv_filt_vertical i j
  = (getz m i j + (if (1 <=? i)%nat then getz m (i - 1) j else 0))%Z.
Proof.
  unfold convolve2d_cell; simpl.
  rewrite !Nat.sub_0_r.
  change (getz conv_filt_vertical 0 0) with 1%Z.
  change (getz conv_filt_vertical 1 0) with 1%Z.
  destruct i as [|i]; simpl; rewrite ?andb_true_r; simpl; lia.
Qed.

Lemma nonzero_sum_of_bools (a b : bool) :
  negb (float_of_bool a + float_of_bool b =? 0)%Z = a || b.
Proof. destruct a, b; reflexivity. Qed.

Lemma str_in_rows (name : str) :
  name = "Qx" \/ name = "QxSGold" ->
  str_in name ["Qx"; "QxSGold"; "Qy"; "QySGold"] = true
  /\ str_in name ["Qx"; "QxSGold"] = true.
Proof. intros [-> | ->]; split; reflexivity. Qed.

Lemma str_in_cols (name : str) :
  name = "Qy" \/ name = "QySGold" ->
  str_in name ["Qx"; "QxSGold"; "Qy"; "QySGold"] = true
  /\ str_in name ["Qx"; "QxSGold"] = false
  /\ str_in name ["Qy"; "QySGold"] = true.
Proof. intros [-> | ->]; repeat split; reflexivity. Qed.

Lemma get_mask_rows (g : ndarray bool) (name : str) :
  name = "Qx" \/ name = "QxSGold" ->
  get_mask g name
  = Some (astype_bool (convolve2d
       (mk_ndarray (nrows g + 1) (ncols g)
          (data (map_array float_of_bool g) ++ data (zeros 1 (ncols g))))
       conv_filt_horizontal)).
Proof.
  intros Hn. destruct (str_in_rows name Hn) as [H1 H2].
  unfold get_mask. rewrite H1, H2. unfold vstack; simpl.
  rewrite Nat.eqb_refl. reflexivity.
Qed.

Lemma get_mask_cols (g : ndarray bool) (name : str) :
  name = "Qy" \/ name = "QySGold" ->
  get_mask g name
  = Some (astype_bool (convolve2d
       (mk_ndarray (nrows g) (ncols g + 1)
          (zip_with (fun ra rb => ra ++ rb)
             (data (map_array float_of_bool g)) (data (zeros (nrows g) 1))))
       conv_filt_vertical)).
Proof.
  intros Hn. destruct (str_in_cols name Hn) as (H1 & H2 & H3).
  unfold get_mask. rewrite H1, H2, H3. unfold hstack; simpl.
  rewrite Nat.eqb_refl. reflexivity.
Qed.

Lemma item_astype_convolve (m f : ndarray Z) i j :
  (i < nrows m + nrows f - 1)%nat -> (j < ncols m + ncols f - 1)%nat ->
  item (astype_bool (convolve2d m f)) i j
  = Some (negb (convolve2d_cell m f i j =? 0)%Z).
Proof.
  intros Hi Hj. unfold astype_bool. rewrite item_map_array.
  unfold convolve2d. rewrite item_tabulate by assumption. reflexivity.
Qed.

Lemma wf_astype_convolve (m f : ndarray Z) :
  wf (astype_bool (convolve2d m f)).
Proof. apply wf_map_array, wf_tabulate. Qed.

(** C1 (as amended): over a non-empty grid mask of shape (H, W), the masks
    of [Qx]/[QxSGold] and of [Qy]/[QySGold] both have shape (H+1, W+1).
    For [Qx]/[QxSGold] cell (i, j) is true exactly when grid cell (i, j) or
    (i, j-1), where in bounds, is true (so row H is false throughout); for
    [Qy]/[QySGold] cell (i, j) is true exactly when grid cell (i, j) or
    (i-1, j) is true (so column W is false throughout); every other name
    gets the grid mask itself. *)
Theorem get_mask_edges (g : ndarray bool) (H W : nat) (name : str) :
  wf g -> shape g = (H, W) -> (0 < H)%nat -> (0 < W)%nat ->
  (name = "Qx" \/ name = "QxSGold" ->
   exists m, get_mask g name = Some m /\ wf m
     /\ shape m = (H + 1, W + 1)%nat
     /\ forall i j, (i < H + 1)%nat -> (j < W + 1)%nat ->
        exists b, item m i j = Some b
          /\ (b = true <-> item g i j = Some true
                         \/ ((1 <= j)%nat /\ item g i (j - 1) = Some true)))
  /\ (name = "Qy" \/ name = "QySGold" ->
   exists m, get_mask g name = Some m /\ wf m
     /\ shape m = (H + 1, W + 1)%nat
     /\ forall i j, (i < H + 1)%nat -> (j < W + 1)%nat ->
        exists b, item m i j = Some b
          /\ (b = true <-> item g i j = Some true
                         \/ ((1 <= i)%nat /\ item g (i - 1) j = Some true)))
  /\ (str_in name ["Qx"; "QxSGold"; "Qy"; "QySGold"] = false ->
      get_mask g name = Some g).
Proof.
  intros Hwf Hs HH HW. injection Hs as HnH HnW.
  split; [|split].
  - intros Hn. rewrite (get_mask_rows g name Hn).
    eexists; split; [reflexivity|]. split; [apply wf_astype_convolve|].
    split; [unfold shape; simpl; f_equal; lia|].
    intros i j Hi Hj.
    rewrite item_astype_convolve by (simpl; lia).
    eexists; split; [reflexivity|].
    rewrite convolve2d_cell_horizontal, !getz_vstack_zeros by assumption.
    destruct (1 <=? j)%nat eqn:Ej.
    + rewrite nonzero_sum_of_bools, orb_true_iff, !cell_true.
      apply Nat.leb_le in Ej. tauto.
    + change 0%Z with (float_of_bool false).
      rewrite nonzero_sum_of_bools, orb_false_r, cell_true.
      apply Nat.leb_gt in Ej. split; [tauto|]. intros [?|[? _]]; [assumption|lia].
  - intros Hn. rewrite (get_mask_cols g name Hn).
    eexists; split; [reflexivity|]. split; [apply wf_astype_convolve|].
    split; [unfold shape; simpl; f_equal; lia|].
    intros i j Hi Hj.
    rewrite item_astype_convolve by (simpl; lia).
    eexists; split; [reflexivity|].
    rewrite convolve2d_cell_vertical, !getz_hstack_zeros by assumption.
    destruct (1 <=? i)%nat eqn:Ei.
    + rewrite nonzero_sum_of_bools, orb_true_iff, !cell_true.
      apply Nat.leb_le in Ei. tauto.
    + change 0%Z with (float_of_bool false).
      rewrite nonzero_sum_of_bools, orb_false_r, cell_true.
      apply Nat.leb_gt in Ei. split; [tauto|]. intros [?|[? _]]; [assumption|lia].
  - intros Hn. unfold get_mask. rewrite Hn. reflexivity.
Qed.

End MaskFacts.
(** ** Time control *)

Section TimeFacts.
Import Np Par Mask Lfp LfpSpec.
Context {engine num elt : Type}.
Context `{!PyLib num elt} `{!BMIWrapper engine num elt} `{!Glib}.

Local Abbreviation LFP := (LFP engine elt).

Lemma get_current_time_initialized (s : LFP) :
  initialized s = true ->
  get_current_time s
  = (Ok (_startTime s + timedelta_of_seconds (bmi_get_current_time (_bmi s)))%Z, s).
Proof.
  intros Hi. unfold get_current_time, bind, gets, ret. simpl.
  rewrite Hi. reflexivity.
Qed.

Lemma native_step_fields (s : LFP) :
  initialized (native_step s) = initialized s
  /\ _startTime (native_step s) = _startTime s
  /\ _endTime (native_step s) = _endTime s
  /\ _t (native_step s) = _t s
  /\ _dt (native_step s) = _dt s
  /\ logged (native_step s) = logged s
  /\ _bmi (native_step s) = fst (bmi_update (_bmi s) (arrays s)).
Proof.
  unfold native_step. destruct (bmi_update (_bmi s) (arrays s)); simpl.
  repeat split; reflexivity.
Qed.

Lemma advance_fields (s : LFP) :
  initialized (advance s) = initialized s
  /\ _startTime (advance s) = _startTime s
  /\ _endTime (advance s) = _endTime s
  /\ _dt (advance s) = _dt s
  /\ logged (advance s) = logged s.
Proof.
  destruct (native_step_fields s) as (H1 & H2 & H3 & H4 & H5 & H6 & H7).
  unfold advance; simpl. repeat split; assumption.
Qed.

Lemma after_fields (n : nat) (s : LFP) :
  initialized (after n s) = initialized s
  /\ _startTime (after n s) = _startTime s
  /\ _endTime (after n s) = _endTime s
  /\ _dt (after n s) = _dt s
  /\ logged (after n s) = logged s.
Proof.
  induction n as [|n IH]; [repeat split; reflexivity|].
  change (after (S n) s) with (advance (after n s)).
  destruct IH as (H1 & H2 & H3 & H4 & H5).
  destruct (advance_fields (after n s)) as (A1 & A2 & A3 & A4 & A5).
  rewrite A1, A2, A3, A4, A5. repeat split; assumption.
Qed.

Lemma after_S (n : nat) (s : LFP) : after (S n) s = after n (advance s).
Proof. unfold after. rewrite Nat.iter_succ_r. reflexivity. Qed.

(** One turn of the loop body, as the model runs it. *)
Lemma loop_body_initialized (s : LFP) (fuel : nat) (t_next : datetime) (i : nat) :
  initialized s = true ->
  (modify native_step ;;;
   now <- get_current_time ;;
   modify (set_t now) ;;;
   update_loop fuel t_next (S i)) s
  = update_loop fuel t_next (S i) (advance s).
Proof.
  intros Hi. run_modify.
  unfold bind at 1.
  rewrite get_current_time_initialized
    by (destruct (native_step_fields s) as (-> & _); exact Hi).
  run_modify. reflexivity.
Qed.

Lemma update_loop_runs (n : nat) :
  forall (fuel : nat) (t_next : datetime) (i : nat) (s : LFP),
    initialized s = true ->
    (n <= fuel)%nat ->
    (forall k, (k < n)%nat -> (_t (after k s) < t_next)%Z) ->
    (t_next <= _t (after n s))%Z ->
    update_loop fuel t_next i s = (Ok (i + n)%nat, after n s).
Proof.
  induction n as [|n IH]; intros fuel t_next i s Hi Hf Hlt Hge.
  - change (after 0 s) with s in Hge.
    destruct fuel; simpl;
      (destruct (Z.ltb_spec (_t s) t_next); [lia|]);
      rewrite Nat.add_0_r; reflexivity.
  - destruct fuel as [|fuel]; [lia|].
    simpl. pose proof (Hlt 0%nat ltac:(lia)) as H0.
    change (after 0 s) with s in H0.
    destruct (Z.ltb_spec (_t s) t_next); [|lia].
    rewrite loop_body_initialized by assumption.
    rewrite (IH fuel t_next (S i) (advance s)).
    + rewrite after_S. f_equal. f_equal. lia.
    + destruct (advance_fields s) as (-> & _); exact Hi.
    + lia.
    + intros k Hk. rewrite <- after_S. apply Hlt. lia.
    + rewrite <- after_S. exact Hge.
Qed.

(** C2: on an initialized model whose current time is before its end time,
    [update(dt)] takes as step duration the caller's [dt] when it is given
    and differs from the last known model time step, and that time step
    otherwise; with [target] the engine's current time plus the step, it
    makes exactly [n] native steps, refreshing [_t] after each, where [n]
    is the first count at which [_t >= target]; it then logs the count. *)
Theorem update_reaches_target (s : LFP) (dt : option num) (n fuel : nat)
  (step : timedelta) (target : datetime) :
  initialized s = true ->
  (_t s < _endTime s)%Z ->
  step = match dt with
         | Some d => if num_eqb d (total_seconds (_dt s))
                     then _dt s else timedelta_of_seconds d
         | None => _dt s
         end ->
  target = (_startTime s
            + timedelta_of_seconds (bmi_get_current_time (_bmi s)) + step)%Z ->
  (forall k, (k < n)%nat -> (_t (after k s) < target)%Z) ->
  (target <= _t (after n s))%Z ->
  (n <= fuel)%nat ->
  update fuel dt s
  = (Ok tt, log (LogUpdated (_t (after n s)) n) (after n s)).
Proof.
  intros Hi Hend Hstep Htarget Hlt Hge Hfuel.
  unfold update. run_gets.
  run_gets.
  destruct (Z.leb_spec (_endTime s) (_t s)); [lia|].
  run_gets.
  unfold bind at 1. rewrite get_current_time_initialized by assumption.
  unfold bind at 1.
  assert (Et : (_startTime s + timedelta_of_seconds (bmi_get_current_time (_bmi s))
               + match dt with
                 | Some d => if negb (num_eqb d (total_seconds (_dt s)))
                             then timedelta_of_seconds d else _dt s
                 | None => _dt s
                 end)%Z = target).
  { rewrite Htarget, Hstep. destruct dt as [d|]; [|reflexivity].
    destruct (num_eqb d (total_seconds (_dt s))); reflexivity. }
  match goal with
  | |- context [update_loop fuel ?x 0 s] =>
      replace x with target by (symmetry; exact Et)
  end.
  rewrite (update_loop_runs n fuel target 0 s Hi Hfuel Hlt Hge).
  unfold bind, gets, modify. simpl. reflexivity.
Qed.

(** C3: when current time has reached end time, [update] raises and changes
    nothing: no native step is made, whatever the fuel and [dt]. *)
Theorem update_at_end_raises (s : LFP) (dt : option num) (fuel : nat) :
  (_endTime s <= _t s)%Z ->
  update fuel dt s
  = (Raise (Exception "endTime already reached, model not updated"), s).
Proof.
  intros Hend. unfold update, bind, gets, raise. simpl.
  destruct (Z.leb_spec (_endTime s) (_t s)); [reflexivity|lia].
Qed.

End TimeFacts.
Section TimeBounds.
Import Np Par Mask Lfp LfpSpec.
Context {engine num elt : Type}.
Context `{!PyLib num elt} `{!BMIWrapper engine num elt} `{!Glib}.

Local Abbreviation LFP := (LFP engine elt).

Lemma running_advance (t0 t1 : datetime) (s : LFP) :
  engine_stays_within t0 t1 -> running t0 t1 s -> running t0 t1 (advance s).
Proof.
  intros He (Hi & H0 & H1 & Ht).
  destruct (advance_fields s) as (A1 & A2 & A3 & _).
  destruct (native_step_fields s) as (_ & N2 & _ & _ & _ & _ & N7).
  split; [congruence|]. split; [congruence|]. split; [congruence|].
  unfold advance; simpl. rewrite N2, N7, H0. apply He.
Qed.

Lemma running_log (t0 t1 : datetime) (r : log_record) (s : LFP) :
  running t0 t1 s -> running t0 t1 (log r s).
Proof. intros H0; exact H0. Qed.

Lemma update_loop_running (t0 t1 : datetime) (fuel : nat) :
  forall (t_next : datetime) (i : nat) (s s' : LFP) (r : outcome nat),
    engine_stays_within t0 t1 -> running t0 t1 s ->
    update_loop fuel t_next i s = (r, s') -> running t0 t1 s'.
Proof.
  induction fuel as [|fuel IH]; intros t_next i s s' r He Hs Hrun.
  - simpl in Hrun. destruct (_t s <? t_next)%Z; injection Hrun as <- <-; exact Hs.
  - simpl in Hrun. destruct (_t s <? t_next)%Z.
    + rewrite loop_body_initialized in Hrun by apply Hs.
      eapply IH; [exact He| |exact Hrun]. apply running_advance; assumption.
    + injection Hrun as <- <-; exact Hs.
Qed.

Lemma update_running (t0 t1 : datetime) (fuel : nat) (dt : option num)
  (s s' : LFP) (r : outcome unit) :
  engine_stays_within t0 t1 -> running t0 t1 s ->
  update fuel dt s = (r, s') -> running t0 t1 s'.
Proof.
  intros He Hs Hrun. unfold update in Hrun.
  run_gets in Hrun.
  run_gets in Hrun.
  destruct (_endTime s <=? _t s)%Z.
  { injection Hrun as <- <-; exact Hs. }
  run_gets in Hrun.
  unfold bind at 1 in Hrun.
  rewrite get_current_time_initialized in Hrun by apply Hs.
  unfold bind at 1 in Hrun.
  match type of Hrun with
  | context [update_loop fuel ?x 0 s] =>
      destruct (update_loop fuel x 0 s) as [o s1] eqn:El
  end.
  apply (update_loop_running t0 t1) in El; [|assumption|assumption].
  destruct o as [i| |]; injection Hrun as <- <-; exact El.
Qed.

Lemma update_until_loop_running (t0 t1 : datetime) (fuel : nat) (n : nat) :
  forall (t : datetime) (dt : option num) (s s' : LFP) (r : outcome unit),
    engine_stays_within t0 t1 -> running t0 t1 s ->
    update_until_loop fuel n t dt s = (r, s') -> running t0 t1 s'.
Proof.
  induction n as [|n IH]; intros t dt s s' r He Hs Hrun.
  - simpl in Hrun. destruct (_t s <? t)%Z; injection Hrun as <- <-; exact Hs.
  - simpl in Hrun. destruct (_t s <? t)%Z.
    + unfold bind in Hrun.
      destruct (update fuel dt s) as [o s1] eqn:Eu.
      apply (update_running t0 t1) in Eu; [|assumption|assumption].
      destruct o; try (injection Hrun as <- <-; exact Eu).
      eapply IH; eauto.
    + injection Hrun as <- <-; exact Hs.
Qed.

(** C9 (as amended): on an initialized model the bounds
    [startTime <= currentTime <= endTime] are kept by [update(dt)] and by
    [update_until(t, dt)], whatever their outcome, when every native step
    leaves the engine's clock between start time and end time; start time
    and end time themselves are not touched.  The adapter does not clamp
    the target, so nothing is promised for an engine that steps beyond its
    end. *)
Theorem update_keeps_time_bounds (s s' : LFP) (fuel : nat) (t : datetime)
  (dt : option num) (r : outcome unit) :
  initialized s = true ->
  time_bounds s ->
  engine_stays_within (_startTime s) (_endTime s) ->
  update fuel dt s = (r, s') \/ update_until fuel t dt s = (r, s') ->
  time_bounds s' /\ initialized s' = true
  /\ _startTime s' = _startTime s /\ _endTime s' = _endTime s.
Proof.
  intros Hi Hb He Hrun.
  assert (Hs : running (_startTime s) (_endTime s) s).
  { repeat split; auto; apply Hb. }
  assert (Hs' : running (_startTime s) (_endTime s) s').
  { destruct Hrun as [Hrun|Hrun].
    - eapply update_running; eauto.
    - unfold update_until in Hrun.
      run_gets in Hrun.
      run_gets in Hrun.
      destruct ((t <? _t s)%Z || (_endTime s <? t)%Z).
      + injection Hrun as <- <-; exact Hs.
      + eapply update_until_loop_running; eauto. }
  destruct Hs' as (Hi' & H0 & H1 & Ht).
  unfold time_bounds. rewrite H0, H1. repeat split; auto; apply Ht.
Qed.

End TimeBounds.
(** ** Attribute names *)

Section AttributeFacts.
Import Np Par Mask Lfp LfpSpec.
Context {engine num elt : Type}.
Context `{!PyLib num elt} `{!BMIWrapper engine num elt} `{!Glib}.

Lemma ascii_eqb_eq (a b : ascii) : ascii_eqb a b = true <-> a = b.
Proof. apply Ascii.eqb_eq. Qed.

Lemma ascii_eqb_neq (a b : ascii) : ascii_eqb a b = false <-> a <> b.
Proof. apply Ascii.eqb_neq. Qed.

Lemma contains_app (c : ascii) (s t : str) :
  contains c (s ++ t) = contains c s || contains c t.
Proof. unfold contains. apply existsb_app. Qed.

Lemma contains_cons_same (c : ascii) (s : str) : contains c (c :: s) = true.
Proof. unfold contains; simpl. unfold ascii_eqb. rewrite Ascii.eqb_refl. reflexivity. Qed.

(** Splitting at a separator: a piece free of the separator, the separator,
    and the rest. *)
Lemma split_on_from_piece (sep : ascii) (p : str) :
  forall (cur rest : str),
    contains sep p = false ->
    split_on_from sep cur (p ++ sep :: rest)
    = rev (rev p ++ cur) :: split_on_from sep [] rest.
Proof.
  induction p as [|c p IH]; intros cur rest Hp; simpl.
  - unfold ascii_eqb. rewrite Ascii.eqb_refl. reflexivity.
  - unfold contains in Hp; simpl in Hp. apply orb_false_iff in Hp as [Hc Hp].
    assert (Hcs : ascii_eqb c sep = false).
    { unfold ascii_eqb in *. rewrite Ascii.eqb_sym. exact Hc. }
    rewrite Hcs. rewrite IH by exact Hp.
    rewrite <- app_assoc. reflexivity.
Qed.

Lemma split_on_from_last (sep : ascii) (p : str) :
  forall (cur : str),
    contains sep p = false ->
    split_on_from sep cur p = [rev (rev p ++ cur)].
Proof.
  induction p as [|c p IH]; intros cur Hp; simpl.
  - reflexivity.
  - unfold contains in Hp; simpl in Hp. apply orb_false_iff in Hp as [Hc Hp].
    assert (Hcs : ascii_eqb c sep = false).
    { unfold ascii_eqb in *. rewrite Ascii.eqb_sym. exact Hc. }
    rewrite Hcs. rewrite IH by exact Hp.
    rewrite <- app_assoc. reflexivity.
Qed.

Lemma split_on_piece (sep : ascii) (p rest : str) :
  contains sep p = false ->
  split_on sep (p ++ sep :: rest) = p :: split_on sep rest.
Proof.
  intros Hp. unfold split_on. rewrite split_on_from_piece by exact Hp.
  rewrite app_nil_r, rev_involutive. reflexivity.
Qed.

Lemma split_on_last (sep : ascii) (p : str) :
  contains sep p = false -> split_on sep p = [p].
Proof.
  intros Hp. unfold split_on. rewrite split_on_from_last by exact Hp.
  rewrite app_nil_r, rev_involutive. reflexivity.
Qed.

Lemma attribute_key_plain (name : str) :
  contains ":"%char name = false ->
  attribute_key name = "general:" ++ name.
Proof. intros Hn. unfold attribute_key. rewrite Hn. reflexivity. Qed.

Lemma attribute_key_prefixed (prefix rest : str) :
  contains ":"%char prefix = false ->
  attribute_key (prefix ++ ":" ++ rest)
  = "general:" ++ default [] (head (split_on ":"%char rest)).
Proof.
  intros Hp. unfold attribute_key.
  change (prefix ++ ":" ++ rest) with (prefix ++ ":"%char :: rest).
  rewrite contains_app, contains_cons_same, orb_true_r. simpl negb. cbv iota.
  rewrite split_on_piece by exact Hp. simpl.
  destruct (split_on ":"%char rest); reflexivity.
Qed.

(** C6 (as amended): a name without a colon is looked up as [general:name].
    Of a name with a colon only the piece between its first and its second
    colon is kept (all that follows the first colon when there is no second
    one) and looked up under [general]; so two names that differ only in
    the prefix before the first colon read, and write, the same attribute. *)
Theorem attribute_name_normalised (prefix prefix' piece tail name value : str) :
  contains ":"%char name = false ->
  contains ":"%char prefix = false ->
  contains ":"%char prefix' = false ->
  contains ":"%char piece = false ->
  attribute_key name = "general:" ++ name
  /\ attribute_key (prefix ++ ":" ++ piece) = "general:" ++ piece
  /\ attribute_key (prefix ++ ":" ++ piece ++ ":" ++ tail) = "general:" ++ piece
  /\ get_attribute_value (engine:=engine) (elt:=elt) (prefix ++ ":" ++ tail)
     = get_attribute_value (prefix' ++ ":" ++ tail)
  /\ set_attribute_value (engine:=engine) (elt:=elt) (prefix ++ ":" ++ tail) value
     = set_attribute_value (prefix' ++ ":" ++ tail) value.
Proof.
  intros Hn Hp Hp' Hpiece.
  split; [apply attribute_key_plain; exact Hn|].
  split.
  { rewrite attribute_key_prefixed by exact Hp.
    rewrite split_on_last by exact Hpiece. reflexivity. }
  split.
  { rewrite attribute_key_prefixed by exact Hp.
    change (piece ++ ":" ++ tail) with (piece ++ ":"%char :: tail).
    rewrite split_on_piece by exact Hpiece. reflexivity. }
  assert (Hk : attribute_key (prefix ++ ":" ++ tail)
               = attribute_key (prefix' ++ ":" ++ tail)).
  { rewrite !attribute_key_prefixed by assumption. reflexivity. }
  unfold get_attribute_value, set_attribute_value. rewrite Hk.
  split; reflexivity.
Qed.

End AttributeFacts.
(** ** Variable exchange *)

Section VariableFacts.
Import Np Par Mask Lfp LfpSpec.
Context {engine num elt : Type}.
Context `{!PyLib num elt} `{!BMIWrapper engine num elt} `{!Glib}.

Local Abbreviation LFP := (LFP engine elt).

Lemma item_zip_array {A B C} (f : A -> B -> C) (a : ndarray A) (b : ndarray B)
  (i j : nat) (x : A) (y : B) :
  item a i j = Some x -> item b i j = Some y ->
  item (zip_array f a b) i j = Some (f x y).
Proof.
  unfold item, zip_array; simpl. intros Ha Hb.
  rewrite lookup_zip_with.
  destruct (data a !! i) as [ra|]; [|discriminate].
  destruct (data b !! i) as [rb|]; [|discriminate]. simpl.
  rewrite lookup_zip_with, Ha, Hb. reflexivity.
Qed.

Lemma shape_eqb_eq {A B} (a : ndarray A) (b : ndarray B) :
  shape_eqb a b = true <-> shape a = shape b.
Proof.
  unfold shape_eqb, shape. rewrite andb_true_iff, !Nat.eqb_eq.
  split; [intros [-> ->]; reflexivity | intros [= -> ->]; auto].
Qed.

Lemma LFP_get_mask_ok (s : LFP) (name : str) (g mask : ndarray bool) :
  grid s = Some g -> get_mask g name = Some mask ->
  LFP_get_mask name s = (Ok mask, s).
Proof.
  intros Hg Hm. unfold LFP_get_mask, bind, gets, ret. simpl.
  rewrite Hg, Hm. reflexivity.
Qed.

Lemma engine_var_ok (s : LFP) (name : str) (l : loc) (v : ndarray elt) :
  bmi_get_var (_bmi s) name = Some l -> arrays s !! l = Some v ->
  engine_var name s = (Ok (l, v), s).
Proof.
  intros Hl Hv. unfold engine_var, bind, gets, ret. simpl.
  rewrite Hl, Hv. reflexivity.
Qed.

(** [set_value] when every array has the shape of the mask: the caller's
    array is overwritten first, the engine's array last. *)
Lemma set_value_runs (s : LFP) (name : str) (src : loc) (fill_value : elt)
  (g mask : ndarray bool) (src_array buf : ndarray elt) (lb : loc) :
  grid s = Some g -> get_mask g name = Some mask ->
  arrays s !! src = Some src_array ->
  bmi_get_var (_bmi s) name = Some lb -> arrays s !! lb = Some buf ->
  shape src_array = shape mask -> shape buf = shape mask ->
  set_value name src fill_value s
  = (Ok tt,
     set_arrays
       (<[lb := cast_src name fill_value (sanitized_src mask src_array)]>
          (<[src := sanitized_src mask src_array]> (arrays s))) s).
Proof.
  intros Hg Hm Hsrc Hlb Hbuf Hs1 Hs2.
  unfold set_value. unfold bind at 1.
  rewrite (LFP_get_mask_ok s name g mask Hg Hm).
  run_gets. rewrite Hsrc.
  assert (E1 : shape_eqb mask src_array = true)
    by (apply shape_eqb_eq; congruence).
  rewrite E1. cbn [negb]. cbv beta iota.
  run_modify.
  fold (sanitized_src mask src_array).
  fold (cast_src name fill_value (sanitized_src mask src_array)).
  unfold bind at 1.
  set (s1 := set_arrays (<[src:=sanitized_src mask src_array]> (arrays s)) s).
  assert (Hv : exists v, arrays s1 !! lb = Some v
                         /\ shape v = shape mask).
  { simpl. destruct (decide (src = lb)) as [->|Hne].
    - rewrite lookup_insert_eq. eexists; split; [reflexivity|reflexivity].
    - rewrite lookup_insert_ne by exact Hne. eauto. }
  destruct Hv as (v & Hv & Hvs).
  rewrite (engine_var_ok s1 name lb v) by (simpl; assumption).
  assert (E2 : shape_eqb v (cast_src name fill_value (sanitized_src mask src_array))
               = true).
  { apply shape_eqb_eq. rewrite Hvs. reflexivity. }
  cbn [fst snd]. rewrite E2. cbn [negb]. cbv beta iota.
  unfold bind, gets, modify. reflexivity.
Qed.

End VariableFacts.
Section VariableClaims.
Import Np Par Mask Lfp LfpSpec.
Context {engine num elt : Type}.
Context `{!PyLib num elt} `{!BMIWrapper engine num elt} `{!Glib}.

Local Abbreviation LFP := (LFP engine elt).

Lemma engine_var_inv (s s' : LFP) (name : str) (o : outcome (loc * ndarray elt)) :
  engine_var name s = (o, s') ->
  s' = s /\ forall l v, o = Ok (l, v) -> bmi_get_var (_bmi s) name = Some l.
Proof.
  unfold engine_var, bind, gets, ret, raise. simpl.
  destruct (bmi_get_var (_bmi s) name) as [l|].
  - destruct (arrays s !! l) as [v|]; intros [= <- <-]; split; auto;
      intros l' v' [= -> ->]; reflexivity || discriminate.
  - intros [= <- <-]; split; auto. intros l' v' [=].
Qed.

Lemma item_sanitized_src (mask : ndarray bool) (a : ndarray elt) i j x m :
  item a i j = Some x -> item mask i j = Some m ->
  item (sanitized_src mask a) i j = Some (if m && isnan x then zero else x).
Proof.
  intros Ha Hm. unfold sanitized_src.
  exact (item_zip_array (fun (m : bool) x => if m && isnan x then zero else x)
           mask a i j m x Hm Ha).
Qed.

(** C7: with a caller's array, an engine array and a mask of one shape, and
    no not-a-number in the caller's array, [set_value] succeeds and
    [get_value] on the same variable then returns an array of that shape
    holding, wherever the mask is true, the caller's value cast to the
    variable's declared type (and not-a-number wherever the mask is
    false). *)
Theorem set_then_get_value (s : LFP) (name : str) (src : loc)
  (fill_value : elt) (g mask : ndarray bool) (src_array buf : ndarray elt)
  (lb : loc) :
  grid s = Some g -> get_mask g name = Some mask ->
  arrays s !! src = Some src_array ->
  bmi_get_var (_bmi s) name = Some lb -> arrays s !! lb = Some buf ->
  shape src_array = shape mask -> shape buf = shape mask ->
  (forall i j x, item src_array i j = Some x -> isnan x = false) ->
  exists (s1 : LFP) (out : ndarray elt),
    set_value name src fill_value s = (Ok tt, s1)
    /\ get_value name s1 = (Ok out, s1)
    /\ shape out = shape src_array
    /\ forall i j x, item src_array i j = Some x ->
         (item mask i j = Some true ->
          item out i j = Some (astype (get_var_type name) x))
         /\ (item mask i j = Some false -> item out i j = Some nan).
Proof.
  intros Hg Hm Hsrc Hlb Hbuf Hs1 Hs2 Hnan.
  pose proof (set_value_runs s name src fill_value g mask src_array buf lb
                Hg Hm Hsrc Hlb Hbuf Hs1 Hs2) as Hset.
  set (new := cast_src name fill_value (sanitized_src mask src_array)) in *.
  set (s1 := set_arrays (<[lb:=new]>
                (<[src:=sanitized_src mask src_array]> (arrays s))) s) in *.
  exists s1.
  exists (zip_array (fun (m : bool) x => if m then x else nan) mask new).
  split; [exact Hset|]. split; [|split].
  - unfold get_value. unfold bind at 1.
    rewrite (engine_var_ok s1 name lb new Hlb (lookup_insert_eq _ _ _)).
    unfold bind at 1.
    rewrite (LFP_get_mask_ok s1 name g mask Hg Hm).
    cbn [snd].
    assert (E : shape_eqb mask new = true) by (apply shape_eqb_eq; reflexivity).
    rewrite E. reflexivity.
  - unfold shape in *; simpl. symmetry. exact Hs1.
  - intros i j x Hx. pose proof (Hnan i j x Hx) as Hn.
    assert (Hnew : forall m, item mask i j = Some m ->
                     item new i j = Some (astype (get_var_type name) x)).
    { intros m Hmi. unfold new, cast_src. rewrite item_map_array.
      rewrite (item_sanitized_src mask src_array i j x m Hx Hmi).
      rewrite Hn, andb_false_r. simpl. rewrite Hn. reflexivity. }
    split; intros Hmi.
    + exact (item_zip_array (fun (m : bool) x => if m then x else nan)
               mask new i j true _ Hmi (Hnew _ Hmi)).
    + exact (item_zip_array (fun (m : bool) x => if m then x else nan)
               mask new i j false _ Hmi (Hnew _ Hmi)).
Qed.

(** C10: [set_value] changes the caller's own array: whatever the outcome
    of the call (also when the engine then refuses the variable), the
    caller's array afterwards holds 0 wherever the mask is true and the
    value was not-a-number, and its old value everywhere else.  The
    caller's array is one the engine does not hand out as this variable. *)
Theorem set_value_overwrites_caller_array (s s1 : LFP) (name : str)
  (src : loc) (fill_value : elt) (g mask : ndarray bool)
  (src_array : ndarray elt) (r : outcome unit) :
  grid s = Some g -> get_mask g name = Some mask ->
  arrays s !! src = Some src_array ->
  shape src_array = shape mask ->
  bmi_get_var (_bmi s) name <> Some src ->
  set_value name src fill_value s = (r, s1) ->
  exists a' : ndarray elt,
    arrays s1 !! src = Some a'
    /\ shape a' = shape src_array
    /\ forall i j x m, item src_array i j = Some x -> item mask i j = Some m ->
         item a' i j = Some (if m && isnan x then zero else x).
Proof.
  intros Hg Hm Hsrc Hs Hne Hrun.
  exists (sanitized_src mask src_array).
  split; [|split].
  - unfold set_value in Hrun. unfold bind at 1 in Hrun.
    rewrite (LFP_get_mask_ok s name g mask Hg Hm) in Hrun.
    run_gets in Hrun. rewrite Hsrc in Hrun.
    assert (E1 : shape_eqb mask src_array = true)
      by (apply shape_eqb_eq; congruence).
    rewrite E1 in Hrun. cbn [negb] in Hrun. cbv beta iota in Hrun.
    run_modify in Hrun.
    fold (sanitized_src mask src_array) in Hrun.
    unfold bind at 1 in Hrun.
    set (s0 := set_arrays (<[src:=sanitized_src mask src_array]> (arrays s)) s) in *.
    destruct (engine_var name s0) as [o s'] eqn:Ev.
    apply engine_var_inv in Ev as [-> Hl].
    assert (H0 : arrays s0 !! src = Some (sanitized_src mask src_array))
      by (simpl; apply lookup_insert_eq).
    destruct o as [[l v]| |].
    + cbn [fst snd] in Hrun.
      destruct (negb (shape_eqb v _)).
      * injection Hrun as <- <-. exact H0.
      * unfold bind, gets, modify in Hrun. injection Hrun as <- <-. simpl.
        rewrite lookup_insert_ne; [apply lookup_insert_eq|].
        intros ->. apply Hne. exact (Hl src v eq_refl).
    + injection Hrun as <- <-. exact H0.
    + injection Hrun as <- <-. exact H0.
  - unfold shape in *; simpl. symmetry. exact Hs.
  - intros i j x m Hx Hmi. apply item_sanitized_src; assumption.
Qed.

End VariableClaims.
(** ** [set_end_time] *)

Section EndTimeFacts.
Import Np Par Mask Lfp LfpSpec.
Context {engine num elt : Type}.
Context `{!PyLib num elt} `{!BMIWrapper engine num elt} `{!Glib}.

Local Abbreviation LFP := (LFP engine elt).

(** [td.seconds + td.days * 86400] is the whole number of seconds in [td]. *)
Lemma td_seconds_days (td : timedelta) :
  (td_seconds td + td_days td * 86400 = td / 1000000)%Z.
Proof.
  unfold td_seconds, td_days.
  rewrite (Z.div_mod td 86400000000) at 3 by lia.
  replace (86400000000 * (td / 86400000000) + td mod 86400000000)%Z
    with (td mod 86400000000 + (td / 86400000000 * 86400) * 1000000)%Z by lia.
  rewrite Z.div_add by lia. reflexivity.
Qed.

(** [format_0f] writes the integer in decimal: reading the digits back gives
    the integer. *)
Lemma format_0f_decimal (n : Z) :
  option_map Z.of_int
    (NilZero.int_of_string (string_of_list_ascii (format_0f n))) = Some n.
Proof.
  unfold format_0f. rewrite string_of_list_ascii_of_string.
  rewrite NilZero.isi.
  - simpl. f_equal. apply DecimalZ.of_to.
  - destruct n; simpl; try discriminate.
    intros [= E]. exact (DecimalPos.Unsigned.to_uint_nonnil _ E).
  - destruct n; simpl; try discriminate.
    intros [= E]. exact (DecimalPos.Unsigned.to_uint_nonnil _ E).
Qed.

Lemma set_end_time_decoded (s : LFP) (arg : time_arg) (end_time : datetime) :
  arg = ArgDatetime end_time
  \/ (exists text, arg = ArgStr text
                   /\ strptime text (_datefmt s) = Some end_time) ->
  set_end_time arg s
  = (refdate <- get_start_time ;;
     if negb (refdate <? end_time)%Z then raise AssertionError
     else
       modify (set_endTime end_time) ;;;
       set_attribute_value "sim_time"
         (format_0f (td_seconds (end_time - refdate)
                     + td_days (end_time - refdate) * 86400)%Z)) s.
Proof.
  intros [-> | (text & -> & Hp)]; unfold set_end_time.
  - reflexivity.
  - run_gets. unfold bind at 1. rewrite Hp.
    reflexivity.
Qed.

(** What [set_end_time] hands to [glib.configset].  When the start time
    can be read, an end time that is not after it raises [AssertionError];
    otherwise [_endTime] is set and [configset] is called for
    [general:sim_time] with the decimal digits of the whole number of
    seconds from start to end, its result becoming the configuration. *)
Lemma set_end_time_hands_over (s s0 : LFP) (arg : time_arg)
  (end_time start : datetime) :
  arg = ArgDatetime end_time
  \/ (exists text, arg = ArgStr text
                   /\ strptime text (_datefmt s) = Some end_time) ->
  get_start_time s = (Ok start, s0) ->
  ((end_time <= start)%Z -> set_end_time arg s = (Raise AssertionError, s0))
  /\ ((start < end_time)%Z ->
      option_map Z.of_int
        (NilZero.int_of_string
           (string_of_list_ascii
              (format_0f ((end_time - start) / 1000000)))) =
      Some ((end_time - start) / 1000000)%Z
      /\ forall c c',
          _config s0 = Some c ->
          configcheck (Some c) = Ok tt ->
          configset c "general:sim_time"
            (format_0f ((end_time - start) / 1000000)) = Ok c' ->
          set_end_time arg s
          = (Ok tt,
             set_config c'
               (log (LogDebug ("set_attribute_value: general:sim_time -> "
                                 ++ format_0f ((end_time - start) / 1000000)))
                  (set_endTime end_time s0)))).
Proof.
  intros Harg Hstart.
  rewrite (set_end_time_decoded s arg end_time Harg).
  split.
  - intros Hle. unfold bind at 1. rewrite Hstart.
    destruct (Z.ltb_spec start end_time); [lia|]. reflexivity.
  - intros Hlt. split; [apply format_0f_decimal|].
    intros c c' Hc Hcheck Hset.
    unfold bind at 1. rewrite Hstart.
    destruct (Z.ltb_spec start end_time); [|lia]. cbn [negb]. cbv beta iota.
    rewrite td_seconds_days.
    run_modify.
    unfold set_attribute_value.
    run_gets.
    cbn [_config set_endTime]. rewrite Hc.
    unfold bind at 1. unfold lift at 1. rewrite Hcheck.
    change (attribute_key "sim_time") with ("general:sim_time" : str).
    run_modify.
    unfold bind at 1. unfold the_config at 1.
    cbn [_config log set_endTime]. rewrite Hc.
    unfold bind at 1. unfold lift at 1. rewrite Hset.
    unfold modify. reflexivity.
Qed.

End EndTimeFacts.
(** ** Strings *)

Section StrFacts.
Import Par ParSpec.

Lemma lstrip_nows (s : str) : nows s -> lstrip s = s.
Proof.
  intros Hs. destruct s as [|c s]; [reflexivity|].
  simpl. inversion Hs as [|? ? Hc _]; subst. rewrite Hc. reflexivity.
Qed.

Lemma nows_rev (s : str) : nows s -> nows (rev s).
Proof. unfold nows. apply Forall_rev. Qed.

Lemma rstrip_nows (s : str) : nows s -> rstrip s = s.
Proof.
  intros Hs. unfold rstrip. rewrite lstrip_nows by (apply nows_rev; exact Hs).
  apply rev_involutive.
Qed.

Lemma strip_nows (s : str) : nows s -> strip s = s.
Proof.
  intros Hs. unfold strip. rewrite rstrip_nows by exact Hs.
  apply lstrip_nows; exact Hs.
Qed.

Lemma nows_app (s t : str) : nows s -> nows t -> nows (s ++ t).
Proof. unfold nows. intros. apply Forall_app; split; assumption. Qed.

Lemma nows_app_inv (s t : str) : nows (s ++ t) -> nows s /\ nows t.
Proof. unfold nows. apply Forall_app. Qed.

Lemma nows_take (n : nat) (s : str) : nows s -> nows (take n s).
Proof. unfold nows. apply Forall_take. Qed.

Lemma nows_drop (n : nat) (s : str) : nows s -> nows (drop n s).
Proof. unfold nows. apply Forall_drop. Qed.

(** The tokens of [split] hold no whitespace and are not empty. *)
Lemma split_from_tokens (s : str) :
  forall cur, nows cur ->
    Forall (fun t => t <> [] /\ nows t) (split_from cur s).
Proof.
  induction s as [|c s IH]; intros cur Hcur; simpl.
  - destruct cur as [|a cur]; [constructor|].
    constructor; [|constructor]. split.
    + intros E. rev_empty E.
    + apply nows_rev; exact Hcur.
  - destruct (isspace c) eqn:Ec.
    + destruct cur as [|a cur]; [apply IH; constructor|].
      constructor; [|apply IH; constructor]. split.
      * intros E. rev_empty E.
      * apply nows_rev; exact Hcur.
    + apply IH. constructor; assumption.
Qed.

Lemma split_tokens (s : str) : Forall (fun t => t <> [] /\ nows t) (split s).
Proof. apply split_from_tokens. constructor. Qed.

(** The lines that [par2ini] makes hold no whitespace. *)
Lemma par2ini_line_nows (line : str) :
  nows (join "=" (take 2 (split line))).
Proof.
  pose proof (split_tokens line) as Ht.
  destruct (split line) as [|a [|b l]]; simpl.
  - constructor.
  - inversion Ht as [|? ? [_ Ha] _]; subst. exact Ha.
  - inversion Ht as [|? ? [_ Ha] Ht']; subst.
    inversion Ht' as [|? ? [_ Hb] _]; subst.
    apply nows_app; [exact Ha|]. constructor; [reflexivity|exact Hb].
Qed.

(** Splitting a token followed by whitespace. *)
Lemma split_from_token (t : str) :
  forall cur rest, nows t ->
    split_from cur (t ++ rest) = split_from (rev t ++ cur) rest.
Proof.
  induction t as [|c t IH]; intros cur rest Ht; simpl; [reflexivity|].
  inversion Ht as [|? ? Hc Ht']; subst. rewrite Hc.
  rewrite IH by exact Ht'. rewrite <- app_assoc. reflexivity.
Qed.

Lemma split_key_value (k v : str) :
  k <> [] -> v <> [] -> nows k -> nows v ->
  split (k ++ " " ++ v ++ LF) = [k; v].
Proof.
  intros Hk Hv Hnk Hnv. unfold split.
  rewrite split_from_token by exact Hnk. rewrite app_nil_r.
  change (" " ++ v ++ LF) with (" "%char :: (v ++ LF)).
  simpl split_from.
  destruct (rev k) as [|a r] eqn:Er.
  { rev_empty Er. destruct k; [congruence|discriminate Er]. }
  rewrite <- Er, rev_involutive.
  rewrite split_from_token by exact Hnv. rewrite app_nil_r.
  simpl.
  destruct (rev v) as [|b r'] eqn:Ev.
  { rev_empty Ev. destruct v; [congruence|discriminate Ev]. }
  rewrite <- Ev, rev_involutive. reflexivity.
Qed.

Lemma split_keyword (k : str) :
  k <> [] -> nows k -> split (k ++ LF) = [k].
Proof.
  intros Hk Hnk. unfold split.
  rewrite split_from_token by exact Hnk. rewrite app_nil_r. simpl.
  destruct (rev k) as [|a r] eqn:Er.
  { rev_empty Er. destruct k; [congruence|discriminate Er]. }
  rewrite <- Er, rev_involutive. reflexivity.
Qed.

End StrFacts.
(** ** One line of [_read] *)

Section LineFacts.
Import Par ParSpec.

Lemma first_nonspace_nows (s : str) : nows s -> first_nonspace_from 0 s = 0%nat.
Proof.
  intros Hs. destruct s as [|c s]; [reflexivity|].
  simpl. inversion Hs as [|? ? Hc _]; subst. rewrite Hc. reflexivity.
Qed.

Lemma inline_comment_inside (s : str) :
  forall p i, nows s -> isspace p = false ->
    inline_comment_from (Some p) i s = None.
Proof.
  induction s as [|c s IH]; intros p i Hs Hp; simpl; [reflexivity|].
  inversion Hs as [|? ? Hc Hs']; subst.
  rewrite Hp, andb_false_r. apply IH; assumption.
Qed.

Lemma comment_start_nows (s : str) :
  nows s -> comment_start s = if opens_comment s then Some 0%nat else None.
Proof.
  intros Hs. unfold comment_start. rewrite strip_nows by exact Hs.
  fold (opens_comment s).
  destruct (opens_comment s) eqn:Eo; [reflexivity|].
  destruct s as [|c s]; [reflexivity|]. simpl.
  inversion Hs as [|? ? Hc Hs']; subst.
  destruct (ascii_eqb c inline_comment_prefix) eqn:Ec.
  - apply Ascii.eqb_eq in Ec. subst c. discriminate Eo.
  - simpl. apply inline_comment_inside; assumption.
Qed.

Lemma read_line_comment (ln : nat) (s : str) (st : read_state) :
  nows s -> opens_comment s = true -> read_line ln s st = Ok st.
Proof.
  intros Hs Ho. unfold read_line. rewrite comment_start_nows, Ho by exact Hs.
  reflexivity.
Qed.

Lemma read_line_content (ln : nat) (s : str) (st : read_state) :
  nows s -> s <> [] -> opens_comment s = false ->
  read_line ln s st = read_header_or_option ln s s 0 st.
Proof.
  intros Hs Hne Ho. unfold read_line.
  rewrite comment_start_nows, Ho by exact Hs.
  rewrite strip_nows, first_nonspace_nows by exact Hs.
  destruct s as [|c s]; [congruence|].
  destruct (cursect st) as [cs|]; [|reflexivity].
  destruct (optname st) as [[|a o]|]; reflexivity.
Qed.

Lemma read_line_blank (ln : nat) (st : read_state) :
  read_line ln [] st
  = match cursect st, optname st with
    | Some c, Some (a :: o) =>
        match dict_get (cur_dict st c) (a :: o) with
        | Some VNone => Ok st
        | _ => append_to_option st c (a :: o) []
        end
    | _, _ => Ok st
    end.
Proof.
  unfold read_line. simpl.
  destruct (cursect st); [|reflexivity]. reflexivity.
Qed.

(** Where the first delimiter is. *)
Lemma find_char_none (c : ascii) (s : str) :
  find_char c s = None <-> contains c s = false.
Proof.
  unfold contains. induction s as [|a s IH]; simpl; [tauto|].
  unfold ascii_eqb at 1 2. rewrite (Ascii.eqb_sym c a).
  destruct (Ascii.eqb a c); simpl.
  - split; discriminate.
  - destruct (find_char c s); [split; [discriminate|]|tauto].
    intros E. apply IH in E. discriminate E.
Qed.

Lemma find_char_some (c : ascii) (s : str) (n : nat) :
  find_char c s = Some n ->
  s = take n s ++ c :: drop (S n) s /\ contains c (take n s) = false.
Proof.
  revert n. unfold contains.
  induction s as [|a s IH]; intros n; simpl; [discriminate|].
  destruct (ascii_eqb a c) eqn:Ea.
  - intros [= <-]. simpl. apply Ascii.eqb_eq in Ea. subst a. split; reflexivity.
  - destruct (find_char c s) as [k|]; [|discriminate].
    intros [= <-]. destruct (IH k eq_refl) as [E1 E2]. simpl.
    split.
    + f_equal. exact E1.
    + unfold ascii_eqb in *. rewrite (Ascii.eqb_sym c a), Ea. exact E2.
Qed.

Lemma find_char_app (c : ascii) (k v : str) :
  contains c k = false -> find_char c (k ++ c :: v) = Some (length k).
Proof.
  unfold contains. induction k as [|a k IH]; intros Hk; simpl.
  - unfold ascii_eqb. rewrite Ascii.eqb_refl. reflexivity.
  - simpl in Hk. apply orb_false_iff in Hk as [Ha Hk].
    unfold ascii_eqb in *. rewrite (Ascii.eqb_sym a c), Ha.
    rewrite IH by exact Hk. reflexivity.
Qed.

(** The groups of [optcre_match] on a line without whitespace. *)
Lemma optcre_match_key_value (k v : str) :
  nows k -> nows v -> contains delimiter k = false ->
  optcre_match (k ++ "=" ++ v) = (k, Some v).
Proof.
  intros Hk Hv Hd. unfold optcre_match.
  change (k ++ "=" ++ v) with (k ++ delimiter :: v).
  rewrite find_char_app by exact Hd.
  rewrite take_app_length.
  replace (drop (S (length k)) (k ++ delimiter :: v)) with v.
  - rewrite rstrip_nows, lstrip_nows by assumption. reflexivity.
  - change (k ++ delimiter :: v) with (k ++ [delimiter] ++ v).
    rewrite app_assoc.
    replace (S (length k)) with (length (k ++ [delimiter]))
      by (rewrite length_app; simpl; lia).
    rewrite drop_app_length. reflexivity.
Qed.

Lemma optcre_match_key (k : str) :
  contains delimiter k = false -> optcre_match k = (k, None).
Proof.
  intros Hd. unfold optcre_match.
  apply find_char_none in Hd. rewrite Hd. reflexivity.
Qed.

(** A line without whitespace is a key alone or a key, the delimiter and a
    value. *)
Lemma optcre_match_nows (s : str) :
  nows s ->
  (contains delimiter s = false /\ optcre_match s = (s, None))
  \/ (exists k v, s = k ++ "=" ++ v /\ nows k /\ nows v
                  /\ contains delimiter k = false
                  /\ optcre_match s = (k, Some v)).
Proof.
  intros Hs. destruct (find_char delimiter s) as [n|] eqn:Ef.
  - right. destruct (find_char_some _ _ _ Ef) as [E Hk].
    exists (take n s), (drop (S n) s).
    assert (Hnk : nows (take n s)) by (apply nows_take; exact Hs).
    assert (Hnv : nows (drop (S n) s)) by (apply nows_drop; exact Hs).
    split; [exact E|]. split; [exact Hnk|]. split; [exact Hnv|].
    split; [exact Hk|].
    rewrite E at 1. apply optcre_match_key_value; assumption.
  - left. apply find_char_none in Ef. split; [exact Ef|].
    apply optcre_match_key; exact Ef.
Qed.

End LineFacts.
(** ** Reading option lines back *)

Section ItemFacts.
Import Par ParSpec.

Lemma dict_set_fresh {V} (d : dict V) (k : str) (v : V) :
  ~ In k (map fst d) -> dict_set d k v = d ++ [(k, v)].
Proof.
  induction d as [|[k' v'] d IH]; intros Hk; simpl; [reflexivity|].
  simpl in Hk. destruct (str_eqb k' k) eqn:E.
  - apply str_eqb_eq in E. subst. tauto.
  - rewrite IH by tauto. reflexivity.
Qed.

Lemma dict_get_In {V} (d : dict V) (k : str) (v : V) :
  dict_get d k = Some v -> In (k, v) d.
Proof.
  induction d as [|[k' v'] d IH]; simpl; [discriminate|].
  destruct (str_eqb k' k) eqn:E.
  - apply str_eqb_eq in E. subst. intros [= ->]. left; reflexivity.
  - intros Hg. right. apply IH; exact Hg.
Qed.

Lemma dict_get_None {V} (d : dict V) (k : str) :
  dict_get d k = None -> ~ In k (map fst d).
Proof.
  induction d as [|[k' v'] d IH]; simpl; [tauto|].
  destruct (str_eqb k' k) eqn:E; [discriminate|].
  apply str_eqb_neq in E. intros Hg [Hk|Hk]; [congruence|].
  apply IH; assumption.
Qed.

Lemma In_dict_get {V} (d : dict V) (k : str) (v : V) :
  NoDup (map fst d) -> In (k, v) d -> dict_get d k = Some v.
Proof.
  induction d as [|[k' v'] d IH]; simpl; [tauto|].
  intros Hnd [Hin|Hin].
  - injection Hin as -> ->. rewrite str_eqb_refl. reflexivity.
  - inversion Hnd as [|? ? Hk Hnd']; subst.
    destruct (str_eqb k' k) eqn:E.
    + apply str_eqb_eq in E. subst. exfalso. apply Hk.
      apply list_elem_of_In. apply in_map_iff. exists (k, v). split; [reflexivity|exact Hin].
    + apply IH; assumption.
Qed.

Lemma dict_set_In {V} (d : dict V) (k : str) (v : V) (k' : str) (v' : V) :
  In (k', v') (dict_set d k v) -> (k' = k /\ v' = v) \/ In (k', v') d.
Proof.
  induction d as [|[k0 v0] d IH]; simpl.
  - intros [[= <- <-]|[]]. left; split; reflexivity.
  - destruct (str_eqb k0 k) eqn:E.
    + apply str_eqb_eq in E. subst.
      intros [[= <- <-]|Hin]; [left; split; reflexivity|right; right; exact Hin].
    + intros [Hin|Hin]; [right; left; exact Hin|].
      destruct (IH Hin) as [H1|H1]; [left; exact H1|right; right; exact H1].
Qed.

Lemma dict_set_keys {V} (d : dict V) (k : str) (v : V) :
  map fst (dict_set d k v)
  = if dict_has d k then map fst d else map fst d ++ [k].
Proof.
  unfold dict_has.
  induction d as [|[k0 v0] d IH]; simpl; [reflexivity|].
  destruct (str_eqb k0 k) eqn:E; simpl; [reflexivity|].
  rewrite IH. destruct (dict_get d k); reflexivity.
Qed.

Lemma dict_set_NoDup {V} (d : dict V) (k : str) (v : V) :
  NoDup (map fst d) -> NoDup (map fst (dict_set d k v)).
Proof.
  intros Hnd. rewrite dict_set_keys. unfold dict_has.
  destruct (dict_get d k) eqn:E; [exact Hnd|].
  apply dict_get_None in E.
  apply NoDup_app. split; [exact Hnd|]. split.
  - intros x Hx Hx'. apply list_elem_of_In in Hx, Hx'.
    destruct Hx' as [->|[]]. apply E; exact Hx.
  - apply NoDup_singleton.
Qed.

Lemma opens_comment_app (k t : str) :
  k <> [] -> opens_comment (k ++ t) = opens_comment k.
Proof. intros Hk. destruct k as [|c k]; [congruence|]. reflexivity. Qed.

Lemma item_line_nows (kv : str * option str) :
  item_ok kv -> nows (item_line kv) /\ item_line kv <> []
                /\ opens_comment (item_line kv) = false.
Proof.
  destruct kv as [k [v|]]; unfold item_ok, item_line; simpl;
    intros (Hk & Hnk & Hd & Hc & Hh & Hv).
  - split; [|split].
    + apply nows_app; [exact Hnk|]. constructor; [reflexivity|exact Hv].
    + destruct k; [congruence|discriminate].
    + change (k ++ "="%char :: v) with (k ++ ("="%char :: v)).
      rewrite opens_comment_app by exact Hk. exact Hc.
  - split; [exact Hnk|]. split; assumption.
Qed.

Lemma optcre_match_item (kv : str * option str) :
  item_ok kv -> optcre_match (item_line kv) = (fst kv, snd kv).
Proof.
  destruct kv as [k [v|]]; unfold item_ok, item_line; simpl;
    intros (Hk & Hnk & Hd & Hc & Hh & Hv).
  - apply (optcre_match_key_value k v); assumption.
  - apply optcre_match_key; assumption.
Qed.

Lemma reading_strip (ov : option str) :
  match ov with Some v => nows v | None => True end ->
  match ov with Some v => VList [strip v] | None => VNone end = reading ov.
Proof.
  destruct ov as [v|]; simpl; [|reflexivity].
  intros Hv. rewrite strip_nows by exact Hv. reflexivity.
Qed.

(** One option line read in the section [general]. *)
Lemma read_item_line (ln : nat) (kv : str * option str)
  (acc : dict (option str)) (ea : list element) (on : option str) :
  item_ok kv -> ~ In (fst kv) (map fst acc) -> covers ea acc ->
  read_line ln (item_line kv) (in_general acc ea on)
  = Ok (in_general (acc ++ [kv])
          (EOption (Some "general") (fst kv) :: ea) (Some (fst kv))).
Proof.
  intros Hok Hfresh Hcov.
  destruct (item_line_nows kv Hok) as (Hn & Hne & Hc).
  rewrite read_line_content by assumption.
  unfold read_header_or_option.
  pose proof Hok as (Hk & Hnk & Hd & Hck & Hh & Hv).
  rewrite Hh. cbn [cursect in_general].
  rewrite (optcre_match_item kv Hok).
  rewrite rstrip_nows by exact Hnk.
  cbn [sectname elements_added in_general].
  destruct (existsb (element_eqb (EOption (Some "general") (fst kv))) ea) eqn:Ee.
  { exfalso. apply Hfresh. apply Hcov. exact Ee. }
  rewrite (reading_strip (snd kv) Hv).
  destruct kv as [k ov]. cbn [fst snd] in *.
  destruct k as [|a k]; [congruence|].
  unfold in_general, with_locals, set_cur_dict, cur_dict. cbn.
  rewrite dict_set_fresh.
  - rewrite map_app. reflexivity.
  - rewrite map_map. exact Hfresh.
Qed.

Lemma covers_step (ea : list element) (acc : dict (option str))
  (kv : str * option str) :
  covers ea acc ->
  covers (EOption (Some "general") (fst kv) :: ea) (acc ++ [kv]).
Proof.
  intros Hcov k. simpl. rewrite map_app, in_app_iff. simpl.
  intros H. apply orb_true_iff in H as [H|H].
  - apply str_eqb_eq in H. right; left. symmetry; exact H.
  - left. apply Hcov; exact H.
Qed.

(** The option lines of [items] read in the section [general]. *)
Lemma read_items (items : dict (option str)) :
  forall (ln : nat) (acc : dict (option str)) (ea : list element)
         (on : option str),
    Forall item_ok items -> NoDup (map fst (acc ++ items)) -> covers ea acc ->
    exists ea',
      read_lines ln (map item_line items) (in_general acc ea on)
      = Ok (in_general (acc ++ items) ea' (optname_after items on))
      /\ covers ea' (acc ++ items).
Proof.
  induction items as [|kv items IH]; intros ln acc ea on Hok Hnd Hcov.
  - exists ea. rewrite app_nil_r. split; [reflexivity|exact Hcov].
  - inversion Hok as [|? ? Hkv Hok']; subst.
    assert (Hfresh : ~ In (fst kv) (map fst acc)).
    { rewrite map_app in Hnd. apply NoDup_app in Hnd as (_ & Hd & _).
      intros Hin. apply list_elem_of_In in Hin. apply (Hd _ Hin).
      simpl. left. }
    simpl. rewrite (read_item_line ln kv acc ea on Hkv Hfresh Hcov).
    destruct (IH (S ln) (acc ++ [kv])
                (EOption (Some "general") (fst kv) :: ea) (Some (fst kv)))
      as (ea' & Hr & Hc').
    + exact Hok'.
    + rewrite <- app_assoc. exact Hnd.
    + apply covers_step; exact Hcov.
    + exists ea'. rewrite <- app_assoc in Hr, Hc'. split; assumption.
Qed.

End ItemFacts.
(** ** Lines with a single token *)

Section KeywordFacts.
Import Par ParSpec.

Lemma read_header_general :
  read_line 1 ("[" ++ "general" ++ "]" ++ ["010"%char])
    (begin_read (ParConfigParser []))
  = Ok (in_general [] [ESection "general"] None).
Proof. reflexivity. Qed.

Lemma covers_start : covers [ESection "general"] [].
Proof. intros k H. simpl in H. discriminate H. Qed.

Lemma join_reading (items : dict (option str)) :
  Forall item_ok items ->
  join_dict (map (fun kv => (fst kv, reading (snd kv))) items) = items.
Proof.
  intros Hok. unfold join_dict. rewrite map_map.
  rewrite <- (map_id items) at 2.
  apply map_ext_Forall. eapply Forall_impl; [exact Hok|].
  intros [k ov] (_ & _ & _ & _ & _ & Hv). simpl in *.
  destruct ov as [v|]; simpl; [|reflexivity].
  rewrite rstrip_nows by exact Hv. reflexivity.
Qed.

(** Reading, in a parser without defaults, the header and then the option
    lines of [items]. *)
Lemma read_general_items (items : dict (option str)) :
  Forall item_ok items -> NoDup (map fst items) ->
  exists ea,
    read_lines 1 (("[" ++ "general" ++ "]" ++ ["010"%char])
                    :: map item_line items)
      (begin_read (ParConfigParser []))
    = Ok (in_general items ea (optname_after items None)).
Proof.
  intros Hok Hnd.
  destruct (read_items items 2 [] [ESection "general"] None Hok Hnd covers_start)
    as (ea & Hr & _).
  exists ea. cbn [read_lines]. rewrite read_header_general. exact Hr.
Qed.

(** C5 (as amended): a line that holds a single token is not refused.  A
    file made of such lines, the tokens distinct and each a plain key (no
    delimiter, not a comment, not a section header), is parsed without
    error into the record that gives every token no value. *)
Theorem keyword_lines_accepted (keys : list str) :
  NoDup keys ->
  Forall (fun k => item_ok (k, None)) keys ->
  Forall (fun k => split (keyword_line k) = [k]) keys
  /\ parse [] (map keyword_line keys)
     = Ok (mk_config [] [("general", map (fun k => (k, None)) keys)]).
Proof.
  intros Hnd Hok.
  assert (Htok : Forall (fun k => split (keyword_line k) = [k]) keys).
  { eapply Forall_impl; [exact Hok|]. intros k (Hk & Hnk & _).
    apply split_keyword; assumption. }
  split; [exact Htok|].
  set (items := map (fun k => (k, @None str)) keys).
  assert (Hitems : Forall item_ok items).
  { unfold items. apply Forall_map. exact Hok. }
  assert (Hkeys : map fst items = keys).
  { unfold items. rewrite map_map. simpl. apply map_id. }
  assert (Hlines : map (fun line => join "=" (take 2 (split line)))
                     (map keyword_line keys) = map item_line items).
  { unfold items. rewrite !map_map.
    apply map_ext_Forall. eapply Forall_impl; [exact Htok|].
    intros k Hs. cbv beta. rewrite Hs. reflexivity. }
  unfold parse, read_file, _read, par2ini. rewrite Hlines.
  destruct (read_general_items items Hitems) as (ea & Hr).
  { rewrite Hkeys. exact Hnd. }
  rewrite Hr. cbn [e in_general rs_defaults rs_sections map fst snd].
  rewrite (join_reading items Hitems). reflexivity.
Qed.

End KeywordFacts.
(** ** What a parsed record holds *)

Section InvariantFacts.
Import Par ParSpec.

Lemma dict_ok_nil (err : list (nat * str)) : dict_ok err [].
Proof. split; [constructor|]. intros k v []. Qed.

Lemma dict_ok_mono (err err' : list (nat * str)) (d : dict pval) :
  (err' = [] -> err = []) -> dict_ok err d -> dict_ok err' d.
Proof.
  intros Hm [Hnd He]. split; [exact Hnd|].
  intros k v Hin. destruct (He k v Hin) as [H1 H2]. split; auto.
Qed.

Lemma dict_ok_set (err : list (nat * str)) (d : dict pval) (k : str) (v : pval) :
  dict_ok err d -> (err = [] -> k <> []) -> entry_ok k v ->
  dict_ok err (dict_set d k v).
Proof.
  intros [Hnd He] Hk Hv. split; [apply dict_set_NoDup; exact Hnd|].
  intros k' v' Hin. apply dict_set_In in Hin as [[-> ->]|Hin]; auto.
Qed.

Lemma cur_section_ok (st : read_state) (s : str) :
  sections_ok st -> dict_ok (e st) (cur_dict st (CurSection s)).
Proof.
  intros Hst. unfold cur_dict.
  destruct (dict_get (rs_sections st) s) as [d|] eqn:E; simpl.
  - apply (Hst s). apply dict_get_In; exact E.
  - apply dict_ok_nil.
Qed.

(** Replacing the dictionary of one section by a good one. *)
Lemma sections_ok_set (secs : dict (dict pval)) (err : list (nat * str))
  (s : str) (d : dict pval) :
  (forall s' d', In (s', d') secs -> dict_ok err d') ->
  dict_ok err d ->
  forall s' d', In (s', d') (dict_set secs s d) -> dict_ok err d'.
Proof.
  intros Hs Hd s' d' Hin.
  apply dict_set_In in Hin as [[_ ->]|Hin]; [exact Hd|].
  apply (Hs s' d' Hin).
Qed.

Lemma entry_ok_append (k : str) (l : list str) :
  entry_ok k (VList l) -> entry_ok k (VList (l ++ [[]])).
Proof.
  intros (v0 & blanks & -> & Hb & H1 & H2 & H3 & H4 & H5).
  exists v0, (blanks ++ [[]]). split; [reflexivity|].
  split; [|tauto].
  apply Forall_app. split; [exact Hb|]. constructor; [reflexivity|constructor].
Qed.

Lemma append_blank_ok (st st' : read_state) (c : cursect_ref) (o : str) :
  sections_ok st -> append_to_option st c o [] = Ok st' -> sections_ok st'.
Proof.
  intros Hst. unfold append_to_option.
  destruct (dict_get (cur_dict st c) o) as [[| |l]|] eqn:Eg; try discriminate.
  intros [= <-].
  destruct c as [|s]; [exact Hst|].
  intros s' d' Hin. cbn in Hin |- *.
  revert s' d' Hin. apply sections_ok_set; [exact Hst|].
  pose proof (cur_section_ok st s Hst) as Hd.
  apply dict_get_In in Eg. destruct (proj2 Hd o (VList l) Eg) as [Hk He].
  apply dict_ok_set; [exact Hd|exact Hk|].
  apply entry_ok_append; exact He.
Qed.

Lemma read_blank_ok (ln : nat) (st st' : read_state) :
  sections_ok st -> read_line ln [] st = Ok st' -> sections_ok st'.
Proof.
  intros Hst. rewrite read_line_blank.
  destruct (cursect st) as [c|]; [|intros [= <-]; exact Hst].
  destruct (optname st) as [[|a o]|]; try (intros [= <-]; exact Hst).
  destruct (dict_get (cur_dict st c) (a :: o)) as [[| |l]|] eqn:Eg;
    try (intros [= <-]; exact Hst);
    apply append_blank_ok; exact Hst.
Qed.

Lemma read_header_ok (ln : nat) (s name : str) (st st' : read_state) :
  sections_ok st -> sect_header s = Some name ->
  read_header_or_option ln s s 0 st = Ok st' -> sections_ok st'.
Proof.
  intros Hst Hh. unfold read_header_or_option. rewrite Hh.
  destruct (dict_has (rs_sections st) name).
  - destruct (existsb _ _); [discriminate|]. intros [= <-]. exact Hst.
  - destruct (str_eqb name default_section).
    + intros [= <-]. exact Hst.
    + intros [= <-]. intros s' d' Hin. cbn in Hin |- *.
      revert s' d' Hin. apply sections_ok_set; [exact Hst|apply dict_ok_nil].
Qed.

Lemma read_option_ok (ln : nat) (s : str) (st st' : read_state) :
  sections_ok st -> nows s -> opens_comment s = false ->
  sect_header s = None ->
  read_header_or_option ln s s 0 st = Ok st' -> sections_ok st'.
Proof.
  intros Hst Hs Hc Hh. unfold read_header_or_option. rewrite Hh.
  destruct (cursect st) as [c|] eqn:Ec; [|discriminate].
  assert (Hcase : exists k ov, optcre_match s = (k, ov) /\ rstrip k = k
            /\ entry_ok k match ov with
                          | Some v => VList [strip v]
                          | None => VNone
                          end).
  { destruct (optcre_match_nows s Hs) as [[Hd Hm]|(k & v & E & Hk & Hv & Hd & Hm)].
    - exists s, None. split; [exact Hm|]. split; [apply rstrip_nows; exact Hs|].
      exact I.
    - exists k, (Some v). split; [exact Hm|].
      split; [apply rstrip_nows; exact Hk|].
      rewrite strip_nows by exact Hv.
      exists v, []. split; [reflexivity|]. split; [constructor|].
      split; [exact Hk|]. split; [exact Hd|].
      split.
      + destruct k as [|a k]; [reflexivity|].
        rewrite <- Hc, E. reflexivity.
      + split; [rewrite <- E; exact Hh|exact Hv]. }
  destruct Hcase as (k & ov & Hm & Hr & He). rewrite Hm, Hr.
  destruct (existsb _ _); [discriminate|]. intros [= <-].
  set (err := match k with [] => e st ++ [(ln, s)] | _ :: _ => e st end).
  assert (Hmono : err = [] -> e st = []).
  { unfold err. destruct k; [|tauto]. destruct (e st); discriminate. }
  assert (Hk : err = [] -> k <> []).
  { unfold err. destruct k; [|discriminate]. destruct (e st); discriminate. }
  assert (Hst1 : forall s' d', In (s', d') (rs_sections st) -> dict_ok err d').
  { intros s' d' Hin. apply (dict_ok_mono (e st)); [exact Hmono|].
    apply (Hst s' d' Hin). }
  destruct c as [|sec].
  - intros s' d' Hin. cbn in Hin |- *. apply (Hst1 s' d' Hin).
  - intros s' d' Hin. cbn in Hin |- *.
    revert s' d' Hin. apply sections_ok_set; [exact Hst1|].
    apply dict_ok_set; [|exact Hk|exact He].
    apply (dict_ok_mono (e st)); [exact Hmono|].
    apply (cur_section_ok st sec Hst).
Qed.

(** Reading a line without whitespace keeps the sections good. *)
Lemma read_line_ok (ln : nat) (s : str) (st st' : read_state) :
  nows s -> sections_ok st -> read_line ln s st = Ok st' -> sections_ok st'.
Proof.
  intros Hs Hst Hr.
  destruct s as [|c s]; [eapply read_blank_ok; eauto|].
  destruct (opens_comment (c :: s)) eqn:Ec.
  - rewrite read_line_comment in Hr by assumption.
    injection Hr as <-. exact Hst.
  - rewrite read_line_content in Hr by (assumption || discriminate).
    destruct (sect_header (c :: s)) as [name|] eqn:Eh.
    + eapply read_header_ok; eauto.
    + eapply read_option_ok; eauto.
Qed.

Lemma read_lines_ok (fp : list str) :
  forall (ln : nat) (st st' : read_state),
    Forall nows fp -> sections_ok st ->
    read_lines ln fp st = Ok st' -> sections_ok st'.
Proof.
  induction fp as [|s fp IH]; intros ln st st' Hfp Hst Hr; simpl in Hr.
  - injection Hr as <-. exact Hst.
  - inversion Hfp as [|? ? Hs Hfp']; subst.
    destruct (read_line ln s st) as [st1| |] eqn:E1; try discriminate.
    eapply IH; [exact Hfp'| |exact Hr].
    eapply read_line_ok; eauto.
Qed.

End InvariantFacts.
(** ** Writing a record and reading it again *)

Section RereadFacts.
Import Par ParSpec.

Lemma nows_nolf (s : str) : nows s -> nolf s.
Proof.
  unfold nows, nolf. intros Hs. eapply Forall_impl; [exact Hs|].
  intros c Hc. destruct (ascii_eqb c "010"%char) eqn:E; [|reflexivity].
  apply Ascii.eqb_eq in E. subst c. discriminate Hc.
Qed.

Lemma replace_newline_nolf (s : str) : nolf s -> replace_newline s = s.
Proof.
  induction 1 as [|c s Hc _ IH]; simpl; [reflexivity|].
  rewrite Hc, IH. reflexivity.
Qed.

Lemma lines_from_line (s : str) :
  forall cur rest, nolf s ->
    lines_from cur (s ++ "010"%char :: rest)
    = (rev cur ++ s ++ ["010"%char]) :: lines_from [] rest.
Proof.
  induction s as [|c s IH]; intros cur rest Hs; simpl.
  - reflexivity.
  - inversion Hs as [|? ? Hc Hs']; subst. rewrite Hc.
    rewrite IH by exact Hs'. simpl. rewrite <- app_assoc. reflexivity.
Qed.

Lemma lines_of_section (items : dict (option str)) :
  Forall (fun kv => nolf (body kv)) items ->
  lines_of (concat (map (fun kv => body kv ++ ["010"%char]) items)
              ++ ["010"%char])
  = map (fun kv => body kv ++ ["010"%char]) items ++ [["010"%char]].
Proof.
  unfold lines_of. induction 1 as [|kv items Hkv _ IH]; simpl; [reflexivity|].
  rewrite <- !app_assoc. simpl.
  rewrite (lines_from_line (body kv) [] _ Hkv). simpl.
  rewrite IH. reflexivity.
Qed.

Lemma write_general (items : dict (option str)) :
  write (mk_config [] [("general", items)])
  = concat (map (fun kv => body kv ++ ["010"%char]) items) ++ ["010"%char].
Proof.
  unfold write, _write_section. simpl. rewrite app_nil_r.
  f_equal. f_equal. apply map_ext. intros kv. unfold body.
  rewrite <- !app_assoc. reflexivity.
Qed.

Lemma body_valued (k v : str) :
  nows v -> body (k, Some v) = k ++ " " ++ v.
Proof.
  intros Hv. unfold body; simpl.
  rewrite replace_newline_nolf by (apply nows_nolf; exact Hv). reflexivity.
Qed.

Lemma body_nolf (kv : str * option str) :
  item_ok kv -> valued kv -> nolf (body kv).
Proof.
  destruct kv as [k ov]. intros (_ & Hk & _ & _ & _ & Hv) (v & E & _).
  cbn [fst snd] in *. subst ov. rewrite body_valued by exact Hv.
  apply Forall_app. split; [apply nows_nolf; exact Hk|].
  constructor; [reflexivity|apply nows_nolf; exact Hv].
Qed.

Lemma par2ini_body (kv : str * option str) :
  item_ok kv -> valued kv ->
  join "=" (take 2 (split (body kv ++ ["010"%char]))) = item_line kv.
Proof.
  destruct kv as [k ov]. intros (Hk & Hnk & _ & _ & _ & Hv) (v & E & Hne).
  cbn [fst snd] in *. subst ov. rewrite body_valued by exact Hv.
  assert (Ea : (k ++ " " ++ v) ++ ["010"%char] = k ++ " " ++ v ++ LF)
    by (unfold LF; rewrite <- !app_assoc; reflexivity).
  rewrite Ea, (split_key_value k v Hk Hne Hnk Hv). reflexivity.
Qed.

Lemma read_lines_app (l1 l2 : list str) :
  forall (ln : nat) (st st1 : read_state),
    read_lines ln l1 st = Ok st1 ->
    read_lines ln (l1 ++ l2) st = read_lines (ln + length l1) l2 st1.
Proof.
  induction l1 as [|s l1 IH]; intros ln st st1 Hr; simpl in *.
  - injection Hr as <-. rewrite Nat.add_0_r. reflexivity.
  - destruct (read_line ln s st) as [st'| |]; try discriminate.
    rewrite (IH (S ln) st' st1 Hr). f_equal. lia.
Qed.

Lemma join_dict_set (d : dict pval) (k : str) (pv pv' : pval) :
  dict_get d k = Some pv -> join_value pv' = join_value pv ->
  join_dict (dict_set d k pv') = join_dict d.
Proof.
  intros Hg Hj. unfold join_dict.
  induction d as [|[k0 v0] d IH]; cbn [dict_get dict_set] in *; [discriminate|].
  destruct (str_eqb k0 k) eqn:E; cbn [map fst snd].
  - injection Hg as ->. rewrite Hj. reflexivity.
  - rewrite IH by exact Hg. reflexivity.
Qed.

Lemma lstrip_spaces (w s : str) :
  Forall (fun c => isspace c = true) w -> lstrip (w ++ s) = lstrip s.
Proof.
  induction 1 as [|c w Hc _ IH]; simpl; [reflexivity|].
  rewrite Hc. exact IH.
Qed.

Lemma rstrip_spaces (s w : str) :
  nows s -> Forall (fun c => isspace c = true) w -> rstrip (s ++ w) = s.
Proof.
  intros Hs Hw. unfold rstrip. rewrite rev_app_distr.
  rewrite lstrip_spaces by (apply Forall_rev; exact Hw).
  rewrite lstrip_nows by (apply nows_rev; exact Hs).
  apply rev_involutive.
Qed.

Lemma join_blanks (blanks : list str) :
  Forall (fun b => b = []) blanks ->
  forall v0, exists w,
    join ["010"%char] (v0 :: blanks) = v0 ++ w
    /\ Forall (fun c => isspace c = true) w.
Proof.
  induction 1 as [|b blanks -> _ IH]; intros v0.
  - exists []. simpl. rewrite app_nil_r. split; [reflexivity|constructor].
  - destruct (IH []) as (w & Hw & Hsp).
    exists ("010"%char :: w). split.
    + change (join ["010"%char] (v0 :: [] :: blanks))
        with (v0 ++ ["010"%char] ++ join ["010"%char] ([] :: blanks)).
      f_equal. cbn [app]. f_equal. exact Hw.
    + constructor; [reflexivity|exact Hsp].
Qed.

Lemma rstrip_join_blanks (v0 : str) (blanks : list str) :
  nows v0 -> Forall (fun b => b = []) blanks ->
  rstrip (join ["010"%char] (v0 :: blanks)) = v0.
Proof.
  intros Hv Hb. destruct (join_blanks blanks Hb v0) as (w & -> & Hw).
  apply rstrip_spaces; assumption.
Qed.

Lemma optname_after_last (items : dict (option str)) (kv : str * option str)
  (on : option str) :
  optname_after (items ++ [kv]) on = Some (fst kv).
Proof. unfold optname_after. rewrite fold_left_app. reflexivity. Qed.

Lemma blank_appends (ln : nat) (st : read_state) (c : cursect_ref)
  (a : ascii) (o : str) (l : list str) :
  cursect st = Some c -> optname st = Some (a :: o) ->
  dict_get (cur_dict st c) (a :: o) = Some (VList l) ->
  read_line ln [] st
  = Ok (set_cur_dict st c
          (dict_set (cur_dict st c) (a :: o) (VList (l ++ [[]])))).
Proof.
  intros Hc Ho Hg. rewrite read_line_blank, Hc, Ho, Hg.
  unfold append_to_option. rewrite Hg. reflexivity.
Qed.

(** The empty line that ends the written text leaves the record as it is. *)
Lemma read_last_blank (ln : nat) (items : dict (option str))
  (ea : list element) :
  Forall item_ok items -> Forall valued items -> NoDup (map fst items) ->
  exists st',
    read_line ln [] (in_general items ea (optname_after items None)) = Ok st'
    /\ e st' = [] /\ rs_defaults st' = []
    /\ map (fun sd => (fst sd, join_dict (snd sd))) (rs_sections st')
       = [("general", items)].
Proof.
  intros Hok Hval Hnd.
  destruct items as [|kv items _] using rev_ind.
  - eexists. split; [reflexivity|]. repeat split.
  - rewrite optname_after_last.
    pose proof Hok as Hall.
    apply Forall_app in Hok as [_ Hkv]. apply Forall_app in Hval as [_ Hv].
    inversion Hkv as [|? ? Hkv' _]; subst. inversion Hv as [|? ? Hv' _]; subst.
    destruct kv as [k ov]. destruct Hv' as (v & E & Hne).
    cbn [fst snd] in *. subst ov.
    pose proof Hkv' as (Hk & Hnk & _ & _ & _ & Hnv). cbn [fst snd] in Hk, Hnk, Hnv.
    destruct k as [|a o]; [congruence|].
    set (D := map (fun kv => (fst kv, reading (snd kv)))
                (items ++ [(a :: o, Some v)])).
    assert (Hg : dict_get D (a :: o) = Some (VList [v])).
    { apply In_dict_get.
      - unfold D. rewrite map_map. exact Hnd.
      - unfold D. apply in_map_iff. exists (a :: o, Some v).
        split; [reflexivity|]. apply in_app_iff. right. left. reflexivity. }
    eexists. split.
    { apply (blank_appends ln _ (CurSection "general") a o [v]);
        [reflexivity|reflexivity|exact Hg]. }
    split; [reflexivity|]. split; [reflexivity|].
    cbn [rs_sections set_cur_dict in_general dict_set str_eqb ascii_eqb
         Ascii.eqb Bool.eqb andb map fst snd].
    f_equal. f_equal.
    change (cur_dict (in_general (items ++ [(a :: o, Some v)]) ea
                        (Some (a :: o))) (CurSection "general")) with D.
    rewrite (join_dict_set D (a :: o) (VList [v]) _ Hg).
    + unfold D. apply join_reading. exact Hall.
    + unfold join_value. f_equal. transitivity v.
      * apply (rstrip_join_blanks v [[]] Hnv).
        constructor; [reflexivity|constructor].
      * symmetry. apply (rstrip_join_blanks v [] Hnv). constructor.
Qed.

End RereadFacts.
(** ** The round trip *)

Section RoundTrip.
Import Par ParSpec.

(** A record with the one section [general], good options and no defaults
    is read back from the text written for it. *)
Lemma reread_general (items : dict (option str)) :
  Forall item_ok items -> Forall valued items -> NoDup (map fst items) ->
  parse [] (lines_of (serialize (mk_config [] [("general", items)])))
  = Ok (mk_config [] [("general", items)]).
Proof.
  intros Hok Hval Hnd.
  assert (Hboth : Forall (fun kv => item_ok kv /\ valued kv) items).
  { apply Forall_and; split; assumption. }
  unfold serialize. rewrite write_general.
  rewrite lines_of_section
    by (eapply Forall_impl; [exact Hboth|]; intros kv [H1 H2];
        apply body_nolf; assumption).
  unfold parse, read_file, _read, par2ini.
  rewrite map_app, map_map.
  assert (Hlines : map (fun kv => join "=" (take 2 (split (body kv ++ ["010"%char]))))
                     items = map item_line items).
  { apply map_ext_Forall. eapply Forall_impl; [exact Hboth|].
    intros kv [H1 H2]. apply par2ini_body; assumption. }
  rewrite Hlines.
  change (map (fun line => join "=" (take 2 (split line))) [["010"%char]])
    with [@nil ascii].
  destruct (read_general_items items Hok Hnd) as (ea & Hr).
  match goal with
  | |- context [read_lines 1 ?l ?s] =>
      replace (read_lines 1 l s)
        with (read_lines
                (1 + length (("[" ++ "general" ++ "]" ++ ["010"%char])
                               :: map item_line items)) [[]]
                (in_general items ea (optname_after items None)))
        by (symmetry;
            exact (read_lines_app
                     (("[" ++ "general" ++ "]" ++ ["010"%char])
                        :: map item_line items) [[]] 1 _ _ Hr))
  end.
  cbn [read_lines].
  destruct (read_last_blank (1 + length (("[" ++ "general" ++ "]" ++ ["010"%char])
                                           :: map item_line items))
              items ea Hok Hval Hnd) as (st' & Hb & He & Hd & Hs).
  rewrite Hb, He, Hd, Hs. reflexivity.
Qed.

Lemma join_dict_keys (d : dict pval) : map fst (join_dict d) = map fst d.
Proof. unfold join_dict. rewrite map_map. reflexivity. Qed.

(** An entry read from lines without whitespace that holds a value is a
    good option. *)
Lemma entry_item_ok (k : str) (pv : pval) (t : str) :
  k <> [] -> entry_ok k pv -> join_value pv = Some t -> item_ok (k, Some t).
Proof.
  intros Hk He Hj. destruct pv as [|s|l]; cbn [entry_ok] in He;
    [discriminate|tauto|].
  destruct He as (v0 & blanks & -> & Hb & H1 & H2 & H3 & H4 & H5).
  cbn [join_value] in Hj. injection Hj as <-.
  pose proof (rstrip_join_blanks v0 blanks H5 Hb) as E.
  change (item_ok (k, Some (rstrip (join ["010"%char] (v0 :: blanks))))).
  rewrite E.
  repeat split; assumption.
Qed.

(** The state in which a parser without defaults has read its header. *)
Lemma in_general_ok : sections_ok (in_general [] [ESection "general"] None).
Proof.
  intros s d [[= <- <-]|[]]. apply dict_ok_nil.
Qed.

(** C4 (as amended): for a parser without defaults, whenever a text is
    parsed into a record that has no defaults, the one section [general]
    and a value that is not empty for every key, then serializing the
    record and parsing the result gives the same record again. *)
Theorem parse_serialize_parse (f : list str) (record : config)
  (items : dict (option str)) :
  parse [] f = Ok record ->
  cfg_defaults record = [] ->
  cfg_sections record = [("general", items)] ->
  (forall k v, In (k, v) items -> exists t, v = Some t /\ t <> []) ->
  parse [] (lines_of (serialize record)) = Ok record.
Proof.
  intros Hparse Hdef Hsec Hval.
  unfold parse, read_file, _read, par2ini in Hparse.
  cbn [read_lines] in Hparse. rewrite read_header_general in Hparse.
  destruct (read_lines 2 _ _) as [st| |] eqn:Hr; try discriminate.
  assert (Hst : sections_ok st).
  { eapply read_lines_ok; [|exact in_general_ok|exact Hr].
    apply Forall_map. apply Forall_forall. intros line _.
    apply par2ini_line_nows. }
  destruct (e st) eqn:He; [|discriminate].
  injection Hparse as <-. cbn [cfg_defaults cfg_sections] in Hdef, Hsec.
  destruct (rs_sections st) as [|[s d] [|sd secs]] eqn:Es; try discriminate.
  cbn [map fst snd] in Hsec. injection Hsec as -> Hitems.
  assert (Hd : dict_ok [] d).
  { rewrite <- He. apply (Hst "general"). rewrite Es. left. reflexivity. }
  destruct Hd as [Hnd Hentries].
  assert (Hok : Forall item_ok items /\ Forall valued items).
  { apply Forall_and. apply List.Forall_forall. intros [k ov] Hin.
    destruct (Hval k ov Hin) as (t & -> & Hne).
    rewrite <- Hitems in Hin. unfold join_dict in Hin.
    apply in_map_iff in Hin as ([k' pv] & [= -> Hj] & Hin').
    destruct (Hentries k pv Hin') as [Hk He'].
    split.
    - apply (entry_item_ok k pv t (Hk eq_refl) He' Hj).
    - exists t. split; [reflexivity|exact Hne]. }
  destruct Hok as [Hok Hvalued].
  cbn [cfg_defaults] in Hdef. rewrite Hdef.
  cbn [map fst snd]. rewrite Hitems.
  apply reread_general; [exact Hok|exact Hvalued|].
  rewrite <- Hitems, join_dict_keys. exact Hnd.
Qed.

End RoundTrip.
(** ** More on attribute names and masks *)

Section MoreAttributeFacts.
Import Par Lfp.

Lemma contains_rev (c : ascii) (s : str) :
  contains c (rev s) = contains c s.
Proof.
  unfold contains. induction s as [|a s IH]; simpl; [reflexivity|].
  rewrite existsb_app, IH. simpl. rewrite orb_false_r. apply orb_comm.
Qed.

Lemma split_on_from_pieces (sep : ascii) (s : str) :
  forall cur, contains sep cur = false ->
    Forall (fun piece => contains sep piece = false) (split_on_from sep cur s).
Proof.
  induction s as [|c s IH]; intros cur Hcur; simpl.
  - constructor; [|constructor].
    rewrite contains_rev. exact Hcur.
  - destruct (ascii_eqb c sep) eqn:Ec.
    + constructor; [|apply IH; reflexivity].
      rewrite contains_rev. exact Hcur.
    + apply IH. unfold contains in *. simpl.
      unfold ascii_eqb in *. rewrite Ascii.eqb_sym, Ec. exact Hcur.
Qed.

Lemma split_on_pieces (sep : ascii) (s : str) :
  Forall (fun piece => contains sep piece = false) (split_on sep s).
Proof. apply split_on_from_pieces. reflexivity. Qed.

(** The name that [get_attribute_value] and [set_attribute_value] hand on
    is always the header [general], one colon and a part without colon;
    normalising such a name again leaves it as it is. *)
Theorem attribute_key_normal_form (name : str) :
  exists part,
    attribute_key name = "general:" ++ part
    /\ contains ":"%char part = false
    /\ attribute_key (attribute_key name) = attribute_key name.
Proof.
  assert (Hidem : forall part, contains ":"%char part = false ->
            attribute_key ("general:" ++ part) = "general:" ++ part).
  { intros part Hp.
    change ("general:" ++ part) with ("general" ++ ":" ++ part).
    rewrite attribute_key_prefixed by reflexivity.
    rewrite split_on_last by exact Hp. reflexivity. }
  assert (Hform : exists part,
            attribute_key name = "general:" ++ part
            /\ contains ":"%char part = false).
  { unfold attribute_key.
    destruct (contains ":"%char name) eqn:Hc; cbn [negb].
    - pose proof (split_on_pieces ":"%char name) as Hall.
      exists (default [] (split_on ":"%char name !! 1%nat)).
      split; [reflexivity|].
      destruct (split_on ":"%char name !! 1%nat) as [p|] eqn:E; [|reflexivity].
      simpl. rewrite List.Forall_forall in Hall. apply Hall.
      apply list_elem_of_In. eapply list_elem_of_lookup_2; exact E.
    - exists name. split; [reflexivity|exact Hc]. }
  destruct Hform as (part & E & Hp).
  exists part. split; [exact E|]. split; [exact Hp|].
  rewrite E. apply Hidem; exact Hp.
Qed.

End MoreAttributeFacts.

Section MoreMaskFacts.
Import Np Mask.

(** Both faces of a valid cell are valid: where the grid mask is true at
    (i, j), the mask of [Qx]/[QxSGold] is true at (i, j) and (i, j+1), and
    the mask of [Qy]/[QySGold] is true at (i, j) and (i+1, j). *)
Theorem get_mask_faces (g : ndarray bool) (name : str) (i j : nat) :
  wf g -> item g i j = Some true ->
  (name = "Qx" \/ name = "QxSGold" ->
   exists m, get_mask g name = Some m
     /\ item m i j = Some true /\ item m i (j + 1) = Some true)
  /\ (name = "Qy" \/ name = "QySGold" ->
   exists m, get_mask g name = Some m
     /\ item m i j = Some true /\ item m (i + 1) j = Some true).
Proof.
  intros Hwf Hij.
  destruct (item_Some_lt g i j true Hwf Hij) as [Hi Hj].
  assert (Hc : cell g i j = true) by (apply cell_true; exact Hij).
  split; intros Hn.
  - rewrite (get_mask_rows g name Hn). eexists; split; [reflexivity|].
    split.
    + rewrite item_astype_convolve by (simpl; lia). f_equal.
      rewrite convolve2d_cell_horizontal, !getz_vstack_zeros by assumption.
      rewrite Hc. destruct (1 <=? j)%nat.
      * rewrite nonzero_sum_of_bools. reflexivity.
      * reflexivity.
    + rewrite item_astype_convolve by (simpl; lia). f_equal.
      rewrite convolve2d_cell_horizontal, !getz_vstack_zeros by assumption.
      replace (1 <=? j + 1)%nat with true by (symmetry; apply Nat.leb_le; lia).
      replace (j + 1 - 1)%nat with j by lia.
      rewrite nonzero_sum_of_bools, Hc. apply orb_true_r.
  - rewrite (get_mask_cols g name Hn). eexists; split; [reflexivity|].
    split.
    + rewrite item_astype_convolve by (simpl; lia). f_equal.
      rewrite convolve2d_cell_vertical, !getz_hstack_zeros by assumption.
      rewrite Hc. destruct (1 <=? i)%nat.
      * rewrite nonzero_sum_of_bools. reflexivity.
      * reflexivity.
    + rewrite item_astype_convolve by (simpl; lia). f_equal.
      rewrite convolve2d_cell_vertical, !getz_hstack_zeros by assumption.
      replace (1 <=? i + 1)%nat with true by (symmetry; apply Nat.leb_le; lia).
      replace (i + 1 - 1)%nat with i by lia.
      rewrite nonzero_sum_of_bools, Hc. apply orb_true_r.
Qed.

End MoreMaskFacts.
(** ** More on variable exchange *)

Section MoreVariableFacts.
Import Np Par Mask Lfp LfpSpec.
Context {engine num elt : Type}.
Context `{!PyLib num elt} `{!BMIWrapper engine num elt} `{!Glib}.

Local Abbreviation LFP := (LFP engine elt).

Lemma item_zip_array_inv {A B C} (f : A -> B -> C) (a : ndarray A)
  (b : ndarray B) (i j : nat) (z : C) :
  item (zip_array f a b) i j = Some z ->
  exists x y, item a i j = Some x /\ item b i j = Some y /\ z = f x y.
Proof.
  unfold item, zip_array; simpl. rewrite lookup_zip_with.
  destruct (data a !! i) as [ra|]; [|discriminate].
  destruct (data b !! i) as [rb|]; [|discriminate]. simpl.
  rewrite lookup_zip_with.
  destruct (ra !! j) as [x|]; [|discriminate].
  destruct (rb !! j) as [y|]; [|discriminate]. simpl.
  intros [= <-]. exists x, y. repeat split.
Qed.

Lemma edge_mask_shape (g : ndarray bool) (name : str) :
  str_in name ["Qx"; "QxSGold"; "Qy"; "QySGold"] = true ->
  exists m, get_mask g name = Some m
            /\ shape m = (nrows g + 1, ncols g + 1)%nat.
Proof.
  intros Hn. unfold str_in in Hn. simpl in Hn.
  repeat (apply orb_true_iff in Hn as [Hn|Hn]); try discriminate;
    apply str_eqb_eq in Hn; subst name.
  - rewrite (get_mask_rows g "Qx") by auto. eexists; split; [reflexivity|].
    unfold shape; simpl. f_equal; lia.
  - rewrite (get_mask_rows g "QxSGold") by auto. eexists; split; [reflexivity|].
    unfold shape; simpl. f_equal; lia.
  - rewrite (get_mask_cols g "Qy") by auto. eexists; split; [reflexivity|].
    unfold shape; simpl. f_equal; lia.
  - rewrite (get_mask_cols g "QySGold") by auto. eexists; split; [reflexivity|].
    unfold shape; simpl. f_equal; lia.
Qed.

(** [get_value] on an edge variable ([Qx], [QxSGold], [Qy], [QySGold])
    whose engine array has the shape of the grid raises [IndexError] and
    leaves the model as it is: the mask of such a variable is one row and
    one column larger than the grid. *)
Theorem get_value_edge_variable_grid_shape (s : LFP) (name : str)
  (g : ndarray bool) (buf : ndarray elt) (lb : loc) :
  grid s = Some g -> (0 < nrows g)%nat -> (0 < ncols g)%nat ->
  str_in name ["Qx"; "QxSGold"; "Qy"; "QySGold"] = true ->
  bmi_get_var (_bmi s) name = Some lb -> arrays s !! lb = Some buf ->
  shape buf = shape g ->
  get_value name s = (Raise IndexError, s).
Proof.
  intros Hg _ _ Hn Hlb Hbuf Hs.
  destruct (edge_mask_shape g name Hn) as (m & Hm & Hms).
  unfold get_value. unfold bind at 1.
  rewrite (engine_var_ok s name lb buf Hlb Hbuf).
  unfold bind at 1. rewrite (LFP_get_mask_ok s name g m Hg Hm).
  cbn [snd].
  assert (E : shape_eqb m buf = false).
  { destruct (shape_eqb m buf) eqn:E; [|reflexivity].
    apply shape_eqb_eq in E. rewrite Hms, Hs in E.
    unfold shape in E. injection E as E1 E2. lia. }
  rewrite E. reflexivity.
Qed.

(** [set_value] keeps not-a-number out of the model domain: when 0 is a
    number and a cast keeps numbers numbers, the engine's array afterwards
    holds a number wherever the mask is true, and everywhere if the fill
    value is a number too. *)
Theorem set_value_no_nan_in_domain (s : LFP) (name : str) (src : loc)
  (fill_value : elt) (g mask : ndarray bool) (src_array buf : ndarray elt)
  (lb : loc) :
  isnan zero = false ->
  (forall x, isnan x = false -> isnan (astype (get_var_type name) x) = false) ->
  grid s = Some g -> get_mask g name = Some mask ->
  arrays s !! src = Some src_array ->
  bmi_get_var (_bmi s) name = Some lb -> arrays s !! lb = Some buf ->
  shape src_array = shape mask -> shape buf = shape mask ->
  exists (s1 : LFP) (buf' : ndarray elt),
    set_value name src fill_value s = (Ok tt, s1)
    /\ arrays s1 !! lb = Some buf'
    /\ forall i j x, item buf' i j = Some x ->
         (item mask i j = Some true -> isnan x = false)
         /\ (isnan fill_value = false -> isnan x = false).
Proof.
  intros Hz Hcast Hg Hm Hsrc Hlb Hbuf Hs1 Hs2.
  eexists. eexists.
  split; [exact (set_value_runs s name src fill_value g mask src_array buf lb
                   Hg Hm Hsrc Hlb Hbuf Hs1 Hs2)|].
  split; [simpl; apply lookup_insert_eq|].
  intros i j x Hx. unfold cast_src in Hx. rewrite item_map_array in Hx.
  destruct (item (sanitized_src mask src_array) i j) as [y|] eqn:Ey;
    [|discriminate].
  simpl in Hx. injection Hx as <-.
  unfold sanitized_src in Ey.
  apply item_zip_array_inv in Ey as (m & x0 & Hmi & Hx0 & ->).
  split.
  - intros Hmt. rewrite Hmi in Hmt. injection Hmt as ->. simpl.
    destruct (isnan x0) eqn:En.
    + rewrite Hz. apply Hcast; exact Hz.
    + rewrite En. apply Hcast; exact En.
  - intros Hf. apply Hcast.
    destruct (m && isnan x0) eqn:Em.
    + rewrite Hz. exact Hz.
    + destruct (isnan x0) eqn:En; [exact Hf|exact En].
Qed.

End MoreVariableFacts.
(** ** More on time control *)

Section MoreTimeFacts.
Import Np Par Mask Lfp LfpSpec TimeSpec.
Context {engine num elt : Type}.
Context `{!PyLib num elt} `{!BMIWrapper engine num elt} `{!Glib}.

Local Abbreviation LFP := (LFP engine elt).

Lemma advance_synced (s : LFP) : synced (advance s).
Proof. unfold synced, advance. reflexivity. Qed.

Lemma advance_progress (d : timedelta) (s : LFP) :
  engine_progress d -> synced s -> (_t s + d <= _t (advance s))%Z.
Proof.
  intros Hp Hs. rewrite (advance_synced s), Hs.
  destruct (advance_fields s) as (_ & -> & _).
  unfold advance. cbn [_bmi set_t].
  destruct (native_step_fields s) as (_ & _ & _ & _ & _ & _ & ->).
  pose proof (Hp (_bmi s) (arrays s)). lia.
Qed.

Lemma advance_step_progress (d : timedelta) (s : LFP) :
  engine_progress d ->
  (_startTime s + timedelta_of_seconds (bmi_get_current_time (_bmi s)) + d
   <= _t (advance s))%Z.
Proof.
  intros Hp. rewrite (advance_synced s).
  destruct (advance_fields s) as (_ & -> & _).
  unfold advance. cbn [_bmi set_t].
  destruct (native_step_fields s) as (_ & _ & _ & _ & _ & _ & ->).
  pose proof (Hp (_bmi s) (arrays s)). lia.
Qed.

(** From a state whose cached time is the engine's, the loop of [update]
    ends within [m] turns if [m] steps of progress reach the target. *)
Lemma update_loop_ends (d : timedelta) (m : nat) :
  forall (fuel : nat) (t_next : datetime) (i : nat) (s : LFP),
    initialized s = true -> synced s -> engine_progress d -> (0 <= d)%Z ->
    (m <= fuel)%nat ->
    (t_next <= _t s + Z.of_nat m * d)%Z ->
    exists n, (n <= m)%nat
      /\ update_loop fuel t_next i s = (Ok (i + n)%nat, after n s)
      /\ (t_next <= _t (after n s))%Z
      /\ synced (after n s).
Proof.
  induction m as [|m IH]; intros fuel t_next i s Hi Hs Hp Hd Hf Hb.
  - exists 0%nat. split; [lia|].
    assert (E : update_loop fuel t_next i s = (Ok i, s)).
    { destruct fuel; simpl; destruct (Z.ltb_spec (_t s) t_next);
        try lia; reflexivity. }
    rewrite E, Nat.add_0_r. change (after 0 s) with s.
    split; [reflexivity|]. split; [lia|exact Hs].
  - destruct fuel as [|fuel]; [lia|].
    simpl. destruct (Z.ltb_spec (_t s) t_next) as [Hlt|Hge].
    + rewrite loop_body_initialized by exact Hi.
      destruct (IH fuel t_next (S i) (advance s)) as (n & Hn & Hr & Ht & Hsy).
      * destruct (advance_fields s) as (-> & _); exact Hi.
      * apply advance_synced.
      * exact Hp.
      * exact Hd.
      * lia.
      * pose proof (advance_progress d s Hp Hs). lia.
      * exists (S n). split; [lia|]. rewrite after_S.
        split; [rewrite Hr; f_equal; f_equal; lia|].
        split; [exact Ht|exact Hsy].
    + exists 0%nat. split; [lia|]. rewrite Nat.add_0_r.
      change (after 0 s) with s.
      split; [reflexivity|]. split; [exact Hge|exact Hs].
Qed.

Lemma update_ends (s : LFP) (dt : option num)
  (d : timedelta) (n fuel : nat) :
  initialized s = true ->
  (_t s < _endTime s)%Z ->
  engine_progress d -> (0 < d)%Z ->
  (step_duration dt s <= Z.of_nat n * d)%Z ->
  (n < fuel)%nat ->
  exists k, (k <= n + 1)%nat
    /\ update fuel dt s
       = (Ok tt, log (LogUpdated (_t (after k s)) k) (after k s))
    /\ (_startTime s + timedelta_of_seconds (bmi_get_current_time (_bmi s))
        + step_duration dt s <= _t (after k s))%Z
    /\ (synced s -> synced (after k s)).
Proof.
  intros Hi Hend Hp Hd Hstep Hfuel.
  set (target := (_startTime s
                  + timedelta_of_seconds (bmi_get_current_time (_bmi s))
                  + step_duration dt s)%Z).
  assert (Hloop : exists k, (k <= n + 1)%nat
            /\ update_loop fuel target 0 s = (Ok k, after k s)
            /\ (target <= _t (after k s))%Z
            /\ (synced s -> synced (after k s))).
  { destruct fuel as [|fuel]; [lia|]. simpl.
    destruct (Z.ltb_spec (_t s) target) as [Hlt|Hge].
    - rewrite loop_body_initialized by exact Hi.
      destruct (update_loop_ends d n fuel target 1 (advance s))
        as (k & Hk & Hr & Ht & Hsy).
      + destruct (advance_fields s) as (-> & _); exact Hi.
      + apply advance_synced.
      + exact Hp.
      + lia.
      + lia.
      + pose proof (advance_step_progress d s Hp). unfold target. nia.
      + exists (S k). split; [lia|]. rewrite after_S.
        split; [rewrite Hr; reflexivity|]. split; [exact Ht|].
        intros _. exact Hsy.
    - exists 0%nat. split; [lia|]. split; [reflexivity|].
      split; [exact Hge|]. intros Hs. exact Hs. }
  destruct Hloop as (k & Hk & Hr & Ht & Hsy).
  exists k. split; [exact Hk|]. split; [|split; [exact Ht|exact Hsy]].
  unfold update. run_gets. run_gets.
  destruct (Z.leb_spec (_endTime s) (_t s)); [lia|].
  run_gets. unfold bind at 1.
  rewrite get_current_time_initialized by exact Hi.
  unfold bind at 1.
  assert (Et : (_startTime s + timedelta_of_seconds (bmi_get_current_time (_bmi s))
               + match dt with
                 | Some d0 => if negb (num_eqb d0 (total_seconds (_dt s)))
                              then timedelta_of_seconds d0 else _dt s
                 | None => _dt s
                 end)%Z = target).
  { unfold target, step_duration. destruct dt as [d0|]; [|reflexivity].
    destruct (num_eqb d0 (total_seconds (_dt s))); reflexivity. }
  match goal with
  | |- context [update_loop fuel ?x 0 s] =>
      replace x with target by (symmetry; exact Et)
  end.
  rewrite Hr. unfold bind, gets, modify. simpl. reflexivity.
Qed.

(** [update] ends when the engine makes progress: if every native step
    moves the engine's clock on by at least [d > 0] and [n] such steps cover
    the step duration, then [update(dt)] with fuel above [n] returns after
    at most [n + 1] native steps, with the current time at or beyond the
    target, and logs the count. *)
Theorem update_ends_under_progress (s : LFP) (dt : option num)
  (d : timedelta) (n fuel : nat) :
  initialized s = true ->
  (_t s < _endTime s)%Z ->
  engine_progress d -> (0 < d)%Z ->
  (step_duration dt s <= Z.of_nat n * d)%Z ->
  (n < fuel)%nat ->
  exists k, (k <= n + 1)%nat
    /\ update fuel dt s
       = (Ok tt, log (LogUpdated (_t (after k s)) k) (after k s))
    /\ (_startTime s + timedelta_of_seconds (bmi_get_current_time (_bmi s))
        + step_duration dt s <= _t (after k s))%Z.
Proof.
  intros Hi Hend Hp Hd Hstep Hfuel.
  destruct (update_ends s dt d n fuel Hi Hend Hp Hd Hstep Hfuel)
    as (k & Hk & Hr & Ht & _).
  exists k. split; [exact Hk|]. split; [exact Hr|exact Ht].
Qed.

Lemma step_duration_fields (dt : option num) (s s' : LFP) :
  _dt s' = _dt s -> step_duration dt s' = step_duration dt s.
Proof. intros E. unfold step_duration. rewrite E. reflexivity. Qed.

(** The loop of [update_until] ends when every [update] moves the current
    time on by a positive step duration. *)
Lemma update_until_loop_ends (d : timedelta) (n_in fuel : nat)
  (t : datetime) (dt : option num) (m : nat) :
  forall (n : nat) (s : LFP),
    initialized s = true -> synced s -> (t <= _endTime s)%Z ->
    engine_progress d -> (0 < d)%Z ->
    (0 < step_duration dt s)%Z ->
    (step_duration dt s <= Z.of_nat n_in * d)%Z ->
    (n_in < fuel)%nat -> (m <= n)%nat ->
    (t - _t s <= Z.of_nat m * step_duration dt s)%Z ->
    exists s', update_until_loop fuel n t dt s = (Ok tt, s')
      /\ (t <= _t s')%Z /\ initialized s' = true
      /\ _startTime s' = _startTime s /\ _endTime s' = _endTime s.
Proof.
  induction m as [|m IH]; intros n s Hi Hs Hend Hp Hd Hpos Hstep Hfuel Hn Hb.
  - exists s.
    assert (E : update_until_loop fuel n t dt s = (Ok tt, s)).
    { destruct n; simpl; destruct (Z.ltb_spec (_t s) t); try lia; reflexivity. }
    rewrite E. repeat split; auto. lia.
  - destruct n as [|n]; [lia|]. simpl.
    destruct (Z.ltb_spec (_t s) t) as [Hlt|Hge].
    + destruct (update_ends s dt d n_in fuel Hi ltac:(lia) Hp Hd Hstep Hfuel)
        as (k & Hk & Hr & Ht & Hsy).
      unfold bind. rewrite Hr.
      set (s1 := log (LogUpdated (_t (after k s)) k) (after k s)).
      destruct (after_fields k s) as (A1 & A2 & A3 & A4 & _).
      assert (Hdt : step_duration dt s1 = step_duration dt s)
        by (apply step_duration_fields; exact A4).
      destruct (IH n s1) as (s' & Hr' & Ht' & Hi' & H0' & H1').
      * unfold s1; simpl. rewrite A1. exact Hi.
      * exact (Hsy Hs).
      * unfold s1; simpl. rewrite A3. exact Hend.
      * exact Hp.
      * exact Hd.
      * rewrite Hdt. exact Hpos.
      * rewrite Hdt. exact Hstep.
      * exact Hfuel.
      * lia.
      * rewrite Hdt. change (_t s1) with (_t (after k s)).
        rewrite <- Hs in Ht. lia.
      * exists s'. split; [exact Hr'|]. split; [exact Ht'|].
        split; [exact Hi'|]. unfold s1 in H0', H1'. simpl in H0', H1'.
        split; congruence.
    + exists s. repeat split; auto.
Qed.

(** [update_until] ends when the engine makes progress: from a model
    whose cached time is the engine's, with a positive step duration, a
    target between current time and end time is reached: the call returns
    with the current time at or beyond the target and with start and end
    time as before. *)
Theorem update_until_ends_under_progress (s : LFP) (t : datetime)
  (dt : option num) (d : timedelta) (n_in m fuel : nat) :
  initialized s = true -> synced s ->
  (_t s <= t)%Z -> (t <= _endTime s)%Z ->
  engine_progress d -> (0 < d)%Z ->
  (0 < step_duration dt s)%Z ->
  (step_duration dt s <= Z.of_nat n_in * d)%Z ->
  (t - _t s <= Z.of_nat m * step_duration dt s)%Z ->
  (n_in < fuel)%nat -> (m <= fuel)%nat ->
  exists s', update_until fuel t dt s = (Ok tt, s')
    /\ (t <= _t s')%Z
    /\ _startTime s' = _startTime s /\ _endTime s' = _endTime s.
Proof.
  intros Hi Hs Hlo Hhi Hp Hd Hpos Hstep Hm Hfuel Hmf.
  destruct (update_until_loop_ends d n_in fuel t dt m fuel s
              Hi Hs Hhi Hp Hd Hpos Hstep Hfuel Hmf Hm)
    as (s' & Hr & Ht & _ & H0 & H1).
  exists s'. split; [|split; [exact Ht|split; [exact H0|exact H1]]].
  unfold update_until. run_gets. run_gets.
  destruct (Z.ltb_spec t (_t s)); [lia|].
  destruct (Z.ltb_spec (_endTime s) t); [lia|]. exact Hr.
Qed.

(** [update_until] refuses a target before the current time or after the
    end time and leaves the model as it is; a target equal to the current
    time is accepted and nothing is done. *)
Theorem update_until_target_range (s : LFP) (t : datetime) (dt : option num)
  (fuel : nat) :
  ((t < _t s)%Z \/ (_endTime s < t)%Z ->
   update_until fuel t dt s
   = (Raise (Exception
        "wrong time input: smaller than model time or larger than endTime"),
      s))
  /\ (t = _t s -> (_t s <= _endTime s)%Z ->
      update_until fuel t dt s = (Ok tt, s)).
Proof.
  split.
  - intros Hout. unfold update_until. run_gets. run_gets.
    destruct (Z.ltb_spec t (_t s)); [reflexivity|].
    destruct (Z.ltb_spec (_endTime s) t); [reflexivity|lia].
  - intros -> Hle. unfold update_until. run_gets. run_gets.
    destruct (Z.ltb_spec (_t s) (_t s)); [lia|].
    destruct (Z.ltb_spec (_endTime s) (_t s)); [lia|]. cbn [orb].
    destruct fuel; simpl; rewrite Z.ltb_irrefl; reflexivity.
Qed.

End MoreTimeFacts.
(** ** Files of comments, empty lines and option lines *)

Section ClassifiedFacts.
Import Par ParSpec ParseSpec.

Lemma ini_line_first (t : str) (rest : list str) :
  t <> [] ->
  exists tail, join "=" (take 2 (t :: rest)) = t ++ tail.
Proof.
  intros _. destruct rest as [|u rest].
  - exists []. simpl. rewrite app_nil_r. reflexivity.
  - exists ("=" ++ u). reflexivity.
Qed.

Lemma classify_blank (line : str) :
  classify line = Some Blank -> ini_line line = [].
Proof.
  unfold classify, ini_line. destruct (split line) as [|t rest]; [reflexivity|].
  destruct (opens_comment t); [discriminate|].
  destruct (plain_key t); discriminate.
Qed.

Lemma classify_comment (line : str) :
  classify line = Some Comment ->
  nows (ini_line line) /\ opens_comment (ini_line line) = true.
Proof.
  intros Hc. split; [apply par2ini_line_nows|].
  unfold classify, ini_line in *.
  pose proof (split_tokens line) as Ht.
  destruct (split line) as [|t rest]; [discriminate|].
  inversion Ht as [|? ? [Hne _] _]; subst.
  destruct (opens_comment t) eqn:Eo.
  - destruct (ini_line_first t rest Hne) as (tail & ->).
    rewrite opens_comment_app by exact Hne. exact Eo.
  - destruct (plain_key t); discriminate.
Qed.

Lemma sect_header_plain (k tail : str) :
  k <> [] -> startswith "[" k = false -> sect_header (k ++ tail) = None.
Proof.
  destruct k as [|c k]; [congruence|]. intros _ Hs.
  cbn [app sect_header].
  destruct (ascii_eqb c "[") eqn:E; [|reflexivity].
  apply Ascii.eqb_eq in E. subst c. discriminate Hs.
Qed.

Lemma classify_item (line : str) (kv : str * option str) :
  classify line = Some (Item kv) ->
  item_ok kv /\ ini_line line = item_line kv.
Proof.
  unfold classify, ini_line.
  pose proof (split_tokens line) as Ht.
  destruct (split line) as [|t rest]; [discriminate|].
  inversion Ht as [|? ? [Hne Hnt] Hrest]; subst.
  destruct (opens_comment t) eqn:Eo; [discriminate|].
  destruct (plain_key t) eqn:Ep; [|discriminate].
  intros [= <-].
  unfold plain_key in Ep. rewrite Eo in Ep.
  apply andb_true_iff in Ep as [Ep Hb]. apply andb_true_iff in Ep as [Hd _].
  apply negb_true_iff in Hd, Hb.
  unfold item_ok, item_line. cbn [fst snd].
  destruct rest as [|u rest]; cbn [head].
  - split; [|reflexivity].
    repeat split; try assumption.
    rewrite <- (app_nil_r t). apply sect_header_plain; assumption.
  - inversion Hrest as [|? ? [_ Hnu] _]; subst.
    split; [|reflexivity].
    repeat split; try assumption.
    apply sect_header_plain; assumption.
Qed.

Lemma holds_keys (d : dict pval) (acc : dict (option str)) :
  holds d acc -> map fst d = map fst acc.
Proof.
  induction 1 as [|en kv d acc [Hk _] _ IH]; simpl; [reflexivity|].
  rewrite Hk, IH. reflexivity.
Qed.

Lemma holds_get (d : dict pval) (acc : dict (option str)) (k : str) :
  holds d acc -> In k (map fst acc) ->
  dict_get d k = Some VNone
  \/ exists l, dict_get d k = Some (VList l)
               /\ holds (dict_set d k (VList (l ++ [[]]))) acc.
Proof.
  induction 1 as [|[k0 pv] [k1 ov] d acc [Hk Hv] Hrest IH]; simpl; [tauto|].
  cbn [fst snd] in Hk, Hv. subst k1. intros Hin.
  destruct (str_eqb k0 k) eqn:E.
  - destruct ov as [v|].
    + destruct Hv as (Hnv & blanks & -> & Hb). right.
      exists (v :: blanks). split; [reflexivity|].
      constructor; [|exact Hrest]. cbn [fst snd].
      split; [apply str_eqb_eq in E; subst; reflexivity|].
      split; [exact Hnv|]. exists (blanks ++ [[]]).
      split; [reflexivity|].
      apply Forall_app. split; [exact Hb|]. constructor; [reflexivity|constructor].
    + left. rewrite Hv. reflexivity.
  - destruct Hin as [Hin|Hin].
    { apply str_eqb_neq in E. congruence. }
    destruct (IH Hin) as [Hg|(l & Hg & Hh)]; [left; exact Hg|].
    right. exists l. split; [exact Hg|].
    constructor; [|exact Hh]. split; [reflexivity|exact Hv].
Qed.

Lemma holds_app (d : dict pval) (acc : dict (option str))
  (kv : str * option str) :
  holds d acc -> item_ok kv ->
  holds (d ++ [(fst kv, reading (snd kv))]) (acc ++ [kv]).
Proof.
  intros Hh (_ & _ & _ & _ & _ & Hv). apply Forall2_app; [exact Hh|].
  constructor; [|constructor]. cbn [fst snd]. split; [reflexivity|].
  destruct (snd kv) as [v|]; [|reflexivity].
  split; [exact Hv|]. exists []. split; [reflexivity|constructor].
Qed.

Lemma holds_join (d : dict pval) (acc : dict (option str)) :
  holds d acc -> join_dict d = acc.
Proof.
  unfold join_dict.
  induction 1 as [|[k0 pv] [k1 ov] d acc [Hk Hv] _ IH]; simpl; [reflexivity|].
  cbn [fst snd] in Hk, Hv. subst k1. rewrite IH. f_equal. f_equal.
  destruct ov as [v|].
  - destruct Hv as (Hnv & blanks & -> & Hb). unfold join_value. f_equal.
    apply rstrip_join_blanks; assumption.
  - rewrite Hv. reflexivity.
Qed.

Lemma reads_as_start : reads_as (in_general [] [ESection "general"] None) [].
Proof.
  unfold reads_as. cbn [in_general rs_defaults e cursect sectname rs_sections
                        elements_added optname map].
  repeat split; try reflexivity.
  - exists []. split; [reflexivity|constructor].
  - intros H. simpl in H. discriminate H.
  - intros [].
Qed.

(** An empty line leaves the options as they are. *)
Lemma read_blank (ln : nat) (st : read_state) (acc : dict (option str)) :
  reads_as st acc ->
  exists st', read_line ln [] st = Ok st' /\ reads_as st' acc.
Proof.
  intros (Hd & He & Hc & Hs & (d & Hsec & Hh) & Hel & Hon).
  rewrite read_line_blank, Hc.
  destruct (optname st) as [[|a o]|] eqn:Eo.
  - exists st. split; [reflexivity|].
    unfold reads_as. rewrite Eo. repeat split; try assumption; try apply Hel.
    exists d. split; assumption.
  - assert (Ecur : cur_dict st (CurSection "general") = d).
    { unfold cur_dict. rewrite Hsec. reflexivity. }
    rewrite Ecur.
    destruct (holds_get d acc (a :: o) Hh Hon) as [Hg|(l & Hg & Hh')].
    + rewrite Hg. exists st. split; [reflexivity|].
      unfold reads_as. rewrite Eo. repeat split; try assumption; try apply Hel.
      exists d. split; assumption.
    + rewrite Hg. unfold append_to_option. rewrite Ecur, Hg.
      eexists. split; [reflexivity|].
      unfold reads_as.
      cbn [set_cur_dict rs_defaults e cursect sectname rs_sections
           elements_added optname].
      rewrite Eo, Hsec. repeat split; try assumption; try apply Hel.
      eexists. split; [reflexivity|exact Hh'].
  - exists st. split; [reflexivity|].
    unfold reads_as. rewrite Eo. repeat split; try assumption; try apply Hel.
    exists d. split; assumption.
Qed.

(** What an option line does in the section [general]: it is refused when
    its key was read before and adds its option otherwise. *)
Lemma read_item_step (ln : nat) (st : read_state) (acc : dict (option str))
  (kv : str * option str) :
  reads_as st acc -> item_ok kv ->
  (In (fst kv) (map fst acc) ->
   read_line ln (item_line kv) st
   = Raise (DuplicateOptionError (Some "general") (fst kv) ln))
  /\ (~ In (fst kv) (map fst acc) ->
      exists st', read_line ln (item_line kv) st = Ok st'
                  /\ reads_as st' (acc ++ [kv])).
Proof.
  intros (Hd & He & Hc & Hs & (d & Hsec & Hh) & Hel & Hon) Hok.
  destruct (item_line_nows kv Hok) as (Hn & Hne & Hcm).
  rewrite read_line_content by assumption.
  unfold read_header_or_option.
  pose proof Hok as (Hk & Hnk & Hdl & Hck & Hhd & Hv).
  rewrite Hhd, Hc, (optcre_match_item kv Hok).
  rewrite rstrip_nows by exact Hnk. rewrite Hs.
  split.
  - intros Hin. apply Hel in Hin. rewrite Hin. reflexivity.
  - intros Hfresh.
    destruct (existsb (element_eqb (EOption (Some "general") (fst kv)))
                (elements_added st)) eqn:Ee.
    { exfalso. apply Hfresh. apply Hel. exact Ee. }
    rewrite (reading_strip (snd kv) Hv).
    eexists. split; [reflexivity|].
    unfold reads_as.
    cbn [set_cur_dict with_locals cur_dict rs_defaults e cursect sectname
         rs_sections elements_added optname].
    rewrite Hsec.
    change (dict_get [("general", d)] "general") with (Some d).
    cbn [default from_option id].
    change (dict_set [("general", d)] "general" ?x) with [("general", x)].
    assert (Hfd : ~ In (fst kv) (map fst d)).
    { rewrite (holds_keys d acc Hh). exact Hfresh. }
    rewrite (dict_set_fresh d _ _ Hfd).
    split; [exact Hd|]. split.
    { destruct (fst kv); [congruence|exact He]. }
    split; [reflexivity|]. split; [reflexivity|]. split.
    { eexists. split; [reflexivity|]. apply holds_app; assumption. }
    split.
    + intros k. rewrite map_app, in_app_iff. cbn [existsb map In].
      rewrite orb_true_iff, Hel. split.
      * intros [H|H]; [right; left|left; exact H].
        apply str_eqb_eq in H. symmetry; exact H.
      * intros [H|[H|[]]]; [right; exact H|left].
        subst k. cbn. apply str_eqb_refl.
    + rewrite map_app, in_app_iff. right. left. reflexivity.
Qed.

(** The lines of a file, each one an empty line, a comment or an option
    line, the keys distinct, are read into the options of its option
    lines. *)
Lemma read_classified (f : list str) (kinds : list line_kind) :
  Forall2 (fun line k => classify line = Some k) f kinds ->
  forall (ln : nat) (st : read_state) (acc : dict (option str)),
    reads_as st acc -> NoDup (map fst (acc ++ kind_items kinds)) ->
    exists st',
      read_lines ln (map ini_line f) st = Ok st'
      /\ reads_as st' (acc ++ kind_items kinds).
Proof.
  induction 1 as [|line k f kinds Hk _ IH]; intros ln st acc Hst Hnd.
  - exists st. simpl. rewrite app_nil_r. split; [reflexivity|exact Hst].
  - cbn [map read_lines]. destruct k as [| |kv]; cbn [kind_items] in *.
    + rewrite (classify_blank line Hk).
      destruct (read_blank ln st acc Hst) as (st1 & -> & Hst1).
      apply IH; assumption.
    + destruct (classify_comment line Hk) as (Hn & Hc).
      rewrite (read_line_comment ln _ st Hn Hc).
      apply IH; assumption.
    + destruct (classify_item line kv Hk) as (Hok & ->).
      assert (Hfresh : ~ In (fst kv) (map fst acc)).
      { rewrite map_app in Hnd. apply NoDup_app in Hnd as (_ & Hdis & _).
        intros Hin. apply list_elem_of_In in Hin. apply (Hdis _ Hin).
        simpl. left. }
      destruct (read_item_step ln st acc kv Hst Hok) as (_ & Hadd).
      destruct (Hadd Hfresh) as (st1 & -> & Hst1).
      destruct (IH (S ln) st1 (acc ++ [kv]) Hst1) as (st' & Hr & Hst').
      { rewrite <- app_assoc. exact Hnd. }
      exists st'. rewrite <- app_assoc in Hst'. split; assumption.
Qed.

Lemma read_file_lines (defaults : dict (option str)) (f : list str) :
  parse defaults f
  = match read_lines 1 (("[" ++ "general" ++ "]" ++ ["010"%char])
                          :: map ini_line f)
            (begin_read (ParConfigParser defaults)) with
    | Ok st =>
        match e st with
        | [] =>
            Ok (mk_config (join_dict (rs_defaults st))
                  (map (fun sd => (fst sd, join_dict (snd sd)))
                     (rs_sections st)))
        | _ :: _ => Raise (ParsingError (e st))
        end
    | Raise ex => Raise ex
    | OutOfFuel => OutOfFuel
    end.
Proof. reflexivity. Qed.

(** A parameter file whose lines are empty lines, comment lines (the
    first token opens with [!], [/] or [#]) and option lines (a first token
    that holds no [=] and opens neither a comment nor a bracket), the keys
    of the option lines distinct, is read without error.  The record has
    the one section [general]; it holds, in the order of the file, the first
    token of every option line with the second token as its value, or no
    value when the line holds a single token.  Comments, empty lines and
    the tokens after the second leave no trace. *)
Theorem parse_classified_file (f : list str) (kinds : list line_kind) :
  Forall2 (fun line k => classify line = Some k) f kinds ->
  NoDup (map fst (kind_items kinds)) ->
  parse [] f = Ok (mk_config [] [("general", kind_items kinds)]).
Proof.
  intros Hf Hnd. rewrite read_file_lines.
  cbn [read_lines]. rewrite read_header_general.
  destruct (read_classified f kinds Hf 2 _ [] reads_as_start Hnd)
    as (st & -> & Hst).
  destruct Hst as (Hd & He & _ & _ & (d & Hsec & Hh) & _).
  rewrite He, Hd, Hsec. cbn [map fst snd].
  change (join_dict []) with (@nil (str * option str)).
  rewrite (holds_join d (kind_items kinds) Hh). reflexivity.
Qed.

(** An option line whose key was read on an earlier line stops the
    read with [DuplicateOptionError], whatever follows it.  The line number
    of the error counts the section header that [par2ini] puts before the
    file: it is the number of the line in the file plus one. *)
Theorem duplicate_key_raises (f : list str) (kinds : list line_kind)
  (line : str) (kv : str * option str) (rest : list str) :
  Forall2 (fun line k => classify line = Some k) f kinds ->
  NoDup (map fst (kind_items kinds)) ->
  classify line = Some (Item kv) ->
  In (fst kv) (map fst (kind_items kinds)) ->
  parse [] (f ++ line :: rest)
  = Raise (DuplicateOptionError (Some "general") (fst kv) (length f + 2)).
Proof.
  intros Hf Hnd Hline Hin. rewrite read_file_lines.
  cbn [read_lines]. rewrite read_header_general.
  destruct (read_classified f kinds Hf 2 _ [] reads_as_start Hnd)
    as (st & Hr & Hst).
  rewrite map_app, (read_lines_app _ _ 2 _ st Hr).
  cbn [map read_lines]. rewrite length_map.
  destruct (classify_item line kv Hline) as (Hok & ->).
  destruct (read_item_step (2 + length f) st _ kv Hst Hok) as (Hdup & _).
  rewrite (Hdup Hin). replace (length f + 2)%nat with (2 + length f)%nat by lia.
  reflexivity.
Qed.

End ClassifiedFacts.

(** ** What holds of every file *)

Section EveryFileFacts.
Import Par ParSpec ParseSpec.

(** The header that [par2ini] puts before the file opens the section
    [general], whatever the defaults of the parser. *)
Lemma read_header_defaults (defaults : dict (option str)) :
  read_line 1 ("[" ++ "general" ++ "]" ++ ["010"%char])
    (begin_read (ParConfigParser defaults))
  = Ok (mk_read_state (rs_defaults (begin_read (ParConfigParser defaults)))
          [("general", [])] [ESection "general"]
          (Some (CurSection "general")) (Some "general") None 0 []).
Proof. reflexivity. Qed.

Lemma set_cur_dict_cursect (st : read_state) (c : cursect_ref)
  (d : dict pval) :
  cursect (set_cur_dict st c d) = cursect st.
Proof. destruct c; reflexivity. Qed.

(** Once a section is open, a line keeps one open, and the error for a
    missing header is not raised. *)
Lemma read_line_cursect (ln : nat) (line : str) (st : read_state) :
  cursect st <> None ->
  match read_line ln line st with
  | Ok st' => cursect st' <> None
  | Raise ex => forall n l, ex <> MissingSectionHeaderError n l
  | OutOfFuel => False
  end.
Proof.
  intros Hc. unfold read_line, read_header_or_option, append_to_option.
  repeat case_match; simplify_eq; try exact Hc; try (intros; discriminate);
    rewrite ?set_cur_dict_cursect; cbn [cursect with_locals]; congruence.
Qed.

Lemma read_lines_cursect (fp : list str) :
  forall (ln : nat) (st : read_state),
    cursect st <> None ->
    forall n l, read_lines ln fp st <> Raise (MissingSectionHeaderError n l).
Proof.
  induction fp as [|line fp IH]; intros ln st Hc n l; simpl; [discriminate|].
  pose proof (read_line_cursect ln line st Hc) as H.
  destruct (read_line ln line st) as [st'|ex|].
  - apply IH; exact H.
  - intros [= ->]. apply (H n l). reflexivity.
  - discriminate.
Qed.

(** A parameter file needs no section header: whatever the lines of
    the file and the defaults of the parser, [read_file] does not raise
    [MissingSectionHeaderError]. *)
Theorem read_file_needs_no_header (defaults : dict (option str))
  (f : list str) (n : nat) (l : str) :
  parse defaults f <> Raise (MissingSectionHeaderError n l).
Proof.
  rewrite read_file_lines. cbn [read_lines].
  rewrite read_header_defaults.
  match goal with
  | |- context [read_lines 2 ?fp ?st] =>
      pose proof (read_lines_cursect fp 2 st) as H;
      destruct (read_lines 2 fp st) as [st'|ex|] eqn:E
  end.
  - destruct (e st'); discriminate.
  - intros [= ->]. apply (H ltac:(discriminate) n l). reflexivity.
  - discriminate.
Qed.

Lemma join_dict_keys_eq (d : dict pval) : map fst (join_dict d) = map fst d.
Proof. unfold join_dict. rewrite map_map. reflexivity. Qed.

(** Every record that [read_file] returns has, in each section, keys
    that are distinct and not empty; a value holds no whitespace, and the
    key of a value holds neither whitespace nor the delimiter [=]. *)
Theorem parsed_record_entries (defaults : dict (option str)) (f : list str)
  (r : config) :
  parse defaults f = Ok r ->
  forall s items, In (s, items) (cfg_sections r) ->
    NoDup (map fst items)
    /\ forall k ov, In (k, ov) items ->
         k <> []
         /\ forall v, ov = Some v ->
              nows v /\ nows k /\ contains delimiter k = false.
Proof.
  rewrite read_file_lines. cbn [read_lines].
  rewrite read_header_defaults.
  match goal with
  | |- context [read_lines 2 ?fp ?st] =>
      pose proof (read_lines_ok fp 2 st) as Hinv;
      destruct (read_lines 2 fp st) as [st'|ex|] eqn:E
  end; try discriminate.
  destruct (e st') eqn:Ee; [|discriminate].
  intros [= <-] s items Hin. cbn [cfg_sections] in Hin.
  apply in_map_iff in Hin as ([s' d] & [= <- <-] & Hin).
  assert (Hok : sections_ok st').
  { apply (Hinv st'); [| |reflexivity].
    - apply Forall_map. apply Forall_true. intros line.
      apply par2ini_line_nows.
    - intros s0 d0 [[= <- <-]|[]]. apply dict_ok_nil. }
  destruct (Hok s' d Hin) as (Hnd & Hent). rewrite Ee in Hent.
  split; [rewrite join_dict_keys_eq; exact Hnd|].
  intros k ov Hk. unfold join_dict in Hk.
  apply in_map_iff in Hk as ([k' pv] & [= <- <-] & Hk).
  destruct (Hent k' pv Hk) as (Hne & Hpv).
  split; [apply Hne; reflexivity|].
  intros v Hv. destruct pv as [|t|l]; cbn [join_value] in Hv.
  - discriminate.
  - destruct Hpv.
  - destruct Hpv as (v0 & blanks & -> & Hb & Hnk & Hd & _ & _ & Hnv).
    injection Hv as <-.
    change (nows (rstrip (join ["010"%char] (v0 :: blanks)))
            /\ nows k' /\ contains delimiter k' = false).
    rewrite (rstrip_join_blanks v0 blanks Hnv Hb). repeat split; assumption.
Qed.

End EveryFileFacts.

(** ** Indexing the elements of an array *)

Section FlatFacts.
Import Np Flat.

Lemma concat_lookup {A} (rows : list (list A)) (w : nat) :
  Forall (fun r => length r = w) rows ->
  forall i j, (j < w)%nat ->
    concat rows !! (i * w + j)%nat
    = match rows !! i with Some r => r !! j | None => None end.
Proof.
  induction 1 as [|r rows Hr _ IH]; intros i j Hj.
  - simpl. rewrite !lookup_nil. reflexivity.
  - destruct i as [|i]; simpl.
    + apply lookup_app_l. lia.
    + rewrite lookup_app_r by lia.
      replace (w + i * w + j - length r)%nat with (i * w + j)%nat by lia.
      apply IH; exact Hj.
Qed.

Lemma flat_item {A} (a : ndarray A) (i j : nat) :
  wf a -> (j < ncols a)%nat ->
  flat a !! (i * ncols a + j)%nat = item a i j.
Proof.
  intros [_ Hr] Hj. unfold flat, item. apply concat_lookup; assumption.
Qed.

Lemma length_flat {A} (a : ndarray A) : wf a -> length (flat a) = size a.
Proof.
  intros [Hl Hr]. unfold flat, size. rewrite <- Hl. clear Hl.
  induction Hr as [|r rows Hr _ IH]; simpl; [reflexivity|].
  rewrite length_app, IH, Hr. reflexivity.
Qed.

Lemma rows_of_lookup {A} (h w : nat) :
  forall (l : list A) (i j : nat), (i < h)%nat -> (j < w)%nat ->
    match rows_of h w l !! i with Some r => r !! j | None => None end
    = l !! (i * w + j)%nat.
Proof.
  induction h as [|h IH]; intros l i j Hi Hj; [lia|].
  destruct i as [|i]; simpl.
  - apply lookup_take_lt. exact Hj.
  - rewrite IH by lia. rewrite lookup_drop. f_equal. lia.
Qed.

Lemma item_with_flat {A} (a : ndarray A) (l : list A) (i j : nat) :
  (i < nrows a)%nat -> (j < ncols a)%nat ->
  item (with_flat a l) i j = l !! (i * ncols a + j)%nat.
Proof. intros Hi Hj. unfold item, with_flat; simpl. apply rows_of_lookup; assumption. Qed.

Lemma adjust_index_in_range (n : nat) (i : Z) :
  in_range n i ->
  adjust_index n i = Some (position n i) /\ (position n i < n)%nat.
Proof.
  unfold in_range, adjust_index, position. intros Hi.
  destruct (Z.leb_spec (- Z.of_nat n) i); [|lia].
  destruct (Z.ltb_spec i (Z.of_nat n)); [|lia]. cbn [andb].
  destruct (Z.ltb_spec i 0).
  - replace (i mod Z.of_nat n)%Z with (i + Z.of_nat n)%Z.
    + split; [reflexivity|lia].
    + apply Z.mod_unique with (q := (-1)%Z); lia.
  - rewrite Z.mod_small by lia. split; [reflexivity|lia].
Qed.

Lemma adjust_index_out (n : nat) (i : Z) :
  ~ in_range n i -> adjust_index n i = None.
Proof.
  unfold in_range, adjust_index. intros Hi.
  destruct (Z.leb_spec (- Z.of_nat n) i); [|reflexivity].
  destruct (Z.ltb_spec i (Z.of_nat n)); [lia|reflexivity].
Qed.

(** Indices in range are all served. *)
Lemma flat_get_in_range {A} (l : list A) (n : nat) (inds : list Z) :
  length l = n -> Forall (in_range n) inds ->
  exists vals, flat_get l n inds = Ok vals
    /\ Forall2 (fun i v => l !! position n i = Some v) inds vals.
Proof.
  intros Hl. induction 1 as [|i inds Hi _ (vals & IH & Hv)].
  - exists []. split; [reflexivity|constructor].
  - destruct (adjust_index_in_range n i Hi) as (Ha & Hp).
    destruct (lookup_lt_is_Some_2 l (position n i)) as (x & Hx); [lia|].
    exists (x :: vals). simpl. rewrite Ha, Hx, IH.
    split; [reflexivity|]. constructor; assumption.
Qed.

(** One index out of range raises [IndexError]. *)
Lemma flat_get_out {A} (l : list A) (n : nat) (inds : list Z) :
  Exists (fun i => ~ in_range n i) inds ->
  flat_get l n inds = Raise IndexError.
Proof.
  induction inds as [|i inds IH]; intros Hex; [inversion Hex|]. simpl.
  destruct (adjust_index n i) as [p|] eqn:Ea; [|reflexivity].
  destruct (l !! p); [|reflexivity].
  rewrite IH; [reflexivity|].
  inversion Hex as [? ? Hi|? ? Hrest]; subst; [|exact Hrest].
  rewrite (adjust_index_out n i Hi) in Ea. discriminate Ea.
Qed.

(** What the loop of an assignment leaves: the length, the elements that no
    index stands for, and at an index that does not come again the value
    that was its turn. *)
Lemma flat_set_loop_spec {A} (n : nat) (vals : list A) (inds : list Z) :
  vals <> [] -> Forall (in_range n) inds ->
  forall (k : nat) (l : list A),
  exists l',
    flat_set_loop n inds vals k l = Ok l'
    /\ length l' = length l
    /\ (forall p, (forall i, In i inds -> position n i <> p) ->
          l' !! p = l !! p)
    /\ (forall q i,
          inds !! q = Some i ->
          (forall q' i', (q < q')%nat -> inds !! q' = Some i' ->
                         position n i' <> position n i) ->
          (position n i < length l)%nat ->
          l' !! position n i = vals !! ((k + q) mod length vals)%nat).
Proof.
  intros Hv. induction 1 as [|i0 inds Hi0 _ IH]; intros k l.
  - exists l. repeat split; try reflexivity.
    intros q i Hq. rewrite lookup_nil in Hq. discriminate Hq.
  - destruct (adjust_index_in_range n i0 Hi0) as (Ha & Hp).
    assert (Hlen : (0 < length vals)%nat) by (destruct vals; [congruence|simpl; lia]).
    destruct (lookup_lt_is_Some_2 vals (k mod length vals)) as (v & Hval).
    { apply Nat.mod_upper_bound. lia. }
    destruct (IH (S k) (<[position n i0 := v]> l)) as (l' & Hr & Hl & Hsame & Hset).
    exists l'. cbn [flat_set_loop]. rewrite Ha, Hval.
    split; [exact Hr|]. split; [rewrite Hl; apply length_insert|]. split.
    + intros p Hp'. rewrite Hsame.
      * apply list_lookup_insert_ne. apply Hp'. left; reflexivity.
      * intros i Hin. apply Hp'. right; exact Hin.
    + intros q i Hq Hlast Hlt. destruct q as [|q]; cbn in Hq.
      * injection Hq as <-. rewrite Hsame.
        -- rewrite Nat.add_0_r, Hval.
           apply list_lookup_insert_eq. exact Hlt.
        -- intros i Hin. apply list_elem_of_In in Hin.
           apply list_elem_of_lookup_1 in Hin as (q' & Hq').
           apply (Hlast (S q') i); [lia|exact Hq'].
      * rewrite (Hset q i Hq).
        -- f_equal. f_equal. lia.
        -- intros q' i' Hlt' Hq'. apply (Hlast (S q') i'); [lia|exact Hq'].
        -- rewrite length_insert. exact Hlt.
Qed.

Lemma wf_zip_array {A B C} (f : A -> B -> C) (a : ndarray A) (b : ndarray B) :
  wf a -> wf b -> shape a = shape b -> wf (zip_array f a b).
Proof.
  intros [Hla Hra] [Hlb Hrb] Hs. unfold shape in Hs. injection Hs as Hn Hc.
  split; cbn [data nrows ncols zip_array].
  - rewrite length_zip_with. lia.
  - rewrite List.Forall_forall. intros r Hr.
    apply list_elem_of_In, list_elem_of_lookup_1 in Hr as (i & Hi).
    rewrite lookup_zip_with in Hi.
    destruct (data a !! i) as [ra|] eqn:Ea; [|discriminate].
    destruct (data b !! i) as [rb|] eqn:Eb; [|discriminate].
    cbn in Hi. injection Hi as <-. rewrite length_zip_with.
    rewrite List.Forall_forall in Hra, Hrb.
    rewrite (Hra ra), (Hrb rb).
    + lia.
    + apply list_elem_of_In. eapply list_elem_of_lookup_2; eauto.
    + apply list_elem_of_In. eapply list_elem_of_lookup_2; eauto.
Qed.

(** A position below the size of an array is a cell of it. *)
Lemma position_cell (h w p : nat) :
  (p < h * w)%nat ->
  (p / w < h)%nat /\ (p mod w < w)%nat /\ p = (p / w * w + p mod w)%nat.
Proof.
  intros Hp. assert (Hw : (0 < w)%nat) by nia.
  split; [|split].
  - apply Nat.Div0.div_lt_upper_bound. lia.
  - apply Nat.mod_upper_bound. lia.
  - rewrite (Nat.div_mod_eq p w) at 1. lia.
Qed.

End FlatFacts.

(** ** Exchange at indices *)

Section IndexFacts.
Import Np Par Mask Lfp LfpSpec Flat LfpMore.
Context {engine num elt : Type}.
Context `{!PyLib num elt} `{!BMIWrapper engine num elt} `{!Glib}.
Context `{!DateFormat}.

Local Abbreviation LFP := (LFP engine elt).

Lemma get_value_runs (s : LFP) (name : str) (g mask : ndarray bool)
  (buf : ndarray elt) (lb : loc) :
  grid s = Some g -> get_mask g name = Some mask ->
  bmi_get_var (_bmi s) name = Some lb -> arrays s !! lb = Some buf ->
  shape buf = shape mask ->
  get_value name s = (Ok (masked mask buf), s).
Proof.
  intros Hg Hm Hlb Hbuf Hs.
  unfold get_value. unfold bind at 1.
  rewrite (engine_var_ok s name lb buf Hlb Hbuf).
  unfold bind at 1. rewrite (LFP_get_mask_ok s name g mask Hg Hm).
  cbn [snd].
  assert (E : shape_eqb mask buf = true) by (apply shape_eqb_eq; congruence).
  rewrite E. reflexivity.
Qed.

Lemma masked_facts (mask : ndarray bool) (buf : ndarray elt) :
  wf mask -> wf buf -> shape buf = shape mask ->
  wf (masked mask buf)
  /\ size (masked mask buf) = size buf
  /\ ncols (masked mask buf) = ncols buf
  /\ nrows (masked mask buf) = nrows buf.
Proof.
  intros Hwm Hwb Hs. split.
  - apply wf_zip_array; [assumption|assumption|congruence].
  - unfold shape in Hs. injection Hs as Hn Hc.
    unfold size, masked; cbn [zip_array nrows ncols]. rewrite Hn, Hc.
    repeat split.
Qed.

(** The element of [get_value]'s array at a position below its size. *)
Lemma masked_position (mask : ndarray bool) (buf : ndarray elt) (p : nat)
  (v : elt) :
  wf mask -> wf buf -> shape buf = shape mask ->
  flat (masked mask buf) !! p = Some v ->
  exists m x,
    item mask (p / ncols buf) (p mod ncols buf) = Some m
    /\ item buf (p / ncols buf) (p mod ncols buf) = Some x
    /\ v = if m then x else nan.
Proof.
  intros Hwm Hwb Hs Hv.
  destruct (masked_facts mask buf Hwm Hwb Hs) as (Hw & Hsz & Hc & Hr).
  assert (Hp : (p < nrows buf * ncols buf)%nat).
  { apply lookup_lt_Some in Hv. rewrite (length_flat _ Hw), Hsz in Hv.
    exact Hv. }
  destruct (position_cell _ _ _ Hp) as (Hi & Hj & Ep).
  assert (Hitem : flat (masked mask buf)
                    !! (p / ncols buf * ncols (masked mask buf)
                        + p mod ncols buf)%nat
                  = item (masked mask buf) (p / ncols buf) (p mod ncols buf)).
  { apply flat_item; [exact Hw|]. rewrite Hc. exact Hj. }
  rewrite Hc, <- Ep, Hv in Hitem. symmetry in Hitem.
  unfold masked in Hitem.
  apply item_zip_array_inv in Hitem as (m & x & Hm & Hx & ->).
  exists m, x. repeat split; assumption.
Qed.

(** [get_value_at_indices] with a list of integer indices, when the
    engine's array and the mask have one shape: indices within
    [-size, size) give, in their order, the elements of the array counted
    row by row (a negative index from the end), with [nan] where the mask
    is false; an index outside raises [IndexError].  The model is left as
    it is. *)
Theorem get_value_at_indices_cells (s : LFP) (name : str) (inds : list Z)
  (g mask : ndarray bool) (buf : ndarray elt) (lb : loc) :
  grid s = Some g -> get_mask g name = Some mask ->
  bmi_get_var (_bmi s) name = Some lb -> arrays s !! lb = Some buf ->
  wf mask -> wf buf -> shape buf = shape mask ->
  (Forall (in_range (size buf)) inds ->
   exists vals,
     get_value_at_indices name inds s = (Ok vals, s)
     /\ Forall2 (fun i v =>
          let p := position (size buf) i in
          exists m x,
            item mask (p / ncols buf) (p mod ncols buf) = Some m
            /\ item buf (p / ncols buf) (p mod ncols buf) = Some x
            /\ v = if m then x else nan) inds vals)
  /\ (Exists (fun i => ~ in_range (size buf) i) inds ->
      get_value_at_indices name inds s = (Raise IndexError, s)).
Proof.
  intros Hg Hm Hlb Hbuf Hwm Hwb Hs.
  destruct (masked_facts mask buf Hwm Hwb Hs) as (Hw & Hsz & Hc & Hr).
  assert (Hrun : get_value_at_indices name inds s
                 = (flat_get (flat (masked mask buf)) (size buf) inds, s)).
  { unfold get_value_at_indices. unfold bind at 1.
    rewrite (get_value_runs s name g mask buf lb Hg Hm Hlb Hbuf Hs).
    unfold lift. rewrite Hsz. reflexivity. }
  rewrite Hrun. split.
  - intros Hin.
    destruct (flat_get_in_range (flat (masked mask buf)) (size buf) inds)
      as (vals & -> & Hvals).
    { rewrite (length_flat _ Hw). exact Hsz. }
    { exact Hin. }
    exists vals. split; [reflexivity|].
    eapply Forall2_impl; [exact Hvals|].
    intros i v Hv. cbv zeta.
    apply (masked_position mask buf _ v Hwm Hwb Hs Hv).
  - intros Hout. rewrite (flat_get_out _ _ inds Hout). reflexivity.
Qed.

(** [set_value_at_indices] with a list of integer indices within
    [-size, size) and a value that is not empty, when the engine's array
    and the mask have one shape, 0 is a number and [nan] is none: the
    engine's array is written as a whole.  A cell that no index stands for
    gets the cast of the value it held if the mask is true there and the
    value is a number, and the cast of 0 otherwise, so that whatever the
    engine held outside the mask is lost.  The cell of an index that does not come
    again gets the cast of the value whose turn it was, the values starting
    over when they are used up, with 0 for not-a-number. *)
Theorem set_value_at_indices_cells (s : LFP) (name : str) (inds : list Z)
  (src : list elt) (g mask : ndarray bool) (buf : ndarray elt) (lb : loc) :
  isnan zero = false -> isnan nan = true ->
  grid s = Some g -> get_mask g name = Some mask ->
  bmi_get_var (_bmi s) name = Some lb -> arrays s !! lb = Some buf ->
  wf mask -> wf buf -> shape buf = shape mask ->
  src <> [] -> Forall (in_range (size buf)) inds ->
  exists (s1 : LFP) (buf' : ndarray elt),
    set_value_at_indices name inds src s = (Ok tt, s1)
    /\ arrays s1 !! lb = Some buf'
    /\ (forall i j m x,
          item mask i j = Some m -> item buf i j = Some x ->
          (forall k, In k inds ->
                     position (size buf) k <> (i * ncols buf + j)%nat) ->
          item buf' i j
          = Some (astype (get_var_type name)
                    (if m && negb (isnan x) then x else zero)))
    /\ (forall q k,
          inds !! q = Some k ->
          (forall q' k', (q < q')%nat -> inds !! q' = Some k' ->
                         position (size buf) k' <> position (size buf) k) ->
          exists v,
            src !! (q mod length src)%nat = Some v
            /\ item buf' (position (size buf) k / ncols buf)
                 (position (size buf) k mod ncols buf)
               = Some (astype (get_var_type name)
                         (if isnan v then zero else v))).
Proof.
  intros Hz Hnan Hg Hm Hlb Hbuf Hwm Hwb Hs Hsrc Hin.
  destruct (masked_facts mask buf Hwm Hwb Hs) as (Hw & Hsz & Hc & Hr).
  destruct (flat_set_loop_spec (size buf) src inds Hsrc Hin 0
              (flat (masked mask buf))) as (l' & Hloop & Hlen & Hsame & Hset).
  set (val' := with_flat (masked mask buf) l').
  set (l := fresh (dom (arrays s))).
  set (s' := set_arrays (<[l := val']> (arrays s)) s).
  assert (Hfresh : l <> lb).
  { intros E. apply (is_fresh (dom (arrays s))). fold l. rewrite E.
    apply elem_of_dom. exists buf. exact Hbuf. }
  assert (Hrun : set_value_at_indices name inds src s
                 = set_value name l zero s').
  { unfold set_value_at_indices. unfold bind at 1.
    rewrite (get_value_runs s name g mask buf lb Hg Hm Hlb Hbuf Hs).
    unfold bind at 1. unfold lift at 1. unfold flat_set.
    destruct src as [|v0 src0]; [congruence|].
    rewrite Hsz, Hloop. run_gets. run_modify. reflexivity. }
  assert (Hsv : shape val' = shape mask) by reflexivity.
  pose proof (set_value_runs s' name l zero g mask val' buf lb Hg Hm
                (lookup_insert_eq _ _ _) Hlb
                (eq_trans (lookup_insert_ne _ _ _ _ Hfresh) Hbuf) Hsv Hs)
    as Hset_value.
  rewrite <- Hrun in Hset_value.
  eexists. eexists. split; [exact Hset_value|].
  split; [apply lookup_insert_eq|].
  assert (Hcell : forall i j m v,
            item mask i j = Some m -> l' !! (i * ncols buf + j)%nat = Some v ->
            item (cast_src name zero (sanitized_src mask val')) i j
            = Some (astype (get_var_type name) (if isnan v then zero else v))).
  { intros i j m v Hmi Hv.
    destruct (item_Some_lt mask i j m Hwm Hmi) as (Hi & Hj).
    unfold shape in Hs. injection Hs as Hn' Hc'.
    assert (Hval : item val' i j = Some v).
    { unfold val'. rewrite item_with_flat by (rewrite ?Hr, ?Hc; lia).
      rewrite Hc. exact Hv. }
    unfold cast_src. rewrite item_map_array.
    rewrite (item_sanitized_src mask val' i j v m Hval Hmi). cbn [fmap option_fmap option_map].
    f_equal. f_equal.
    destruct (isnan v) eqn:En.
    - destruct m; cbn [andb]; [rewrite Hz; reflexivity|rewrite En; reflexivity].
    - rewrite andb_false_r, En. reflexivity. }
  split.
  - intros i j m x Hmi Hxi Hno.
    destruct (item_Some_lt buf i j x Hwb Hxi) as (Hi & Hj).
    assert (Hv : l' !! (i * ncols buf + j)%nat = Some (if m then x else nan)).
    { rewrite (Hsame _ Hno). rewrite <- Hc.
      rewrite flat_item by (assumption || (rewrite Hc; exact Hj)).
      apply (item_zip_array (fun (m : bool) x => if m then x else nan)
               mask buf i j m x Hmi Hxi). }
    rewrite (Hcell i j m _ Hmi Hv). f_equal. f_equal.
    destruct m; cbn [andb].
    + destruct (isnan x); reflexivity.
    + rewrite Hnan. reflexivity.
  - intros q k Hq Hlast.
    assert (Hk : in_range (size buf) k).
    { rewrite List.Forall_forall in Hin. apply Hin.
      apply list_elem_of_In. eapply list_elem_of_lookup_2; exact Hq. }
    destruct (adjust_index_in_range _ k Hk) as (_ & Hp).
    destruct (position_cell _ _ _ Hp) as (Hi & Hj & Ep).
    assert (Hlt : (length src > 0)%nat) by (destruct src; [congruence|simpl; lia]).
    destruct (lookup_lt_is_Some_2 src (q mod length src)) as (v & Hv).
    { apply Nat.mod_upper_bound. lia. }
    exists v. split; [exact Hv|].
    unfold shape in Hs. pose proof Hs as Hs'. injection Hs' as Hn' Hc'.
    destruct (item_lt_Some mask (position (size buf) k / ncols buf)
                (position (size buf) k mod ncols buf) Hwm) as (m & Hmi);
      [lia|lia|].
    apply (Hcell _ _ m v Hmi). rewrite <- Ep.
    rewrite (Hset q k Hq Hlast).
    + exact Hv.
    + rewrite (length_flat _ Hw), Hsz. exact Hp.
Qed.

End IndexFacts.

(** ** [set_start_time] *)

Section StartTimeFacts.
Import Np Par Mask Lfp LfpSpec LfpMore.
Context {engine num elt : Type}.
Context `{!PyLib num elt} `{!BMIWrapper engine num elt} `{!Glib}.
Context `{!DateFormat}.

Local Abbreviation LFP := (LFP engine elt).

Lemma set_attribute_value_runs (s : LFP) (name value : str) (c c' : config) :
  _config s = Some c -> configcheck (Some c) = Ok tt ->
  configset c (attribute_key name) value = Ok c' ->
  set_attribute_value name value s
  = (Ok tt,
     set_config c'
       (log (LogDebug ("set_attribute_value: " ++ attribute_key name
                         ++ " -> " ++ value)) s)).
Proof.
  intros Hc Hcheck Hset. unfold set_attribute_value.
  run_gets. rewrite Hc.
  unfold bind at 1. unfold lift at 1. rewrite Hcheck.
  run_modify.
  unfold bind at 1. unfold the_config at 1.
  cbn [_config log]. rewrite Hc.
  unfold bind at 1. unfold lift at 1. rewrite Hset.
  unfold modify. reflexivity.
Qed.

Lemma get_attribute_value_runs (s : LFP) (name : str) (c : config)
  (v : option str) :
  _config s = Some c -> configcheck (Some c) = Ok tt ->
  configget c (attribute_key name) = Ok v ->
  get_attribute_value name s
  = (Ok v, log (LogDebug ("get_attribute_value: " ++ attribute_key name)) s).
Proof.
  intros Hc Hcheck Hget. unfold get_attribute_value.
  run_gets. rewrite Hc.
  unfold bind at 1. unfold lift at 1. rewrite Hcheck.
  run_modify.
  unfold bind at 1. unfold the_config at 1.
  cbn [_config log]. rewrite Hc.
  unfold lift. rewrite Hget. reflexivity.
Qed.

(** [set_start_time] with a [datetime], or with a string that
    [strptime] reads, sets [_startTime] and [_t] to that time and stores
    the date text under [general:refdate].  [get_start_time] then returns
    what [strptime] reads from the stored text, plus the engine's start time
    once the model is initialized, and sets [_startTime] to it; [_t] keeps
    the time that was given.  (For a [datetime] the stored text is
    [strftime] of it: what the date format leaves out of the time is in
    [_t] and no longer in [_startTime].) *)
Theorem set_start_time_then_get (s : LFP) (arg : time_arg)
  (d d0 : datetime) (text : str) (c c' : config) :
  (arg = ArgDatetime d /\ text = strftime d (_datefmt s))
  \/ (arg = ArgStr text /\ strptime text (_datefmt s) = Some d) ->
  _config s = Some c -> configcheck (Some c) = Ok tt ->
  configset c "general:refdate" text = Ok c' ->
  configcheck (Some c') = Ok tt ->
  configget c' "general:refdate" = Ok (Some text) ->
  strptime text (_datefmt s) = Some d0 ->
  exists s1 s2 : LFP,
    set_start_time arg s = (Ok tt, s1)
    /\ _startTime s1 = d /\ _t s1 = d /\ _config s1 = Some c'
    /\ get_start_time s1
       = (Ok (d0 + timedelta_of_seconds
                     (if initialized s then bmi_get_start_time (_bmi s)
                      else float_zero))%Z, s2)
    /\ _startTime s2
       = (d0 + timedelta_of_seconds
                 (if initialized s then bmi_get_start_time (_bmi s)
                  else float_zero))%Z
    /\ _t s2 = d.
Proof.
  intros Harg Hc Hcheck Hset Hcheck' Hget Hd0.
  set (s0 := set_t d (set_startTime d s)).
  assert (Hrun : set_start_time arg s
                 = set_attribute_value "refdate" text s0).
  { destruct Harg as [[-> ->]|[-> Hp]]; unfold set_start_time.
    - unfold bind at 1. run_gets. unfold ret at 1.
      run_modify. run_modify. reflexivity.
    - unfold bind at 1. run_gets. rewrite Hp. unfold ret at 1.
      run_modify. run_modify. reflexivity. }
  rewrite Hrun.
  rewrite (set_attribute_value_runs s0 "refdate" text c c' Hc Hcheck Hset).
  eexists. eexists. split; [reflexivity|].
  split; [reflexivity|]. split; [reflexivity|]. split; [reflexivity|].
  unfold get_start_time. unfold bind at 1.
  erewrite (get_attribute_value_runs _ "refdate" c' (Some text));
    [|reflexivity|exact Hcheck'|exact Hget].
  unfold bind at 1. unfold parse_date. run_gets.
  cbn [_datefmt log set_config set_t set_startTime s0].
  rewrite Hd0. unfold ret at 1.
  run_gets. run_gets. run_modify. unfold gets.
  cbn [initialized _bmi _startTime _t log set_config set_t set_startTime s0].
  repeat split.
Qed.

End StartTimeFacts.

(** ** [set_end_time] and [get_end_time] *)

Section EndTimeRoundTrip.
Import Np Par Mask Lfp LfpSpec LfpMore.
Context {engine num elt : Type}.
Context `{!PyLib num elt} `{!BMIWrapper engine num elt} `{!Glib}.

Local Abbreviation LFP := (LFP engine elt).

Lemma get_start_time_runs (s : LFP) (c : config) (r : str) (d0 : datetime) :
  _config s = Some c -> configcheck (Some c) = Ok tt ->
  configget c "general:refdate" = Ok (Some r) ->
  strptime r (_datefmt s) = Some d0 ->
  get_start_time s
  = (Ok (start_from d0 s),
     set_startTime (start_from d0 s)
       (log (LogDebug "get_attribute_value: general:refdate") s)).
Proof.
  intros Hc Hcheck Hget Hd0.
  unfold get_start_time. unfold bind at 1.
  rewrite (get_attribute_value_runs s "refdate" c (Some r) Hc Hcheck Hget).
  unfold bind at 1. unfold parse_date. run_gets.
  cbn [_datefmt log]. rewrite Hd0. unfold ret at 1.
  run_gets. run_gets. run_modify. unfold gets.
  cbn [initialized _bmi _startTime log set_startTime]. reflexivity.
Qed.

(** [set_end_time] followed by [get_end_time].  When the reference
    date can be read and the end time lies after the start time,
    [set_end_time] sets [_endTime] to the end time given.  [get_end_time]
    then works the end time out again and overwrites [_endTime]: on a model
    that is not initialized it is the start time plus the stored whole
    seconds, so that the part of a second in the run length is lost; on an
    initialized model it is the start time plus the engine's end time,
    whatever end time was set. *)
Theorem set_end_time_then_get (s : LFP) (arg : time_arg)
  (end_time d0 : datetime) (r : str) (c c' : config) (x : num) :
  arg = ArgDatetime end_time
  \/ (exists text, arg = ArgStr text
                   /\ strptime text (_datefmt s) = Some end_time) ->
  _config s = Some c -> configcheck (Some c) = Ok tt ->
  configget c "general:refdate" = Ok (Some r) ->
  strptime r (_datefmt s) = Some d0 ->
  (start_from d0 s < end_time)%Z ->
  configset c "general:sim_time"
    (format_0f (run_seconds (start_from d0 s) end_time)) = Ok c' ->
  configcheck (Some c') = Ok tt ->
  configget c' "general:refdate" = Ok (Some r) ->
  configget c' "general:sim_time"
  = Ok (Some (format_0f (run_seconds (start_from d0 s) end_time))) ->
  float_of_str (format_0f (run_seconds (start_from d0 s) end_time)) = Some x ->
  timedelta_of_seconds x
  = (run_seconds (start_from d0 s) end_time * 1000000)%Z ->
  exists s1 s2 : LFP,
    set_end_time arg s = (Ok tt, s1)
    /\ _endTime s1 = end_time
    /\ get_end_time s1
       = (Ok (if initialized s
              then (start_from d0 s
                    + timedelta_of_seconds (bmi_get_end_time (_bmi s)))%Z
              else (end_time - (end_time - start_from d0 s) mod 1000000)%Z),
          s2)
    /\ _endTime s2
       = (if initialized s
          then (start_from d0 s
                + timedelta_of_seconds (bmi_get_end_time (_bmi s)))%Z
          else (end_time - (end_time - start_from d0 s) mod 1000000)%Z).
Proof.
  intros Harg Hc Hcheck Hget Hd0 Hlt Hset Hcheck' Hget' Hsim Hx Htd.
  set (start := start_from d0 s) in *.
  set (digits := format_0f (run_seconds start end_time)) in *.
  set (s0 := set_startTime start
               (log (LogDebug "get_attribute_value: general:refdate") s)).
  set (s1 := set_config c'
               (log (LogDebug ("set_attribute_value: general:sim_time -> "
                                 ++ digits))
                  (set_endTime end_time s0))).
  assert (Hrun : set_end_time arg s = (Ok tt, s1)).
  { rewrite (set_end_time_decoded s arg end_time Harg).
    unfold bind at 1.
    rewrite (get_start_time_runs s c r d0 Hc Hcheck Hget Hd0).
    fold start. fold s0.
    destruct (Z.ltb_spec start end_time); [|lia]. cbn [negb]. cbv beta iota.
    rewrite td_seconds_days. run_modify.
    fold (run_seconds start end_time). fold digits.
    apply (set_attribute_value_runs (set_endTime end_time s0) "sim_time"
             digits c c' Hc Hcheck Hset). }
  assert (Hstart1 : forall s' : LFP,
            _config s' = Some c' -> _datefmt s' = _datefmt s ->
            initialized s' = initialized s -> _bmi s' = _bmi s ->
            get_start_time s'
            = (Ok start,
               set_startTime start
                 (log (LogDebug "get_attribute_value: general:refdate") s'))).
  { intros s' Hc1 Hf1 Hi1 Hb1.
    rewrite (get_start_time_runs s' c' r d0 Hc1 Hcheck' Hget'
               ltac:(rewrite Hf1; exact Hd0)).
    unfold start, start_from. rewrite Hi1, Hb1. reflexivity. }
  exists s1.
  destruct (initialized s) eqn:Ei;
    eexists; (split; [exact Hrun|]); (split; [reflexivity|]);
    unfold get_end_time; run_gets;
    change (initialized s1) with (initialized s); rewrite Ei.
  - unfold bind at 1. run_gets. unfold ret at 1.
    unfold bind at 1.
    rewrite (Hstart1 s1 eq_refl eq_refl Ei eq_refl).
    run_modify. unfold gets. cbn [_endTime set_endTime].
    split; reflexivity.
  - unfold bind at 1. unfold bind at 1.
    rewrite (get_attribute_value_runs s1 "sim_time" c' (Some digits) eq_refl
               Hcheck' Hsim).
    unfold to_float. rewrite Hx. unfold ret at 1.
    unfold bind at 1.
    erewrite Hstart1; [|reflexivity|reflexivity|exact Ei|reflexivity].
    run_modify. unfold gets. cbn [_endTime set_endTime].
    rewrite Htd.
    assert (E : (start + run_seconds start end_time * 1000000
                 = end_time - (end_time - start) mod 1000000)%Z).
    { unfold run_seconds.
      pose proof (Z.div_mod (end_time - start) 1000000 ltac:(lia)). lia. }
    rewrite E. split; reflexivity.
Qed.

End EndTimeRoundTrip.
(** ** [initialize_model] *)

Section LifecycleFacts.
Import Np Par Mask Lfp LfpSpec TimeSpec LfpMore Lifecycle.
Context {engine num elt : Type}.
Context `{!PyLib num elt} `{!BMIWrapper engine num elt} `{!Glib}.
Context `{!Startup engine elt}.

Local Abbreviation LFP := (LFP engine elt).

Lemma get_time_step_initialized (s : LFP) :
  initialized s = true ->
  get_time_step s
  = (Ok (timedelta_of_seconds (bmi_get_time_step (_bmi s))),
     set_dt (timedelta_of_seconds (bmi_get_time_step (_bmi s))) s).
Proof.
  intros Hi. unfold get_time_step. run_gets. rewrite Hi.
  unfold bind at 1. run_gets. unfold ret at 1.
  run_modify. reflexivity.
Qed.

Lemma get_end_time_initialized (s : LFP) (c : config) (r : str)
  (d0 : datetime) :
  initialized s = true ->
  _config s = Some c -> configcheck (Some c) = Ok tt ->
  configget c "general:refdate" = Ok (Some r) ->
  strptime r (_datefmt s) = Some d0 ->
  get_end_time s
  = (Ok (start_from d0 s + timedelta_of_seconds (bmi_get_end_time (_bmi s)))%Z,
     set_endTime
       (start_from d0 s + timedelta_of_seconds (bmi_get_end_time (_bmi s)))%Z
       (set_startTime (start_from d0 s)
          (log (LogDebug "get_attribute_value: general:refdate") s))).
Proof.
  intros Hi Hc Hcheck Hget Hd0. unfold get_end_time. run_gets. rewrite Hi.
  unfold bind at 1. run_gets. unfold ret at 1.
  unfold bind at 1.
  rewrite (get_start_time_runs s c r d0 Hc Hcheck Hget Hd0).
  run_modify. reflexivity.
Qed.

(** [initialize_model], when [_config_fn] is set, the configuration
    is written, the engine initializes and the reference date can be read:
    the model is initialized and its clock is the engine's.  The time step
    is the engine's, the start time is the reference date plus the engine's
    start time, the current time is the start time, and the end time is the
    start time plus the engine's end time ([sim_time] is not read).  The
    cached current time is the engine's exactly when the engine's current
    time is 0 after its initialization. *)
Theorem initialize_model_clock (s : LFP) (fn fn' : str) (c : config)
  (b' : engine) (a' : gmap loc (ndarray elt)) (r : str) (d0 : datetime) :
  _config s = Some c ->
  glib_write_config s c fn = Ok fn' ->
  bmi_initialize (_bmi s) (arrays s) fn' = Ok (b', a') ->
  configcheck (Some c) = Ok tt ->
  configget c "general:refdate" = Ok (Some r) ->
  strptime r (_datefmt s) = Some d0 ->
  exists s' : LFP,
    initialize_model (s, Some fn) = (Ok tt, (s', Some fn'))
    /\ initialized s' = true /\ _bmi s' = b' /\ arrays s' = a'
    /\ _dt s' = timedelta_of_seconds (bmi_get_time_step b')
    /\ _startTime s'
       = (d0 + timedelta_of_seconds (bmi_get_start_time b'))%Z
    /\ _t s' = _startTime s'
    /\ _endTime s'
       = (_startTime s' + timedelta_of_seconds (bmi_get_end_time b'))%Z
    /\ (synced s'
        <-> timedelta_of_seconds (bmi_get_current_time b') = 0%Z).
Proof.
  intros Hc Hw Hb Hcheck Hget Hd0.
  unfold initialize_model. cbn [snd].
  unfold bindf at 1. unfold write_config. cbn [fst snd]. rewrite Hc, Hw.
  unfold bindf at 1. unfold engine_initialize. cbn [fst snd]. rewrite Hb.
  cbn [fst snd].
  unfold bindf at 1. unfold on_lfp at 1. unfold modify at 1. cbn [fst snd].
  unfold bindf at 1. unfold on_lfp at 1. unfold modify at 1. cbn [fst snd].
  unfold bindf at 1. unfold on_lfp at 1.
  rewrite get_time_step_initialized by reflexivity. cbn [fst snd].
  unfold bindf at 1. unfold on_lfp at 1. unfold modify at 1. cbn [fst snd].
  unfold bindf at 1. unfold on_lfp at 1.
  erewrite (get_start_time_runs _ c r d0);
    [|exact Hc|exact Hcheck|exact Hget|exact Hd0].
  cbn [fst snd].
  unfold bindf at 1. unfold on_lfp at 1. unfold modify at 1. cbn [fst snd].
  unfold bindf at 1. unfold on_lfp at 1.
  erewrite (get_end_time_initialized _ c r d0);
    [|reflexivity|exact Hc|exact Hcheck|exact Hget|exact Hd0].
  cbn [fst snd].
  unfold bindf at 1. unfold on_lfp at 1. unfold modify at 1. cbn [fst snd].
  unfold bindf at 1. unfold on_lfp at 1. unfold gets at 1. cbn [fst snd].
  unfold on_lfp, modify. cbn [fst snd].
  eexists. split; [reflexivity|].
  unfold synced, start_from.
  cbn [initialized _bmi arrays _dt _startTime _t _endTime set_t set_endTime
       set_startTime set_dt log set_initialized set_engine].
  repeat split; try reflexivity; lia.
Qed.

End LifecycleFacts.

(** ** [set_end_time] and the configuration *)

Section EndTimePersists.
Import Np Par ParSpec Mask Lfp LfpSpec GlibModel.
Context {engine num elt : Type}.
Context `{!PyLib num elt} `{!BMIWrapper engine num elt}.

Local Abbreviation LFP := (LFP engine elt).

Lemma dict_get_set_eq {V} (d : dict V) (k : str) (v : V) :
  dict_get (dict_set d k v) k = Some v.
Proof.
  induction d as [|[k0 v0] d IH]; simpl.
  - rewrite str_eqb_refl. reflexivity.
  - destruct (str_eqb k0 k) eqn:E; simpl; rewrite E; [reflexivity|exact IH].
Qed.

Lemma dict_get_set_ne {V} (d : dict V) (k k' : str) (v : V) :
  k' <> k -> dict_get (dict_set d k v) k' = dict_get d k'.
Proof.
  intros Hne. induction d as [|[k0 v0] d IH]; simpl.
  - destruct (str_eqb k k') eqn:E; [|reflexivity].
    apply str_eqb_eq in E. congruence.
  - destruct (str_eqb k0 k) eqn:E; simpl.
    + apply str_eqb_eq in E. subst k0.
      destruct (str_eqb k k') eqn:E'; [|reflexivity].
      apply str_eqb_eq in E'. congruence.
    + rewrite IH. reflexivity.
Qed.

Lemma dict_set_split {V} (d : dict V) (k : str) (v : V) :
  exists pre post, dict_set d k v = pre ++ (k, v) :: post.
Proof.
  induction d as [|[k0 v0] d (pre & post & IH)]; simpl.
  - exists [], []. reflexivity.
  - destruct (str_eqb k0 k) eqn:E.
    + apply str_eqb_eq in E. subst k0. exists [], d. reflexivity.
    + exists ((k0, v0) :: pre), post. rewrite IH. reflexivity.
Qed.

(** Texts that are empty or end in a line feed. *)
Lemma ends_lf_app (x y : str) :
  (x = [] \/ exists b, x = b ++ LF) -> (y = [] \/ exists b, y = b ++ LF) ->
  x ++ y = [] \/ exists b, x ++ y = b ++ LF.
Proof.
  intros Hx [->|(b & ->)].
  - rewrite app_nil_r. exact Hx.
  - right. exists (x ++ b). rewrite app_assoc. reflexivity.
Qed.

Lemma ends_lf_concat (l : list str) :
  Forall (fun x => x = [] \/ exists b, x = b ++ LF) l ->
  concat l = [] \/ exists b, concat l = b ++ LF.
Proof.
  induction 1 as [|x l Hx _ IH]; simpl; [left; reflexivity|].
  apply ends_lf_app; assumption.
Qed.

Lemma write_section_ends_lf (name : str) (items : dict (option str)) :
  exists b, _write_section name items = b ++ LF.
Proof. unfold _write_section. eexists. reflexivity. Qed.

(** The text written for an option is a line of the text written for a
    configuration that holds the option. *)
Lemma write_has_line (c : config) (sec : str) (items : dict (option str))
  (k v : str) :
  In (sec, items) (cfg_sections c) -> In (k, Some v) items -> nolf v ->
  has_line (write c) (k ++ " " ++ v ++ LF).
Proof.
  intros Hsec Hitem Hv.
  apply in_split in Hsec as (spre & spost & Es).
  apply in_split in Hitem as (ipre & ipost & Ei).
  set (item_text := fun kv : str * option str =>
         fst kv ++ (" " ++ replace_newline (str_of_value (snd kv)))
         ++ ["010"%char]).
  set (dflt := match cfg_defaults c with
               | [] => []
               | _ :: _ => _write_section default_section (cfg_defaults c)
               end).
  exists (dflt
          ++ concat (map (fun sd => _write_section (fst sd) (snd sd)) spre)
          ++ concat (map item_text ipre)).
  exists (concat (map item_text ipost) ++ ["010"%char]
          ++ concat (map (fun sd => _write_section (fst sd) (snd sd)) spost)).
  split.
  - unfold write. fold dflt. rewrite Es, map_app, concat_app.
    cbn [map concat fst snd]. unfold _write_section at 2. fold item_text.
    rewrite Ei, map_app, concat_app. cbn [map concat].
    unfold item_text at 2. cbn [fst snd str_of_value].
    rewrite (replace_newline_nolf v Hv). unfold LF.
    rewrite <- !app_assoc. reflexivity.
  - apply ends_lf_app; [|apply ends_lf_app].
    + unfold dflt. destruct (cfg_defaults c); [left; reflexivity|].
      right. apply write_section_ends_lf.
    + apply ends_lf_concat. apply Forall_map. apply Forall_true.
      intros sd. right. apply write_section_ends_lf.
    + apply ends_lf_concat. apply Forall_map. apply Forall_true.
      intros kv. right. unfold item_text, LF. eexists.
      rewrite app_assoc. reflexivity.
Qed.

Lemma string_of_uint_nolf (u : Decimal.uint) :
  nolf (list_ascii_of_string (NilEmpty.string_of_uint u)).
Proof. induction u; simpl; constructor; auto. Qed.

Lemma format_0f_nolf (n : Z) : nolf (format_0f n).
Proof.
  unfold format_0f, NilZero.string_of_int, NilZero.string_of_uint.
  destruct (Z.to_int n) as [u|u].
  - destruct u; try apply string_of_uint_nolf.
    repeat constructor.
  - simpl. constructor; [reflexivity|].
    destruct u; try apply string_of_uint_nolf.
    repeat constructor.
Qed.

(** The configuration after [configset] of the option [opt] of the
    section [general]. *)
Lemma model_configset_general (c : config) (opt value : str) :
  contains ":"%char opt = false ->
  model_configset c ("general:" ++ opt) value
  = Ok (mk_config (cfg_defaults c)
          (dict_set (cfg_sections c) "general"
             (dict_set (default [] (dict_get (cfg_sections c) "general"))
                opt (Some value)))).
Proof.
  intros Ho. unfold model_configset.
  change ("general:" ++ opt) with ("general" ++ ":"%char :: opt).
  rewrite (split_on_piece ":"%char "general" opt eq_refl).
  rewrite (split_on_last ":"%char opt Ho). reflexivity.
Qed.

Lemma model_configget_general (c : config) (d : dict (option str))
  (opt : str) (v : option str) :
  contains ":"%char opt = false ->
  dict_get (cfg_sections c) "general" = Some d ->
  dict_get d opt = Some v ->
  model_configget c ("general:" ++ opt) = Ok v.
Proof.
  intros Ho Hd Hv. unfold model_configget.
  change ("general:" ++ opt) with ("general" ++ ":"%char :: opt).
  rewrite (split_on_piece ":"%char "general" opt eq_refl).
  rewrite (split_on_last ":"%char opt Ho). rewrite Hd, Hv. reflexivity.
Qed.

(** C8: [set_end_time], with the helpers of [glofrim_lib] as the
    specification describes them.  When the start time can be read, an end
    time (given as a [datetime] or as a date string) that is not after the
    start time raises [AssertionError] and leaves configuration and end time
    as they were.  Otherwise the call succeeds, [_endTime] is the end time,
    and the configuration of the adapter holds under [sim_time], in the
    section [general], the decimal digits of the whole number of seconds
    from start to end: the digits read back as that number, the other
    options, the other sections and the defaults are as before,
    [get_attribute_value] returns the digits, and the text that [write]
    makes of the configuration has the line [sim_time <digits>]. *)
Theorem set_end_time_persists (s s0 : LFP) (arg : time_arg)
  (end_time start : datetime) (c : config) :
  arg = ArgDatetime end_time
  \/ (exists text, arg = ArgStr text
                   /\ strptime text (_datefmt s) = Some end_time) ->
  get_start_time s = (Ok start, s0) ->
  _config s0 = Some c ->
  ((end_time <= start)%Z -> set_end_time arg s = (Raise AssertionError, s0))
  /\ ((start < end_time)%Z ->
      option_map Z.of_int
        (NilZero.int_of_string
           (string_of_list_ascii (sim_time_text start end_time)))
      = Some ((end_time - start) / 1000000)%Z
      /\ exists (s1 : LFP) (c' : config) (d' : dict (option str)),
          set_end_time arg s = (Ok tt, s1)
          /\ _endTime s1 = end_time
          /\ _config s1 = Some c'
          /\ cfg_defaults c' = cfg_defaults c
          /\ (forall sec, sec <> "general" ->
                dict_get (cfg_sections c') sec = dict_get (cfg_sections c) sec)
          /\ dict_get (cfg_sections c') "general" = Some d'
          /\ dict_get d' "sim_time" = Some (Some (sim_time_text start end_time))
          /\ (forall k, k <> "sim_time" ->
                dict_get d' k
                = dict_get (default [] (dict_get (cfg_sections c) "general")) k)
          /\ get_attribute_value "sim_time" s1
             = (Ok (Some (sim_time_text start end_time)),
                log (LogDebug "get_attribute_value: general:sim_time") s1)
          /\ has_line (write c')
               ("sim_time" ++ " " ++ sim_time_text start end_time ++ LF)).
Proof.
  intros Harg Hstart Hc.
  destruct (set_end_time_hands_over s s0 arg end_time start Harg Hstart)
    as (Hfail & Hok).
  split; [exact Hfail|].
  intros Hlt. destruct (Hok Hlt) as (Hdigits & Hrun).
  split; [exact Hdigits|].
  set (digits := sim_time_text start end_time).
  set (d := default [] (dict_get (cfg_sections c) "general")).
  set (d' := dict_set d "sim_time" (Some digits)).
  set (c' := mk_config (cfg_defaults c)
               (dict_set (cfg_sections c) "general" d')).
  assert (Hset : configset c "general:sim_time" digits = Ok c').
  { apply (model_configset_general c "sim_time" digits). reflexivity. }
  eexists. exists c', d'.
  split; [exact (Hrun c c' Hc eq_refl Hset)|].
  split; [reflexivity|]. split; [reflexivity|]. split; [reflexivity|].
  split.
  { intros sec Hsec. apply dict_get_set_ne. exact Hsec. }
  split; [apply dict_get_set_eq|].
  split; [apply dict_get_set_eq|].
  split.
  { intros k Hk. apply dict_get_set_ne. exact Hk. }
  split.
  - apply (get_attribute_value_runs _ "sim_time" c' (Some digits));
      [reflexivity|reflexivity|].
    apply (model_configget_general c' d' "sim_time" (Some digits));
      [reflexivity|apply dict_get_set_eq|apply dict_get_set_eq].
  - destruct (dict_set_split (cfg_sections c) "general" d')
      as (spre & spost & Es).
    destruct (dict_set_split d "sim_time" (Some digits))
      as (ipre & ipost & Ei).
    apply (write_has_line c' "general" d' "sim_time" digits).
    + cbn [cfg_sections c']. rewrite Es. apply in_elt.
    + unfold d'. rewrite Ei. apply in_elt.
    + apply format_0f_nolf.
Qed.

End EndTimePersists.

(** ** The properties at sample inputs *)

Section MaskExamples.
Import Np Mask.

Lemma get_mask_edges_witness :
  exists m, get_mask mask_2x3 "Qx" = Some m /\ shape m = (3, 4)%nat.
Proof.
  destruct (get_mask_edges mask_2x3 2 3 "Qx") as [Hrows _].
  - apply wfb_wf. reflexivity.
  - reflexivity.
  - lia.
  - lia.
  - destruct (Hrows (or_introl eq_refl)) as (m & Hm & _ & Hs & _).
    exists m. split; assumption.
Defined.

(** C1, as stated, fails on the one-cell grid: the mask of [Qx] has shape
    (2, 2), not (2, 1), and its cell (1, 0) is false although grid cell
    (0, 0), the cell above it, is true. *)
Lemma get_mask_rows_counterexample :
  get_mask mask_1x1 "Qx"
  = Some (mk_ndarray 2 2 [[true; true]; [false; false]])
  /\ item mask_1x1 0 0 = Some true
  /\ ~ (exists m, get_mask mask_1x1 "Qx" = Some m
          /\ shape m = (1 + 1, 1)%nat
          /\ item m 1 0 = Some true).
Proof.
  split; [reflexivity|]. split; [reflexivity|].
  intros (m & Hm & Hs & _).
  assert (E : get_mask mask_1x1 "Qx"
              = Some (mk_ndarray 2 2 [[true; true]; [false; false]]))
    by reflexivity.
  rewrite E in Hm. injection Hm as <-. discriminate Hs.
Qed.

End MaskExamples.
Section TimeExamples.
Import Np Par Mask Lfp LfpSpec GlibModel Examples.

Local Abbreviation Q := QArith_base.Q.
Local Abbreviation clock4 := (clamped_clock 4 100).
Local Abbreviation clock40 := (free_clock 40 100).

(** With a native step of 4 seconds and a model time step of 10 seconds,
    [update()] makes three native steps. *)
Lemma update_reaches_target_witness :
  @update Z Q sample sample_pylib clock4 model_glib 5 None (sample_model 0)
  = (Ok tt,
     log (LogUpdated (_t (@after Z Q sample sample_pylib clock4 3 (sample_model 0))) 3)
         (@after Z Q sample sample_pylib clock4 3 (sample_model 0))).
Proof.
  apply (@update_reaches_target Z Q sample sample_pylib clock4 model_glib
           (sample_model 0) None 3 5 (seconds 10) (t2000 + seconds 10)%Z).
  - reflexivity.
  - vm_compute. reflexivity.
  - reflexivity.
  - vm_compute. reflexivity.
  - intros k Hk. destruct k as [|[|[|k]]].
    + vm_compute. reflexivity.
    + vm_compute. reflexivity.
    + vm_compute. reflexivity.
    + lia.
  - vm_compute. discriminate.
  - lia.
Defined.

(** At the end of the run [update()] raises and the model is as before. *)
Lemma update_at_end_raises_witness :
  @update Z Q sample sample_pylib clock4 model_glib 5 None (sample_model 100)
  = (Raise (Exception "endTime already reached, model not updated"),
     sample_model 100).
Proof.
  apply (@update_at_end_raises Z Q sample sample_pylib clock4 model_glib
           (sample_model 100) None 5).
  vm_compute. discriminate.
Defined.

Lemma microseconds_of_whole (z : Z) :
  microseconds_of (QArith_base.inject_Z z) = (z * 1000000)%Z.
Proof.
  unfold microseconds_of, QArith_base.inject_Z; simpl.
  rewrite Z.div_1_r, Z.mod_1_r. reflexivity.
Qed.

Lemma clock4_stays_within :
  @engine_stays_within Z Q sample sample_pylib clock4
    t2000 (t2000 + seconds 100)%Z.
Proof.
  intros b a. simpl. rewrite microseconds_of_whole. unfold seconds. lia.
Qed.

(** An engine that stops at its end keeps the adapter's time within bounds. *)
Lemma update_keeps_time_bounds_witness :
  time_bounds (snd (@update Z Q sample sample_pylib clock4 model_glib 5 None
                      (sample_model 96))).
Proof.
  refine (proj1 (@update_keeps_time_bounds Z Q sample sample_pylib clock4
            model_glib (sample_model 96) _ 5 t2000 None _ _ _ _ _)).
  - reflexivity.
  - unfold time_bounds. vm_compute. split; discriminate.
  - exact clock4_stays_within.
  - left. apply surjective_pairing.
Defined.

(** C9, as stated, fails: on an engine that steps past its end in steps of
    40 seconds, [update(200)] at the start of a run of 100 seconds returns
    with the current time 200 seconds after the start, beyond end time. *)
Lemma update_beyond_end_counterexample :
  time_bounds (sample_model 0)
  /\ initialized (sample_model 0) = true
  /\ fst (@update Z Q sample sample_pylib clock40 model_glib 10
            (Some (QArith_base.inject_Z 200)) (sample_model 0)) = Ok tt
  /\ ~ time_bounds
         (snd (@update Z Q sample sample_pylib clock40 model_glib 10
                 (Some (QArith_base.inject_Z 200)) (sample_model 0))).
Proof.
  split; [unfold time_bounds; vm_compute; split; discriminate|].
  split; [reflexivity|]. split; [vm_compute; reflexivity|].
  unfold time_bounds. intros [_ Hle]. vm_compute in Hle. apply Hle. reflexivity.
Qed.

End TimeExamples.
Section AdapterExamples.
Import Np Par ParSpec Mask Lfp LfpSpec GlibModel Examples.

Local Abbreviation Q := QArith_base.Q.
Local Abbreviation clock4 := (clamped_clock 4 100).

Lemma attribute_name_normalised_witness :
  attribute_key "other:refdate" = "general:refdate"
  /\ @get_attribute_value Z sample model_glib "other:refdate"
     = @get_attribute_value Z sample model_glib "general:refdate".
Proof.
  destruct (@attribute_name_normalised Z sample model_glib
              "other" "general" "refdate" "refdate" "refdate" "x"
              eq_refl eq_refl eq_refl eq_refl) as (_ & H2 & _ & H4 & _).
  split; [exact H2 | exact H4].
Defined.

(** C6, as stated, fails on a name with two colons: what follows the first
    colon is [b:c], the name looked up is [general:b]. *)
Lemma attribute_key_counterexample :
  attribute_key "a:b:c" = "general:b"
  /\ attribute_key "a:b:c" <> "general:" ++ "b:c".
Proof. split; [reflexivity | discriminate]. Qed.

Lemma set_then_get_value_witness :
  exists s1 out,
    @set_value Z Q sample sample_pylib clock4 model_glib "H" 2 (Val 0)
      (sample_model 0) = (Ok tt, s1)
    /\ @get_value Z Q sample sample_pylib clock4 "H" s1 = (Ok out, s1)
    /\ item out 0 0 = Some (Val 10)
    /\ item out 0 1 = Some NaN.
Proof.
  destruct (@set_then_get_value Z Q sample sample_pylib clock4 model_glib
              (sample_model 0) "H" 2%nat (Val 0) mask_2x3 mask_2x3
              caller_array_numbers H_array 0%nat)
    as (s1 & out & H1 & H2 & _ & H4).
  - reflexivity.
  - reflexivity.
  - reflexivity.
  - reflexivity.
  - reflexivity.
  - reflexivity.
  - reflexivity.
  - intros i j x.
    destruct i as [|[|i]]; destruct j as [|[|[|j]]]; simpl;
      intros [= <-]; reflexivity.
  - exists s1, out. split; [exact H1|]. split; [exact H2|].
    split.
    + exact (proj1 (H4 0%nat 0%nat (Val 10) eq_refl) eq_refl).
    + exact (proj2 (H4 0%nat 1%nat (Val 20) eq_refl) eq_refl).
Defined.

Lemma set_value_overwrites_caller_array_witness :
  exists a',
    arrays (snd (@set_value Z Q sample sample_pylib clock4 model_glib "H" 1
                   (Val 0) (sample_model 0))) !! 1%nat = Some a'
    /\ item a' 0 0 = Some (Val 0)
    /\ item a' 0 1 = Some (Val 7)
    /\ item a' 0 2 = Some NaN.
Proof.
  destruct (@set_value_overwrites_caller_array Z Q sample sample_pylib clock4
              model_glib (sample_model 0) _ "H" 1%nat (Val 0) mask_2x3 mask_2x3
              caller_array _ eq_refl eq_refl eq_refl eq_refl
              ltac:(discriminate) (surjective_pairing _))
    as (a' & Ha & _ & Hi).
  exists a'. split; [exact Ha|].
  split; [exact (Hi 0%nat 0%nat NaN true eq_refl eq_refl)|].
  split; [exact (Hi 0%nat 1%nat (Val 7) false eq_refl eq_refl)|].
  exact (Hi 0%nat 2%nat NaN false eq_refl eq_refl).
Defined.

Lemma set_end_time_persists_witness :
  option_map Z.of_int
    (NilZero.int_of_string (string_of_list_ascii "86400"))
  = Some 86400%Z
  /\ exists (s1 : LFP Z sample) (c' : config) (d' : dict (option str)),
      @set_end_time Z Q sample sample_pylib clock4 model_glib
        (ArgStr "2000-01-02") (sample_model 0) = (Ok tt, s1)
      /\ _endTime s1 = (t2000 + seconds 86400)%Z
      /\ _config s1 = Some c'
      /\ cfg_defaults c' = cfg_defaults sample_config
      /\ (forall sec, sec <> "general" ->
            dict_get (cfg_sections c') sec
            = dict_get (cfg_sections sample_config) sec)
      /\ dict_get (cfg_sections c') "general" = Some d'
      /\ dict_get d' "sim_time" = Some (Some "86400")
      /\ (forall k, k <> "sim_time" ->
            dict_get d' k
            = dict_get [("DEMfile", Some "dem.asc"); ("sim_time", Some "100");
                        ("initial_tstep", Some "10")] k)
      /\ @get_attribute_value Z sample model_glib "sim_time" s1
         = (Ok (Some "86400"),
            log (LogDebug "get_attribute_value: general:sim_time") s1)
      /\ has_line (write c') ("sim_time" ++ " " ++ "86400" ++ LF).
Proof.
  refine (proj2 (@set_end_time_persists Z Q sample sample_pylib clock4
                   (sample_model 0) sample_model_read
                   (ArgStr "2000-01-02") (t2000 + seconds 86400)%Z t2000
                   sample_config _ _ _) _).
  - right. exists "2000-01-02". split; reflexivity.
  - vm_compute. reflexivity.
  - reflexivity.
  - vm_compute. reflexivity.
Defined.

(** The text written for the configuration that the call leaves in the
    adapter: the run length of the file is the new one. *)
Lemma write_after_set_end_time :
  option_map write
    (_config (snd (@set_end_time Z Q sample sample_pylib clock4 model_glib
                     (ArgStr "2000-01-02") (sample_model 0))))
  = Some ("refdate 2000-01-01" ++ LF ++ LF
          ++ "DEMfile dem.asc" ++ LF ++ "sim_time 86400" ++ LF
          ++ "initial_tstep 10" ++ LF ++ LF).
Proof. vm_compute. reflexivity. Qed.

End AdapterExamples.
Section ParserExamples.
Import Par ParSpec Examples.

Lemma parse_serialize_parse_witness :
  parse [] (lines_of (serialize par_record)) = Ok par_record.
Proof.
  apply (parse_serialize_parse par_text par_record
           [("DEMfile", Some "dem.asc"); ("sim_time", Some "100");
            ("initial_tstep", Some "10")]).
  - vm_compute. reflexivity.
  - reflexivity.
  - reflexivity.
  - intros k v [[= <- <-]|[[= <- <-]|[[= <- <-]|[]]]];
      eexists; (split; [reflexivity|discriminate]).
Defined.

(** C4, as stated, fails.  A keyword without a value is written with the
    value [None] and read back as the string [None]; a key in square
    brackets opens a section, and the text written for the two sections
    cannot be read; with the defaults the adapter uses, the default is
    written as a line and read back as an option of [general]. *)
Lemma roundtrip_counterexample :
  (parse [] keyword_text = Ok keyword_record
   /\ parse [] (lines_of (serialize keyword_record)) = Ok keyword_record_again
   /\ keyword_record_again <> keyword_record)
  /\ (parse [] bracket_text = Ok bracket_record
      /\ parse [] (lines_of (serialize bracket_record))
         = Raise (DuplicateOptionError (Some "general") "a" 4))
  /\ (parse adapter_defaults defaults_text = Ok defaults_record
      /\ parse adapter_defaults (lines_of (serialize defaults_record))
         = Ok defaults_record_again
      /\ defaults_record_again <> defaults_record).
Proof.
  repeat split; try (vm_compute; reflexivity); discriminate.
Qed.

Lemma keyword_lines_accepted_witness :
  parse [] (map keyword_line ["SGC_enable"; "elevoff"])
  = Ok (mk_config []
          [("general", [("SGC_enable", None); ("elevoff", None)])]).
Proof.
  refine (proj2 (keyword_lines_accepted ["SGC_enable"; "elevoff"] _ _)).
  - apply NoDup_cons. split; [|apply NoDup_singleton].
    intros Hin. apply list_elem_of_In in Hin. destruct Hin as [Hin|[]].
    discriminate Hin.
  - repeat constructor; discriminate.
Defined.

(** C5, as stated, fails: a line that holds the single token [SGC_enable]
    is parsed, without any error, as a key without a value. *)
Lemma single_token_counterexample :
  split ("SGC_enable" ++ LF) = ["SGC_enable"]
  /\ parse [] keyword_text = Ok keyword_record
  /\ ~ (exists ex, parse [] keyword_text = Raise ex).
Proof.
  split; [reflexivity|]. split; [vm_compute; reflexivity|].
  intros (ex & Hex).
  assert (E : parse [] keyword_text = Ok keyword_record)
    by (vm_compute; reflexivity).
  rewrite E in Hex. discriminate Hex.
Qed.

End ParserExamples.
(** ** The further properties at sample inputs *)

Section MoreExamplesTimeVars.
Import Np Par Mask Lfp LfpSpec TimeSpec GlibModel Examples MoreExamples.

Local Abbreviation Q := QArith_base.Q.
Local Abbreviation clock4 := (clamped_clock 4 100).
Local Abbreviation clock40 := (free_clock 40 100).

Lemma get_mask_faces_witness :
  exists m, get_mask mask_2x3 "Qx" = Some m
    /\ item m 0 0 = Some true /\ item m 0 (0 + 1) = Some true.
Proof.
  refine (proj1 (get_mask_faces mask_2x3 "Qx" 0 0 _ _) (or_introl eq_refl)).
  - apply wfb_wf. reflexivity.
  - reflexivity.
Defined.

Lemma get_value_edge_variable_grid_shape_witness :
  @get_value Z Q sample sample_pylib (flux_clock 4 100) "Qx" (sample_model 0)
  = (Raise IndexError, sample_model 0).
Proof.
  apply (@get_value_edge_variable_grid_shape Z Q sample sample_pylib
           (flux_clock 4 100) (sample_model 0) "Qx" mask_2x3 H_array 0%nat).
  - reflexivity.
  - simpl; lia.
  - simpl; lia.
  - reflexivity.
  - reflexivity.
  - reflexivity.
  - reflexivity.
Defined.

Lemma set_value_no_nan_in_domain_witness :
  exists s1 buf',
    @set_value Z Q sample sample_pylib clock4 model_glib "H" 1 (Val 0)
      (sample_model 0) = (Ok tt, s1)
    /\ arrays s1 !! 0%nat = Some buf'
    /\ forall i j x, item buf' i j = Some x ->
         (item mask_2x3 i j = Some true -> sample_isnan x = false)
         /\ (sample_isnan (Val 0) = false -> sample_isnan x = false).
Proof.
  apply (@set_value_no_nan_in_domain Z Q sample sample_pylib clock4 model_glib
           (sample_model 0) "H" 1%nat (Val 0) mask_2x3 mask_2x3
           caller_array H_array 0%nat).
  - reflexivity.
  - intros x Hx. exact Hx.
  - reflexivity.
  - reflexivity.
  - reflexivity.
  - reflexivity.
  - reflexivity.
  - reflexivity.
  - reflexivity.
Defined.

Lemma clock40_progress :
  @engine_progress Z Q sample sample_pylib clock40 (seconds 40).
Proof.
  intros b a. simpl. rewrite !microseconds_of_whole. unfold seconds. lia.
Qed.

Lemma update_ends_under_progress_witness :
  exists k, (k <= 1 + 1)%nat
    /\ @update Z Q sample sample_pylib clock40 model_glib 2 None (sample_model 0)
       = (Ok tt,
          log (LogUpdated
                 (_t (@after Z Q sample sample_pylib clock40 k (sample_model 0))) k)
            (@after Z Q sample sample_pylib clock40 k (sample_model 0)))
    /\ (_startTime (sample_model 0)
        + microseconds_of (QArith_base.inject_Z 0)
        + @step_duration Z Q sample sample_pylib None (sample_model 0)
        <= _t (@after Z Q sample sample_pylib clock40 k (sample_model 0)))%Z.
Proof.
  apply (@update_ends_under_progress Z Q sample sample_pylib clock40 model_glib
           (sample_model 0) None (seconds 40) 1 2).
  - reflexivity.
  - vm_compute. reflexivity.
  - exact clock40_progress.
  - vm_compute. reflexivity.
  - vm_compute. discriminate.
  - lia.
Defined.

Lemma update_until_ends_under_progress_witness :
  exists s',
    @update_until Z Q sample sample_pylib clock40 model_glib 3
      (t2000 + seconds 25)%Z None (sample_model 0) = (Ok tt, s')
    /\ (t2000 + seconds 25 <= _t s')%Z
    /\ _startTime s' = _startTime (sample_model 0)
    /\ _endTime s' = _endTime (sample_model 0).
Proof.
  apply (@update_until_ends_under_progress Z Q sample sample_pylib clock40
           model_glib (sample_model 0) (t2000 + seconds 25)%Z None
           (seconds 40) 1 3 3).
  - reflexivity.
  - vm_compute. reflexivity.
  - vm_compute. discriminate.
  - vm_compute. discriminate.
  - exact clock40_progress.
  - vm_compute. reflexivity.
  - vm_compute. reflexivity.
  - vm_compute. discriminate.
  - vm_compute. discriminate.
  - lia.
  - lia.
Defined.

Lemma update_until_target_range_witness :
  @update_until Z Q sample sample_pylib clock4 model_glib 3
    (t2000 + seconds 101)%Z None (sample_model 0)
  = (Raise (Exception
       "wrong time input: smaller than model time or larger than endTime"),
     sample_model 0).
Proof.
  refine (proj1 (@update_until_target_range Z Q sample sample_pylib clock4
                   model_glib (sample_model 0) (t2000 + seconds 101)%Z None 3)
            (or_intror _)).
  vm_compute. reflexivity.
Defined.

End MoreExamplesTimeVars.
Section MoreExamplesParser.
Import Par ParSpec ParseSpec Examples ParExamples.

Local Ltac distinct_keys :=
  repeat (apply NoDup_cons; split;
          [intros Hin; apply list_elem_of_In in Hin; simpl in Hin;
           intuition discriminate|]);
  apply NoDup_nil; exact I.

Lemma parse_classified_file_witness :
  parse [] mixed_text
  = Ok (mk_config []
          [("general", [("DEMfile", Some "dem.asc"); ("sim_time", Some "100");
                        ("SGC_enable", None)])]).
Proof.
  apply (parse_classified_file mixed_text mixed_kinds).
  - repeat constructor.
  - distinct_keys.
Defined.

Lemma duplicate_key_raises_witness :
  parse [] (twice_head ++ twice_line :: twice_tail)
  = Raise (DuplicateOptionError (Some "general") "sim_time" 4).
Proof.
  apply (duplicate_key_raises twice_head
           [Item ("sim_time", Some "100"); Item ("fpfric", Some "0.06")]
           twice_line ("sim_time", Some "200") twice_tail).
  - repeat constructor.
  - distinct_keys.
  - reflexivity.
  - left. reflexivity.
Defined.

Lemma parsed_record_entries_witness :
  NoDup (map fst [("DEMfile", Some "dem.asc"); ("sim_time", Some "100");
                  ("initial_tstep", Some "10")])
  /\ forall k ov,
       In (k, ov) [("DEMfile", Some "dem.asc"); ("sim_time", Some "100");
                   ("initial_tstep", Some "10")] ->
       k <> []
       /\ forall v, ov = Some v ->
            nows v /\ nows k /\ contains delimiter k = false.
Proof.
  apply (parsed_record_entries [] par_text par_record
           ltac:(vm_compute; reflexivity) "general").
  left. reflexivity.
Defined.

End MoreExamplesParser.
Section MoreExamplesIndices.
Import Np Par Mask Lfp LfpSpec Flat LfpMore GlibModel Examples.

Local Abbreviation Q := QArith_base.Q.
Local Abbreviation clock4 := (clamped_clock 4 100).

Lemma get_value_at_indices_cells_witness :
  exists vals,
    @get_value_at_indices Z Q sample sample_pylib clock4 "H" [0; -1; 4]%Z
      (sample_model 0)
    = (Ok vals, sample_model 0)
    /\ Forall2 (fun i v =>
         let p := position (size H_array) i in
         exists m x,
           item mask_2x3 (p / ncols H_array) (p mod ncols H_array) = Some m
           /\ item H_array (p / ncols H_array) (p mod ncols H_array) = Some x
           /\ v = if m then x else NaN) [0; -1; 4]%Z vals.
Proof.
  refine (proj1 (@get_value_at_indices_cells Z Q sample sample_pylib clock4
                   (sample_model 0) "H" [0; -1; 4]%Z mask_2x3 mask_2x3 H_array
                   0%nat _ _ _ _ _ _ _) _).
  - reflexivity.
  - reflexivity.
  - reflexivity.
  - reflexivity.
  - apply wfb_wf. reflexivity.
  - apply wfb_wf. reflexivity.
  - reflexivity.
  - repeat (apply List.Forall_cons; [unfold in_range, size; cbn; lia|]).
    apply List.Forall_nil.
Defined.

Lemma set_value_at_indices_cells_witness :
  exists (s1 : LFP Z sample) (buf' : ndarray sample),
    @set_value_at_indices Z Q sample sample_pylib clock4 model_glib "H"
      [5; 0]%Z [Val 9] (sample_model 0) = (Ok tt, s1)
    /\ arrays s1 !! 0%nat = Some buf'
    /\ (forall i j m x,
          item mask_2x3 i j = Some m -> item H_array i j = Some x ->
          (forall k, In k [5; 0]%Z ->
                     position (size H_array) k <> (i * ncols H_array + j)%nat) ->
          item buf' i j
          = Some (if m && negb (sample_isnan x) then x else Val 0))
    /\ (forall q k,
          [5; 0]%Z !! q = Some k ->
          (forall q' k', (q < q')%nat -> [5; 0]%Z !! q' = Some k' ->
                         position (size H_array) k' <> position (size H_array) k) ->
          exists v,
            [Val 9] !! (q mod 1)%nat = Some v
            /\ item buf' (position (size H_array) k / ncols H_array)
                 (position (size H_array) k mod ncols H_array)
               = Some (if sample_isnan v then Val 0 else v)).
Proof.
  apply (@set_value_at_indices_cells Z Q sample sample_pylib clock4 model_glib
           (sample_model 0) "H" [5; 0]%Z [Val 9] mask_2x3 mask_2x3 H_array
           0%nat).
  - reflexivity.
  - reflexivity.
  - reflexivity.
  - reflexivity.
  - reflexivity.
  - reflexivity.
  - apply wfb_wf. reflexivity.
  - apply wfb_wf. reflexivity.
  - reflexivity.
  - discriminate.
  - repeat (apply List.Forall_cons; [unfold in_range, size; cbn; lia|]).
    apply List.Forall_nil.
Defined.

End MoreExamplesIndices.
Section MoreExamplesStart.
Import Np Par Mask Lfp LfpSpec LfpMore GlibModel Examples DateExamples.

Local Abbreviation Q := QArith_base.Q.
Local Abbreviation clock4 := (clamped_clock 4 100).

Lemma set_start_time_then_get_witness :
  exists s1 s2 : LFP Z sample,
    set_start_time (ArgDatetime noon) (sample_model 0) = (Ok tt, s1)
    /\ _startTime s1 = noon /\ _t s1 = noon
    /\ _config s1 = Some sample_config_march
    /\ @get_start_time Z Q sample sample_pylib clock4 model_glib s1
       = (Ok march, s2)
    /\ _startTime s2 = march
    /\ _t s2 = noon.
Proof.
  apply (@set_start_time_then_get Z Q sample sample_pylib clock4 model_glib
           sample_dateformat (sample_model 0) (ArgDatetime noon) noon march
           "2000-03-01" sample_config sample_config_march).
  - left. split; reflexivity.
  - reflexivity.
  - reflexivity.
  - reflexivity.
  - reflexivity.
  - reflexivity.
  - reflexivity.
Defined.

Lemma set_end_time_then_get_witness :
  exists s1 s2 : LFP Z sample,
    @set_end_time Z Q sample sample_pylib clock4 model_glib
      (ArgDatetime half_past_90) cold_model = (Ok tt, s1)
    /\ _endTime s1 = half_past_90
    /\ @get_end_time Z Q sample sample_pylib clock4 model_glib s1
       = (Ok (t2000 + seconds 90)%Z, s2)
    /\ _endTime s2 = (t2000 + seconds 90)%Z.
Proof.
  apply (@set_end_time_then_get Z Q sample sample_pylib clock4 model_glib
           cold_model (ArgDatetime half_past_90) half_past_90 t2000
           "2000-01-01" sample_config sample_config_90
           (QArith_base.inject_Z 90)).
  - left. reflexivity.
  - reflexivity.
  - reflexivity.
  - reflexivity.
  - reflexivity.
  - vm_compute. reflexivity.
  - vm_compute. reflexivity.
  - reflexivity.
  - reflexivity.
  - vm_compute. reflexivity.
  - vm_compute. reflexivity.
  - vm_compute. reflexivity.
Defined.

End MoreExamplesStart.
Section MoreExamplesLifecycle.
Import Np Par Mask Lfp LfpSpec TimeSpec LfpMore Lifecycle GlibModel Examples
  DateExamples LifecycleExamples.

Local Abbreviation Q := QArith_base.Q.
Local Abbreviation clock4 := (clamped_clock 4 100).

Lemma initialize_model_clock_witness :
  exists s' : LFP Z sample,
    @initialize_model Z Q sample sample_pylib clock4 model_glib sample_startup
      (cold_model, Some "model.par") = (Ok tt, (s', Some "model.par"))
    /\ initialized s' = true /\ _bmi s' = 0%Z /\ arrays s' = ∅
    /\ _dt s' = seconds 4
    /\ _startTime s' = t2000
    /\ _t s' = _startTime s'
    /\ _endTime s' = (_startTime s' + seconds 100)%Z
    /\ (@synced Z Q sample sample_pylib clock4 s'
        <-> microseconds_of (QArith_base.inject_Z 0) = 0%Z).
Proof.
  apply (@initialize_model_clock Z Q sample sample_pylib clock4 model_glib
           sample_startup cold_model "model.par" "model.par" sample_config
           0%Z ∅ "2000-01-01" t2000).
  - reflexivity.
  - reflexivity.
  - reflexivity.
  - reflexivity.
  - reflexivity.
  - reflexivity.
Defined.

End MoreExamplesLifecycle.
